(** * debug-tracer: the file writer, the tracers and the log-analysis CLI

    A shallow embedding of [src/fileWriter.ts] (class [DebugFileWriter]), of
    the tracers of [src/index.ts] and [browser/index.js] and of the commands
    of the CLI ([readLogFile], [analyzeCommand], [errorsCommand],
    [perfCommand], [filterCommand], [statsCommand], [tailCommand]), followed
    by the properties of the file-output subsystem and of the analysis
    engine.

    Conventions of the embedding:
    - a JavaScript value is a term of [value]; numbers are integers ([Z]),
      a [BigInt] is kept apart from them (a payload can be one, a value read
      from a log file cannot), and strings are sequences of characters below
      U+0100, one byte each;
    - an object is the list of its own enumerable properties in enumeration
      order, each key occurring once;
    - code that can raise a [TypeError] returns a [result];
    - the clock, the outcome of opening the file, [JSON.stringify] and
      [JSON.parse] belong to the runtime and are taken as arguments;
      [JSON.stringify] throws on some values (a [BigInt], for one), and the
      argument standing for it answers [None] there. *)

From Stdlib Require Import List String Ascii ZArith Lia Bool QArith.
From Stdlib Require Import Sorted Permutation.
Import ListNotations.
Close Scope Q_scope.
Open Scope string_scope.
Open Scope list_scope.

#[local] Set Warnings "-register-all".

(** ** JavaScript values *)

Module JS.

Inductive value : Type :=
| VUndefined
| VNull
| VBool (b : bool)
| VNum (n : Z)
| VBigInt (n : Z)
| VStr (s : string)
| VArr (items : list value)
| VObj (props : list (string * value)).

(** Errors raised by the modelled code. *)
Inductive result (A : Type) : Type :=
| Ok (a : A)
| TypeError.
Arguments Ok {A} a.
Arguments TypeError {A}.

Definition bind {A B} (r : result A) (k : A -> result B) : result B :=
  match r with
  | Ok a => k a
  | TypeError => TypeError
  end.

(** [ToBoolean]. *)
Definition truthy (v : value) : bool :=
  match v with
  | VUndefined | VNull => false
  | VBool b => b
  | VNum n | VBigInt n => negb (n =? 0)%Z
  | VStr s => negb (s =? "")
  | VArr _ | VObj _ => true
  end.

(** [typeof v === 'object'] (true of [null], arrays and objects). *)
Definition typeofObject (v : value) : bool :=
  match v with
  | VNull | VArr _ | VObj _ => true
  | _ => false
  end.

Definition isNull (v : value) : bool :=
  match v with VNull => true | _ => false end.

Definition isUndefined (v : value) : bool :=
  match v with VUndefined => true | _ => false end.

Fixpoint lookup {A : Type} (k : string) (props : list (string * A)) : option A :=
  match props with
  | [] => None
  | (k', v) :: rest => if k' =? k then Some v else lookup k rest
  end.

(** [o[k] = v] on a plain object: an existing key keeps its place, a new one
    is enumerated last.  Assigning to ["__proto__"] changes the prototype and
    creates no own property. *)
Fixpoint setProp (props : list (string * value)) (k : string) (v : value)
  : list (string * value) :=
  match props with
  | [] => [(k, v)]
  | (k', v') :: rest =>
      if k' =? k then (k', v) :: rest else (k', v') :: setProp rest k v
  end.

Definition assign (props : list (string * value)) (k : string) (v : value)
  : list (string * value) :=
  if k =? "__proto__" then props else setProp props k v.

(** [v[k]] for the property names the program reads ([data], [error],
    [duration], ...): none of them is defined on a primitive, on an array or
    on [Object.prototype], so only an object's own property can answer. *)
Definition getField (v : value) (k : string) : value :=
  match v with
  | VObj props => match lookup k props with Some x => x | None => VUndefined end
  | _ => VUndefined
  end.

(** [v?.k] *)
Definition optField (v : value) (k : string) : value :=
  match v with
  | VUndefined | VNull => VUndefined
  | _ => getField v k
  end.

(** [k in v], used by the program only behind [typeof v === 'object'] and
    with keys that no prototype defines. *)
Definition hasKey (k : string) (v : value) : bool :=
  match v with
  | VObj props => match lookup k props with Some _ => true | None => false end
  | _ => false
  end.

(** [a || b] on values. *)
Definition or (a b : value) : value := if truthy a then a else b.

Definition strictEqStr (v : value) (s : string) : bool :=
  match v with
  | VStr s' => s' =? s
  | _ => false
  end.

(** [String.prototype.toLowerCase] on characters below U+0100: the capital
    letters are A to Z and U+00C0 to U+00DE without the multiplication sign
    U+00D7. *)
Definition lowerChar (c : ascii) : ascii :=
  let n := nat_of_ascii c in
  if ((65 <=? n) && (n <=? 90))%nat
     || ((192 <=? n) && (n <=? 222) && negb (n =? 215))%nat
  then ascii_of_nat (n + 32) else c.

Fixpoint toLowerCase (s : string) : string :=
  match s with
  | EmptyString => EmptyString
  | String c rest => String (lowerChar c) (toLowerCase rest)
  end.

(** [s] begins with the characters of [p]. *)
Fixpoint isPrefix (p s : string) : bool :=
  match p, s with
  | EmptyString, _ => true
  | String _ _, EmptyString => false
  | String a p', String b s' => Ascii.eqb a b && isPrefix p' s'
  end.

(** [hay.includes(needle)] *)
Fixpoint includes (needle hay : string) : bool :=
  isPrefix needle hay ||
  match hay with
  | EmptyString => false
  | String _ rest => includes needle rest
  end.

(** [s.startsWith(p)] *)
Definition startsWith (p s : string) : bool := isPrefix p s.

End JS.
Import JS.

(** ** The file writer ([DebugFileWriter]) *)

Module FileWriter.

Inductive FileMode := Minimal | Detailed | Full.

Record DebugFileEntry := {
  timestamp : string;
  namespace : string;
  message : string;
  data : value;               (* [VUndefined]: no [data] to serialize *)
  metadata : option string    (* [Some id]: [{ requestId: id }] *)
}.

Record FileWriterConfig := {
  cfg_path : option string;
  cfg_mode : option FileMode;
  cfg_maxBufferSize : option Z
}.

(** [fileStream] is [None] for [null]; an open stream is the list of the
    chunks written to it so far, oldest first.  [ended] is the stream that
    [destroy] has ended, with every chunk it received ([None] while no stream
    was ended). *)
Record DebugFileWriter := {
  path : string;
  mode : FileMode;
  buffer : list DebugFileEntry;
  maxBufferSize : Z;
  flushInterval : bool;
  fileStream : option (list string);
  ended : option (list string);
  currentRequestId : option string
}.

Definition set_buffer (w : DebugFileWriter) (b : list DebugFileEntry) :=
  {| path := path w; mode := mode w; buffer := b;
     maxBufferSize := maxBufferSize w; flushInterval := flushInterval w;
     fileStream := fileStream w; ended := ended w;
     currentRequestId := currentRequestId w |}.

Definition set_fileStream (w : DebugFileWriter) (f : option (list string)) :=
  {| path := path w; mode := mode w; buffer := buffer w;
     maxBufferSize := maxBufferSize w; flushInterval := flushInterval w;
     fileStream := f; ended := ended w;
     currentRequestId := currentRequestId w |}.

Definition set_flushInterval (w : DebugFileWriter) (b : bool) :=
  {| path := path w; mode := mode w; buffer := buffer w;
     maxBufferSize := maxBufferSize w; flushInterval := b;
     fileStream := fileStream w; ended := ended w;
     currentRequestId := currentRequestId w |}.

(** [this.fileStream.end(); this.fileStream = null] *)
Definition endStream (w : DebugFileWriter) (written : list string) :=
  {| path := path w; mode := mode w; buffer := buffer w;
     maxBufferSize := maxBufferSize w; flushInterval := flushInterval w;
     fileStream := None; ended := Some written;
     currentRequestId := currentRequestId w |}.

Definition newline : string := String (ascii_of_nat 10) EmptyString.

Definition sessionHeader (now : string) : string :=
  newline ++ "--- Debug session started at " ++ now ++ " ---" ++ newline.

(** [initializeFile]: [opened] tells whether the directory and the stream
    could be set up; on failure the stream is [null]. *)
Definition initializeFile (w : DebugFileWriter) (opened : bool) (now : string)
  : DebugFileWriter :=
  if opened then set_fileStream w (Some [sessionHeader now])
  else set_fileStream w None.

Definition constructor (config : FileWriterConfig) (opened : bool) (now : string)
  : DebugFileWriter :=
  let w :=
    {| path := match cfg_path config with
               | Some p => if p =? "" then "/tmp/debug-tracer.log" else p
               | None => "/tmp/debug-tracer.log"
               end;
       mode := match cfg_mode config with Some m => m | None => Minimal end;
       buffer := [];
       maxBufferSize := match cfg_maxBufferSize config with
                        | Some n => if (n =? 0)%Z then 100%Z else n
                        | None => 100%Z
                        end;
       flushInterval := false;
       fileStream := None;
       ended := None;
       currentRequestId := None |} in
  set_flushInterval (initializeFile w opened now) true.

Definition shouldWrite (m : FileMode) (namespace : string) (data : value) : bool :=
  match m with
  | Minimal =>
      (namespace =? "performance") ||
      (namespace =? "timing") ||
      (truthy data && typeofObject data &&
       (hasKey "duration" data || hasKey "elapsed" data))
  | Detailed =>
      negb (existsb (String.eqb namespace) ["trace"; "verbose"; "debug"])
  | Full => true
  end.

Definition essentialKeys : list string :=
  ["duration"; "elapsed"; "timing"; "error"; "status"; "count"].

(** The [for ... of Object.entries(data)] loop of [truncate]; [trunc] is the
    recursive call on a value, one level down. *)
Definition truncateProps (trunc : value -> value) :=
  fix loop (count : nat) (truncated : list (string * value))
      (entries : list (string * value)) {struct entries} : list (string * value) :=
    match entries with
    | [] => truncated
    | (key, v) :: rest =>
        if (10 <? count)%nat
        then assign truncated "..." (VStr "truncated")
        else loop (S count) (assign truncated key (trunc v)) rest
    end.

(** [truncate(data, maxDepth, currentDepth)], by recursion on the number of
    levels left, [maxDepth - currentDepth]: none left is
    [currentDepth >= maxDepth], and each recursive call has one less
    ([truncate_unfold] below gives the equation in the source's terms). *)
Fixpoint truncateLevels (left : nat) (data : value) : value :=
  match left with
  | O => VStr "[truncated]"
  | S left' =>
      match data with
      | VArr items => VArr (map (truncateLevels left') (firstn 5 items))
      | VObj props => VObj (truncateProps (truncateLevels left') 0 [] props)
      | VStr s =>
          if (200 <? String.length s)%nat
          then VStr (substring 0 200 s ++ "...[truncated]")
          else data
      | _ => data
      end
  end.

Definition truncate (data : value) (maxDepth currentDepth : nat) : value :=
  truncateLevels (maxDepth - currentDepth) data.

Definition processData (m : FileMode) (data : value) : value :=
  match m with
  | Minimal =>
      if typeofObject data && negb (isNull data) then
        let essential :=
          fold_left
            (fun essential key =>
               if hasKey key data then assign essential key (getField data key)
               else essential)
            essentialKeys [] in
        if (0 <? List.length essential)%nat then VObj essential else VUndefined
      else data
  | Detailed => truncate data 3 0
  | Full => data
  end.

(** What [JSON.stringify] sees of an entry: [data] and [metadata] only when
    they are defined. *)
Definition entryValue (e : DebugFileEntry) : value :=
  VObj ([("timestamp", VStr (timestamp e));
         ("namespace", VStr (namespace e));
         ("message", VStr (message e))]
        ++ (if isUndefined (data e) then [] else [("data", data e)])
        ++ (match metadata e with
            | Some id => [("metadata", VObj [("requestId", VStr id)])]
            | None => []
            end)).

(** The entry [write] builds: [data] is set when an argument was passed,
    [metadata] when a request id is current. *)
Definition buildEntry (m : FileMode) (requestId : option string) (now : string)
    (namespace message : string) (data : value) : DebugFileEntry :=
  {| timestamp := now; namespace := namespace; message := message;
     data := if isUndefined data then VUndefined else processData m data;
     metadata := match requestId with
                 | Some id => if id =? "" then None else Some id
                 | None => None
                 end |}.

Section Writer.

(** [JSON.stringify]; [None] when it throws. *)
Variable JSON_stringify : value -> option string.

(** [JSON.stringify(v) + '\n'] *)
Definition serialize (v : value) : option string :=
  match JSON_stringify v with
  | Some text => Some (text ++ newline)%string
  | None => None
  end.

(** The [forEach] of [flush] on a stream that received [written]: what the
    stream has received when the loop ends, and whether it ended without an
    exception. *)
Fixpoint writeEntries (written : list string) (entries : list DebugFileEntry)
  : list string * bool :=
  match entries with
  | [] => (written, true)
  | entry :: rest =>
      match serialize (entryValue entry) with
      | Some line => writeEntries (written ++ [line]) rest
      | None => (written, false)
      end
  end.

(** [flush]: when [JSON.stringify] throws, the [catch] leaves the buffer as
    it is, after the lines of the entries before the failing one have been
    written. *)
Definition flush (w : DebugFileWriter) : DebugFileWriter :=
  match buffer w, fileStream w with
  | [], _ => w
  | _, None => w
  | _ :: _, Some written =>
      let (written', done) := writeEntries written (buffer w) in
      if done then set_buffer (set_fileStream w (Some written')) []
      else set_fileStream w (Some written')
  end.

Definition write (w : DebugFileWriter) (now : string)
    (namespace message : string) (data : value) : DebugFileWriter :=
  if negb (shouldWrite (mode w) namespace data) then w
  else
    let entry :=
      buildEntry (mode w) (currentRequestId w) now namespace message data in
    let w' := set_buffer w (buffer w ++ [entry]) in
    if (maxBufferSize w' <=? Z.of_nat (List.length (buffer w')))%Z
    then flush w' else w'.

Definition setRequestId (w : DebugFileWriter) (requestId : option string) :=
  {| path := path w; mode := mode w; buffer := buffer w;
     maxBufferSize := maxBufferSize w; flushInterval := flushInterval w;
     fileStream := fileStream w; ended := ended w;
     currentRequestId := requestId |}.

Definition destroy (w : DebugFileWriter) : DebugFileWriter :=
  let w1 := if flushInterval w then set_flushInterval w false else w in
  let w2 := flush w1 in
  match fileStream w2 with
  | Some written => endStream w2 written
  | None => w2
  end.

(** The calls a writer receives during its lifetime; [Tick] is one firing of
    the one-second timer, which happens only while the interval is armed. *)
Inductive call :=
| Write (now namespace message : string) (data : value)
| Flush
| Tick
| SetRequestId (requestId : option string)
| Destroy.

Definition step (w : DebugFileWriter) (c : call) : DebugFileWriter :=
  match c with
  | Write now ns msg d => write w now ns msg d
  | Flush => flush w
  | Tick => if flushInterval w then flush w else w
  | SetRequestId id => setRequestId w id
  | Destroy => destroy w
  end.

Definition run (w : DebugFileWriter) (calls : list call) : DebugFileWriter :=
  fold_left step calls w.

End Writer.

End FileWriter.
Import FileWriter.

(** ** The analysis CLI *)

Module Cli.

Definition LF : ascii := ascii_of_nat 10.
Definition CR : ascii := ascii_of_nat 13.

(** The lines [readline] hands out with [crlfDelay: Infinity]: a line ends at
    LF, at CR or at CR LF; the text after the last terminator is a line when
    it is not empty.  [cur] is the line read so far. *)
Fixpoint rlLines (cur : string) (input : string) : list string :=
  match input with
  | EmptyString => if cur =? "" then [] else [cur]
  | String c rest =>
      if Ascii.eqb c LF then cur :: rlLines "" rest
      else if Ascii.eqb c CR then
        match rest with
        | String c' rest' =>
            if Ascii.eqb c' LF then cur :: rlLines "" rest'
            else cur :: rlLines "" rest
        | EmptyString => cur :: rlLines "" rest
        end
      else rlLines (cur ++ String c EmptyString) rest
  end.

Section Reader.

(** [JSON.parse]; [None] is a [SyntaxError]. *)
Variable JSON_parse : string -> option value.

(** The body of the [for await] loop of [readLogFile]. *)
Definition readLine (logs : list value) (line : string) : list value :=
  if startsWith "{" line then
    match JSON_parse line with
    | Some v => logs ++ [v]
    | None => logs
    end
  else logs.

Definition readLogFile (content : string) : list value :=
  fold_left readLine (rlLines "" content) [].

End Reader.

(** [logs.filter(p)] for a callback that may throw. *)
Fixpoint filterR (p : value -> result bool) (logs : list value)
  : result (list value) :=
  match logs with
  | [] => Ok []
  | log :: rest =>
      bind (p log) (fun keep =>
      bind (filterR p rest) (fun kept =>
      Ok (if keep then log :: kept else kept)))
  end.

(** [log.message?.toLowerCase().includes(needle)], as a boolean. *)
Definition messageIncludes (log : value) (needle : string) : result bool :=
  match getField log "message" with
  | VUndefined | VNull => Ok false
  | VStr s => Ok (includes needle (toLowerCase s))
  | _ => TypeError
  end.

(** [a || b] where [b] is only evaluated when [a] is falsy. *)
Definition orR (a : result bool) (b : result bool) : result bool :=
  bind a (fun x => if x then Ok true else b).

(** The callback of [analyzeCommand]'s "Find errors" filter. *)
Definition analyzeIsError (log : value) : result bool :=
  orR (Ok (truthy (optField (getField log "data") "error")))
 (orR (messageIncludes log "error")
      (messageIncludes log "failed")).

Definition analyzeErrors (logs : list value) : result (list value) :=
  filterR analyzeIsError logs.

(** The callback of [errorsCommand]'s filter. *)
Definition errorsIsError (log : value) : result bool :=
  orR (Ok (truthy (optField (getField log "data") "error")))
 (orR (Ok (strictEqStr (getField log "level") "error"))
 (orR (messageIncludes log "error")
 (orR (messageIncludes log "failed")
      (messageIncludes log "exception")))).

(** [errorsCommand]: the entries it prints, all of them, in this order. *)
Definition errorsCommand (logs : list value) : result (list value) :=
  filterR errorsIsError logs.

(** [log.data?.duration || log.data?.elapsed || log.data?.timing] *)
Definition durationOf (log : value) : value :=
  let d := getField log "data" in
  JS.or (JS.or (optField d "duration") (optField d "elapsed"))
        (optField d "timing").

(** The callback of [analyzeCommand]'s "Performance metrics" filter. *)
Definition analyzeIsPerf (log : value) : bool := truthy (durationOf log).

Definition analyzePerfLogs (logs : list value) : list value :=
  filter analyzeIsPerf logs.

(** The callback of [perfCommand]'s filter. *)
Definition perfIsPerf (log : value) : bool :=
  strictEqStr (getField log "namespace") "performance"
  || truthy (durationOf log).

Definition perfLogs (logs : list value) : list value :=
  filter perfIsPerf logs.

(** [String(n)] for an integer. *)
Definition digitChar (d : Z) : ascii := ascii_of_nat (48 + Z.to_nat d).

Fixpoint digitsOf (fuel : nat) (n : Z) (acc : string) : string :=
  match fuel with
  | O => acc
  | S fuel' =>
      let acc' := String (digitChar (n mod 10)) acc in
      if (n <? 10)%Z then acc' else digitsOf fuel' (n / 10) acc'
  end.

Definition numberToString (n : Z) : string :=
  if (n <? 0)%Z then ("-" ++ digitsOf (S (Z.to_nat (Z.log2 (- n)))) (- n) "")%string
  else digitsOf (S (Z.to_nat (Z.log2 n))) n "".

(** The string a value is converted to, as a property key, by [String(v)]
    or in a template.  An array is the [join] of its items.  An object goes
    by its [toString]: the one of [Object.prototype], unless the object has
    a property of its own under that name, which in the values that
    [JSON.parse] builds or that are modelled here is no function, and the
    conversion throws. *)
Fixpoint toPropertyKey (v : value) : result string :=
  match v with
  | VUndefined => Ok "undefined"
  | VNull => Ok "null"
  | VBool b => Ok (if b then "true" else "false")
  | VNum n | VBigInt n => Ok (numberToString n)
  | VStr s => Ok s
  | VArr items =>
      (fix join (first : bool) (l : list value) : result string :=
         match l with
         | [] => Ok ""
         | x :: rest =>
             bind (match x with
                   | VUndefined | VNull => Ok ""
                   | _ => toPropertyKey x
                   end) (fun item =>
             bind (join false rest) (fun others =>
             Ok ((if first then "" else ",") ++ item ++ others)%string))
         end) true items
  | VObj props =>
      match lookup "toString" props with
      | Some _ => TypeError
      | None => Ok "[object Object]"
      end
  end.

(** The properties every plain object inherits from [Object.prototype]; all
    of them are truthy and none has a [push] method. *)
Definition inheritedKeys : list string :=
  ["constructor"; "__defineGetter__"; "__defineSetter__"; "hasOwnProperty";
   "__lookupGetter__"; "__lookupSetter__"; "isPrototypeOf";
   "propertyIsEnumerable"; "toString"; "valueOf"; "__proto__";
   "toLocaleString"].

Definition inherited (k : string) : bool := existsb (String.eqb k) inheritedKeys.

(** [operations]: an object whose own properties are arrays of durations. *)
Definition operationsT := list (string * list value).

(** The own property [k] of [operations], if there is one. *)
Definition own (k : string) (operations : operationsT) : option (list value) :=
  lookup k operations.

(** [operations[k].push(d)] for an own property [k]. *)
Fixpoint push (operations : operationsT) (k : string) (d : value) : operationsT :=
  match operations with
  | [] => []
  | (k', ds) :: rest =>
      if k' =? k then (k', ds ++ [d]) :: rest else (k', ds) :: push rest k d
  end.

(** The body of [perfLogs.forEach] in [perfCommand]. *)
Definition groupStep (operations : operationsT) (log : value) : result operationsT :=
  bind (toPropertyKey (JS.or (getField log "message") (VStr "Unknown"))) (fun op =>
  let operations1 :=
    match own op operations with
    | Some _ => operations
    | None => if inherited op then operations else operations ++ [(op, [])]
    end in
  let duration := durationOf log in
  if truthy duration then
    match own op operations1 with
    | Some _ => Ok (push operations1 op duration)
    | None => TypeError
    end
  else Ok operations1).

Fixpoint groupOperations (operations : operationsT) (logs : list value)
  : result operationsT :=
  match logs with
  | [] => Ok operations
  | log :: rest => bind (groupStep operations log) (fun o => groupOperations o rest)
  end.

(** The figures printed for one operation.  Average, maximum and minimum are
    [None] when a collected duration is not a number. *)
Record opStats := {
  stat_count : nat;
  stat_avg : option Q;
  stat_max : option Z;
  stat_min : option Z
}.

Fixpoint numbersOf (ds : list value) : option (list Z) :=
  match ds with
  | [] => Some []
  | VNum n :: rest =>
      match numbersOf rest with Some ns => Some (n :: ns) | None => None end
  | _ :: _ => None
  end.

Definition statsOf (durations : list value) : opStats :=
  let ns := numbersOf durations in
  {| stat_count := List.length durations;
     stat_avg :=
       match ns with
       | Some l => Some (fold_left Z.add l 0%Z # Pos.of_nat (List.length l))%Q
       | None => None
       end;
     stat_max :=
       match ns with
       | Some (n :: l) => Some (fold_left Z.max l n)
       | _ => None
       end;
     stat_min :=
       match ns with
       | Some (n :: l) => Some (fold_left Z.min l n)
       | _ => None
       end |}.

(** "Performance by operation": one block per operation that collected a
    duration, listed here in the order the operations were first met (an
    engine lists names that are array indices first; the statements below
    go by operation, not by position). *)
Fixpoint reportOf (operations : operationsT) : list (string * opStats) :=
  match operations with
  | [] => []
  | (op, durations) :: rest =>
      if (0 <? List.length durations)%nat
      then (op, statsOf durations) :: reportOf rest
      else reportOf rest
  end.

(** The sum of [reduce] and [Math.max], [Math.min] convert each duration to
    a primitive, which throws where [String(d)] does, and none of them takes
    a [BigInt] among numbers. *)
Definition numeric (d : value) : bool :=
  match d with
  | VBigInt _ => false
  | _ => match toPropertyKey d with
         | Ok _ => true
         | TypeError => false
         end
  end.

(** [perfCommand]: the number in "Performance Logs (n found)" and the blocks
    of "Performance by operation" ([None]: "No performance metrics found."). *)
Definition perfCommand (logs : list value)
  : result (nat * option (list (string * opStats))) :=
  let matched := perfLogs logs in
  if (List.length matched =? 0)%nat then Ok (0%nat, None)
  else
    bind (groupOperations [] matched) (fun operations =>
    if forallb (fun p => forallb numeric (snd p)) operations
    then Ok (List.length matched, Some (reportOf operations))
    else TypeError).

End Cli.
Import Cli.

(** ** A reference JSON codec

    A printer and a parser for the JSON texts the examples below run on
    (objects, arrays, strings with the short escapes, integers, [true],
    [false], [null]); they stand for [JSON.stringify] and [JSON.parse]
    wherever a property is evaluated on a concrete file.  A number beyond
    the range of a double is [Infinity] to the runtime: the parser reads it
    as [infinity] (or its opposite), and the printer writes [null] for it.
    The printer throws on a [BigInt]. *)

Module RefJSON.

Definition dquote : ascii := ascii_of_nat 34.
Definition backslash : ascii := ascii_of_nat 92.
Definition chr (c : ascii) : string := String c EmptyString.

Fixpoint escape (s : string) : string :=
  match s with
  | EmptyString => EmptyString
  | String c rest =>
      (if Ascii.eqb c dquote then String backslash (chr dquote)
       else if Ascii.eqb c backslash then String backslash (chr backslash)
       else if Ascii.eqb c LF then String backslash "n"
       else if Ascii.eqb c CR then String backslash "r"
       else if Ascii.eqb c (ascii_of_nat 9) then String backslash "t"
       else chr c) ++ escape rest
  end.

Definition quoted (s : string) : string := chr dquote ++ escape s ++ chr dquote.

(** The least integer that a double cannot hold: it rounds to [Infinity],
    and stands for it. *)
Definition infinity : Z := 2 ^ 1024 - 2 ^ 970.

Definition isFinite (n : Z) : bool := (Z.abs n <? infinity)%Z.

Definition toDouble (n : Z) : Z :=
  if isFinite n then n
  else if (n <? 0)%Z then (- infinity)%Z else infinity.

(** Whether [JSON.stringify] can write a value: it throws on a [BigInt],
    wherever it sits. *)
Fixpoint serializable (v : value) : bool :=
  match v with
  | VBigInt _ => false
  | VArr items => forallb serializable items
  | VObj props => forallb (fun p => serializable (snd p)) props
  | _ => true
  end.

(** The text [JSON.stringify] writes for a value that it can write. *)
Fixpoint print (v : value) : string :=
  match v with
  | VUndefined | VNull => "null"
  | VBool b => if b then "true" else "false"
  | VNum n => if isFinite n then numberToString n else "null"
  | VBigInt n => numberToString n
  | VStr s => quoted s
  | VArr items =>
      ("[" ++
       (fix go (first : bool) (l : list value) : string :=
          match l with
          | [] => ""
          | x :: rest =>
              (if first then "" else ",") ++ print x ++ go false rest
          end) true items
       ++ "]")%string
  | VObj props =>
      ("{" ++
       (fix go (first : bool) (l : list (string * value)) : string :=
          match l with
          | [] => ""
          | (k, x) :: rest =>
              match x with
              | VUndefined => go first rest
              | _ => (if first then "" else ",")
                     ++ quoted k ++ ":" ++ print x ++ go false rest
              end
          end) true props
       ++ "}")%string
  end.

Definition stringify (v : value) : option string :=
  if serializable v then Some (print v) else None.

Definition isSpace (c : ascii) : bool :=
  Ascii.eqb c " " || Ascii.eqb c LF || Ascii.eqb c CR
  || Ascii.eqb c (ascii_of_nat 9).

Fixpoint skipSpace (s : string) : string :=
  match s with
  | String c rest => if isSpace c then skipSpace rest else s
  | EmptyString => s
  end.

(** The text of a string literal after its opening quote. *)
Fixpoint parseChars (s : string) (acc : string) : option (string * string) :=
  match s with
  | EmptyString => None
  | String c rest =>
      if Ascii.eqb c dquote then Some (acc, rest)
      else if Ascii.eqb c backslash then
        match rest with
        | String e rest' =>
            let put x := parseChars rest' (acc ++ chr x) in
            if Ascii.eqb e "n" then put LF
            else if Ascii.eqb e "r" then put CR
            else if Ascii.eqb e "t" then put (ascii_of_nat 9)
            else if Ascii.eqb e dquote then put dquote
            else if Ascii.eqb e backslash then put backslash
            else if Ascii.eqb e "/" then put "/"%char
            else None
        | EmptyString => None
        end
      else if (nat_of_ascii c <? 32)%nat then None
      else parseChars rest (acc ++ chr c)
  end.

Definition isDigit (c : ascii) : bool :=
  ((48 <=? nat_of_ascii c) && (nat_of_ascii c <=? 57))%nat.

Fixpoint parseDigits (s : string) (acc : Z) : Z * string :=
  match s with
  | String c rest =>
      if isDigit c
      then parseDigits rest (10 * acc + Z.of_nat (nat_of_ascii c - 48))
      else (acc, s)
  | EmptyString => (acc, s)
  end.

Definition parseNumber (s : string) : option (Z * string) :=
  match s with
  | String c rest =>
      if Ascii.eqb c "-" then
        match rest with
        | String d _ =>
            if isDigit d then
              let (n, rest') := parseDigits rest 0 in Some ((- n)%Z, rest')
            else None
        | EmptyString => None
        end
      else if isDigit c then Some (parseDigits s 0)
      else None
  | EmptyString => None
  end.

Definition expect (p : string) (s : string) : option string :=
  if isPrefix p s then Some (substring (String.length p)
                                     (String.length s - String.length p) s)
  else None.

Fixpoint parseValue (fuel : nat) (s : string) : option (value * string) :=
  match fuel with
  | O => None
  | S fuel' =>
      let parseItems :=
        fix items (n : nat) (acc : list value) (s : string)
          : option (value * string) :=
          match n with
          | O => None
          | S n' =>
              match parseValue fuel' s with
              | Some (v, rest) =>
                  match skipSpace rest with
                  | String c rest' =>
                      if Ascii.eqb c "," then items n' (acc ++ [v]) rest'
                      else if Ascii.eqb c "]" then Some (VArr (acc ++ [v]), rest')
                      else None
                  | EmptyString => None
                  end
              | None => None
              end
          end in
      let parseProps :=
        fix props (n : nat) (acc : list (string * value)) (s : string)
          : option (value * string) :=
          match n with
          | O => None
          | S n' =>
              match skipSpace s with
              | String q rest =>
                  if Ascii.eqb q dquote then
                    match parseChars rest "" with
                    | Some (k, rest1) =>
                        match skipSpace rest1 with
                        | String c rest2 =>
                            if Ascii.eqb c ":" then
                              match parseValue fuel' rest2 with
                              | Some (v, rest3) =>
                                  match skipSpace rest3 with
                                  | String c' rest4 =>
                                      if Ascii.eqb c' ","
                                      then props n' (setProp acc k v) rest4
                                      else if Ascii.eqb c' "}"
                                      then Some (VObj (setProp acc k v), rest4)
                                      else None
                                  | EmptyString => None
                                  end
                              | None => None
                              end
                            else None
                        | EmptyString => None
                        end
                    | None => None
                    end
                  else None
              | EmptyString => None
              end
          end in
      match skipSpace s with
      | EmptyString => None
      | String c rest =>
          if Ascii.eqb c "{" then
            match skipSpace rest with
            | String c' rest' =>
                if Ascii.eqb c' "}" then Some (VObj [], rest')
                else parseProps fuel' [] rest
            | EmptyString => None
            end
          else if Ascii.eqb c "[" then
            match skipSpace rest with
            | String c' rest' =>
                if Ascii.eqb c' "]" then Some (VArr [], rest')
                else parseItems fuel' [] rest
            | EmptyString => None
            end
          else if Ascii.eqb c dquote then
            match parseChars rest "" with
            | Some (str, rest') => Some (VStr str, rest')
            | None => None
            end
          else if Ascii.eqb c "t" then
            option_map (fun r => (VBool true, r)) (expect "true" (String c rest))
          else if Ascii.eqb c "f" then
            option_map (fun r => (VBool false, r)) (expect "false" (String c rest))
          else if Ascii.eqb c "n" then
            option_map (fun r => (VNull, r)) (expect "null" (String c rest))
          else
            match parseNumber (String c rest) with
            | Some (n, rest') => Some (VNum (toDouble n), rest')
            | None => None
            end
      end
  end.

Definition parse (s : string) : option value :=
  match parseValue (S (String.length s)) s with
  | Some (v, rest) =>
      match skipSpace rest with
      | EmptyString => Some v
      | String _ _ => None
      end
  | None => None
  end.

End RefJSON.

Import RefJSON.

(** ** Vocabulary of the statements *)

(** The chunk [flush] writes for one buffered entry, if [JSON.stringify]
    does not throw on it. *)
Definition lineOf (JSON_stringify : value -> option string) (e : DebugFileEntry)
  : option string :=
  serialize JSON_stringify (entryValue e).

(** The chunks of a list of entries, one each, if [JSON.stringify] throws
    on none of them. *)
Fixpoint linesOf (JSON_stringify : value -> option string)
    (entries : list DebugFileEntry) : option (list string) :=
  match entries with
  | [] => Some []
  | e :: rest =>
      match lineOf JSON_stringify e, linesOf JSON_stringify rest with
      | Some line, Some lines => Some (line :: lines)
      | _, _ => None
      end
  end.

(** The chunks of the entries that come before the first one on which
    [JSON.stringify] throws. *)
Fixpoint linesBefore (JSON_stringify : value -> option string)
    (entries : list DebugFileEntry) : list string :=
  match entries with
  | [] => []
  | e :: rest =>
      match lineOf JSON_stringify e with
      | Some line => line :: linesBefore JSON_stringify rest
      | None => []
      end
  end.

(** The [write] calls of a list of calls that a writer in mode [m] accepts. *)
Definition accepted (m : FileMode) (c : call) : bool :=
  match c with
  | Write _ ns _ d => shouldWrite m ns d
  | _ => false
  end.

Definition isDestroy (c : call) : bool :=
  match c with Destroy => true | _ => false end.

(** The entries built by the accepted [write] calls of [calls], for a writer
    in mode [m] whose current request id is [requestId]. *)
Fixpoint acceptedEntries (m : FileMode) (requestId : option string)
    (calls : list call) : list DebugFileEntry :=
  match calls with
  | [] => []
  | Write now ns msg d :: rest =>
      if shouldWrite m ns d
      then buildEntry m requestId now ns msg d :: acceptedEntries m requestId rest
      else acceptedEntries m requestId rest
  | SetRequestId id :: rest => acceptedEntries m id rest
  | _ :: rest => acceptedEntries m requestId rest
  end.

(** What the stream received so far ([[]] for a [null] stream). *)
Definition persisted (w : DebugFileWriter) : list string :=
  match fileStream w with
  | Some written => written
  | None => []
  end.

(** One turn of the loop of [truncate] over an object's entries, before the
    counter has passed 10: [truncated[key] = truncate(value, ...)]. *)
Definition copyProp (trunc : value -> value)
    (truncated : list (string * value)) (p : string * value) :=
  assign truncated (fst p) (trunc (snd p)).

(** A payload of 15 properties, [k01] to [k15]. *)
Definition sample15 : list (string * value) :=
  [("k01", VNum 1); ("k02", VNum 2); ("k03", VNum 3); ("k04", VNum 4);
   ("k05", VNum 5); ("k06", VNum 6); ("k07", VNum 7); ("k08", VNum 8);
   ("k09", VNum 9); ("k10", VNum 10); ("k11", VNum 11); ("k12", VNum 12);
   ("k13", VNum 13); ("k14", VNum 14); ("k15", VNum 15)].

(** The same payload with no value under its third key. *)
Definition sample15gap : list (string * value) :=
  [("k01", VNum 1); ("k02", VNum 2); ("k03", VUndefined); ("k04", VNum 4);
   ("k05", VNum 5); ("k06", VNum 6); ("k07", VNum 7); ("k08", VNum 8);
   ("k09", VNum 9); ("k10", VNum 10); ("k11", VNum 11); ("k12", VNum 12);
   ("k13", VNum 13); ("k14", VNum 14); ("k15", VNum 15)].

(** The keys of an object, in enumeration order. *)
Definition keys {A : Type} (props : list (string * A)) : list string :=
  map fst props.

(** What [JSON.stringify] writes of an object, and so what is persisted of
    it: the properties whose value is not [undefined], in enumeration
    order. *)
Definition writtenProps (props : list (string * value)) : list (string * value) :=
  filter (fun p => negb (isUndefined (snd p))) props.

(** The properties found under [data] when the line written for an entry is
    read back. *)
Definition readBackData (e : DebugFileEntry) : option (list (string * value)) :=
  match lineOf RefJSON.stringify e with
  | Some line =>
      match RefJSON.parse line with
      | Some entry =>
          match getField entry "data" with
          | VObj props => Some props
          | _ => None
          end
      | None => None
      end
  | None => None
  end.

(** A line as the specification describes a candidate: its first character
    that is not white space is an opening brace. *)
Definition firstNonSpaceIsBrace (line : string) : bool :=
  startsWith "{" (skipSpace line).

(** The entry a line contributes to [readLogFile], if any. *)
Definition entryOfLine (JSON_parse : string -> option value) (line : string)
  : list value :=
  if startsWith "{" line then
    match JSON_parse line with
    | Some v => [v]
    | None => []
    end
  else [].




(** An entry as the writer serializes it, and the same text indented. *)
Definition plainEntry : value :=
  VObj [("timestamp", VStr "2024-01-01T00:00:00.000Z");
        ("namespace", VStr "api"); ("message", VStr "Request failed")].

Definition indentedLine : string := "  " ++ RefJSON.print plainEntry.





(** An entry on which a predicate answers [true] without throwing. *)
Definition holds (p : value -> result bool) (log : value) : bool :=
  match p log with
  | Ok true => true
  | _ => false
  end.

(** [log.message] is a string, or there is none. *)
Definition messageIsText (log : value) : bool :=
  match getField log "message" with
  | VUndefined | VNull | VStr _ => true
  | _ => false
  end.

(** Entries of a parsed log. *)
Definition logEntry (ns msg : string) (payload : list (string * value)) : value :=
  VObj ([("timestamp", VStr "2024-01-01T00:00:00.000Z");
         ("namespace", VStr ns); ("message", VStr msg)]
        ++ match payload with
           | [] => []
           | _ => [("data", VObj payload)]
           end).

(** A parsed log for the performance view: an entry with a duration, one in
    namespace ["performance"] without any timing field, one with an elapsed
    time under the same message, and an operation that never reports a
    time. *)
Definition perfBefore : list value :=
  [logEntry "api" "op" [("duration", VNum 10)]].

Definition perfBare : value := logEntry "performance" "op" [].

Definition perfAfter : list value :=
  [logEntry "api" "op" [("elapsed", VNum 30)];
   logEntry "performance" "idle" []].

(** A writer whose file could not be opened, and calls made on it. *)
Definition closedWriter : DebugFileWriter :=
  constructor {| cfg_path := None; cfg_mode := None;
                 cfg_maxBufferSize := Some 2%Z |}
              false "2024-01-01T00:00:00.000Z".

Definition sampleCalls : list call :=
  [Write "t1" "performance" "op1" (VObj [("duration", VNum 10)]);
   Flush; Tick;
   Write "t2" "debug" "x" VUndefined;
   SetRequestId (Some "req-1");
   Write "t3" "timing" "op2" (VObj [("elapsed", VNum 5); ("path", VStr "/")]);
   Destroy;
   Write "t4" "api" "op3" (VObj [("duration", VNum 20)])].

(** An open writer holding two entries below its threshold. *)
Definition openWriter : DebugFileWriter :=
  FileWriter.run RefJSON.stringify
    (constructor {| cfg_path := None; cfg_mode := Some Full;
                    cfg_maxBufferSize := None |}
                 true "2024-01-01T00:00:00.000Z")
    [Write "t1" "api" "first" VUndefined;
     Write "t2" "api" "second" (VObj [("n", VNum 1)])].

(** An open writer in mode [full] holding two entries, the second with a
    [BigInt] in its payload. *)
Definition blockedWriter : DebugFileWriter :=
  FileWriter.run RefJSON.stringify
    (constructor {| cfg_path := None; cfg_mode := Some Full;
                    cfg_maxBufferSize := None |}
                 true "2024-01-01T00:00:00.000Z")
    [Write "t1" "api" "first" (VObj [("n", VNum 1)]);
     Write "t2" "api" "second" (VObj [("id", VBigInt 10)])].

(** What [operations] holds at any time: distinct keys, none of them one
    that [Object.prototype] defines. *)
Definition wellKeyed (operations : operationsT) : Prop :=
  NoDup (keys operations)
  /\ forall k, inherited k = true -> own k operations = None.

(** The operation an entry is grouped under by [perfCommand]. *)
Definition opOf (log : value) : result string :=
  toPropertyKey (JS.or (getField log "message") (VStr "Unknown")).

(** [r] is the string [k]. *)
Definition isKey (r : result string) (k : string) : bool :=
  match r with
  | Ok k' => k' =? k
  | TypeError => false
  end.

(** The durations [perfCommand] collects for operation [op], in order. *)
Definition durationsFor (op : string) (logs : list value) : list value :=
  flat_map
    (fun log =>
       if isKey (opOf log) op && truthy (durationOf log)
       then [durationOf log] else [])
    logs.

(** ** Vocabulary of the further statements *)

(** A value within what [truncate] lets through with [levels] levels left:
    containers nested at most [levels] deep, arrays of at most 5 items,
    objects of at most 12 properties, strings of at most 214 characters. *)
Fixpoint bounded (levels : nat) (v : value) {struct levels} : bool :=
  match v with
  | VStr s => (String.length s <=? 214)%nat
  | VArr items =>
      match levels with
      | O => false
      | S n => (List.length items <=? 5)%nat && forallb (bounded n) items
      end
  | VObj props =>
      match levels with
      | O => false
      | S n => (List.length props <=? 12)%nat
               && forallb (fun p => bounded n (snd p)) props
      end
  | _ => true
  end.

Fixpoint distinct (ks : list string) : bool :=
  match ks with
  | [] => true
  | k :: rest => negb (existsb (String.eqb k) rest) && distinct rest
  end.

(** A value that [truncate] has nothing to cut from with [levels] levels
    left: every value sits above the last level, arrays have at most 5 items,
    objects at most 11 properties with distinct keys other than
    ["__proto__"], strings at most 200 characters. *)
Fixpoint fits (levels : nat) (v : value) {struct levels} : bool :=
  match levels with
  | O => false
  | S n =>
      match v with
      | VStr s => (String.length s <=? 200)%nat
      | VArr items => (List.length items <=? 5)%nat && forallb (fits n) items
      | VObj props =>
          (List.length props <=? 11)%nat
          && distinct (map fst props)
          && negb (existsb (String.eqb "__proto__") (map fst props))
          && forallb (fun p => fits n (snd p)) props
      | _ => true
      end
  end.

(** A request as an application logs it. *)
Definition requestPayload : value :=
  VObj [("method", VStr "GET"); ("path", VStr "/users"); ("duration", VNum 45);
        ("status", VNum 200);
        ("headers", VObj [("accept", VStr "text/html")]);
        ("tags", VArr [VStr "users"; VNull; VBool true])].

(** An open writer with threshold 3, and seven calls it accepts. *)
Definition thresholdWriter : DebugFileWriter :=
  constructor {| cfg_path := None; cfg_mode := Some Full;
                 cfg_maxBufferSize := Some 3%Z |}
              true "2024-01-01T00:00:00.000Z".

Definition sevenWrites : list call :=
  repeat (Write "2024-01-01T00:00:01.000Z" "api" "tick" VUndefined) 7.

(** ** The tracer ([DebugTracer], [src/index.ts]) *)

Module Tracer.

(** The white space that [String.prototype.trim] removes, among the
    characters below U+0100: tab, line feed, vertical tab, form feed,
    carriage return, space and the no-break space U+00A0. *)
Definition isWhite (c : ascii) : bool :=
  let n := nat_of_ascii c in
  ((9 <=? n) && (n <=? 13))%nat || (n =? 32)%nat || (n =? 160)%nat.

Fixpoint trimStart (s : string) : string :=
  match s with
  | String c rest => if isWhite c then trimStart rest else s
  | EmptyString => s
  end.

Fixpoint trimEnd (s : string) : string :=
  match s with
  | EmptyString => EmptyString
  | String c rest =>
      match trimEnd rest with
      | EmptyString => if isWhite c then EmptyString else String c EmptyString
      | kept => String c kept
      end
  end.

Definition trim (s : string) : string := trimEnd (trimStart s).

(** [s.split(',')]; [cur] is the piece read so far. *)
Fixpoint splitComma (cur : string) (s : string) : list string :=
  match s with
  | EmptyString => [cur]
  | String c rest =>
      if Ascii.eqb c "," then cur :: splitComma "" rest
      else splitComma (cur ++ String c EmptyString) rest
  end.

(** [parseEnvConfig]: [enabled], and [namespaces] when the variable lists
    some. *)
Definition parseEnvConfig (envDebug : string) : bool * option (list string) :=
  if (envDebug =? "") || (envDebug =? "false") then (false, None)
  else if (envDebug =? "true") || (envDebug =? "*") || (envDebug =? "1")
  then (true, None)
  else (true,
        Some (filter (fun s => negb (s =? ""))
                     (map trim (splitComma "" envDebug)))).

Record DebugConfig := {
  cfg_enabled : option bool;
  cfg_namespaces : option (list string)
}.

(** [enabledNamespaces] is a [Set]: its members in insertion order. *)
Record DebugTracer := {
  enabledNamespaces : list string;
  globalEnabled : bool;
  fileWriter : option DebugFileWriter
}.

Definition setAdd (members : list string) (x : string) : list string :=
  if existsb (String.eqb x) members then members else members ++ [x].

Definition setDelete (members : list string) (x : string) : list string :=
  filter (fun y => negb (y =? x)) members.

(** The constructor, given the value of [DEBUG] and the file writer it
    creates, if it creates one. *)
Definition constructor (config : option DebugConfig) (envDebug : string)
    (writer : option DebugFileWriter) : DebugTracer :=
  let envConfig := parseEnvConfig envDebug in
  let enabled :=
    match config with
    | Some c => match cfg_enabled c with Some b => b | None => fst envConfig end
    | None => fst envConfig
    end in
  let listed :=
    match config with
    | Some c => cfg_namespaces c
    | None => None
    end in
  let names :=
    match listed with
    | Some l => l
    | None => match snd envConfig with Some l => l | None => [] end
    end in
  {| enabledNamespaces := fold_left setAdd names [];
     globalEnabled := enabled;
     fileWriter := writer |}.

Definition shouldLog (t : DebugTracer) (namespace : string) : bool :=
  if negb (globalEnabled t) then false
  else if (List.length (enabledNamespaces t) =? 0)%nat then true
  else existsb (String.eqb namespace) (enabledNamespaces t).

(** [enable(namespace?)]: a missing or empty argument enables everything. *)
Definition enable (t : DebugTracer) (namespace : option string) : DebugTracer :=
  match namespace with
  | Some ns =>
      if ns =? "" then
        {| enabledNamespaces := []; globalEnabled := true;
           fileWriter := fileWriter t |}
      else
        {| enabledNamespaces := setAdd (enabledNamespaces t) ns;
           globalEnabled := globalEnabled t; fileWriter := fileWriter t |}
  | None =>
      {| enabledNamespaces := []; globalEnabled := true;
         fileWriter := fileWriter t |}
  end.

Definition disable (t : DebugTracer) (namespace : option string) : DebugTracer :=
  match namespace with
  | Some ns =>
      if ns =? "" then
        {| enabledNamespaces := enabledNamespaces t; globalEnabled := false;
           fileWriter := fileWriter t |}
      else
        {| enabledNamespaces := setDelete (enabledNamespaces t) ns;
           globalEnabled := globalEnabled t; fileWriter := fileWriter t |}
  | None =>
      {| enabledNamespaces := enabledNamespaces t; globalEnabled := false;
         fileWriter := fileWriter t |}
  end.

(** The message and the payload [log] hands to the file writer;
    [String(args[0])] can throw. *)
Definition messageOf (args : list value) : result string :=
  match args with
  | VStr s :: _ => Ok s
  | v :: _ => toPropertyKey v
  | [] => toPropertyKey VUndefined
  end.

Definition dataOf (args : list value) : value :=
  match args with
  | [] | [_] => VUndefined
  | [_; d] => d
  | _ :: rest => VArr rest
  end.

Section Logging.

Variable JSON_stringify : value -> option string.

Definition withWriter (t : DebugTracer) (f : DebugFileWriter -> DebugFileWriter)
  : DebugTracer :=
  {| enabledNamespaces := enabledNamespaces t; globalEnabled := globalEnabled t;
     fileWriter := option_map f (fileWriter t) |}.

(** [log]: the message is only computed when there is a file writer. *)
Definition log (t : DebugTracer) (now : string) (namespace : string)
    (args : list value) : result DebugTracer :=
  if negb (shouldLog t namespace) then Ok t
  else
    match fileWriter t with
    | Some _ =>
        bind (messageOf args) (fun message =>
        Ok (withWriter t (fun w =>
              FileWriter.write JSON_stringify w now namespace message
                               (dataOf args))))
    | None => Ok t
    end.

Definition setRequestId (t : DebugTracer) (requestId : option string) :=
  withWriter t (fun w => FileWriter.setRequestId w requestId).

Definition flush (t : DebugTracer) := withWriter t (FileWriter.flush JSON_stringify).

Definition destroy (t : DebugTracer) := withWriter t (FileWriter.destroy JSON_stringify).

Inductive call :=
| Log (now namespace : string) (args : list value)
| Enable (namespace : option string)
| Disable (namespace : option string)
| SetRequestId (requestId : option string)
| Flush
| Destroy.

(** One call; a call that throws leaves the tracer as it was. *)
Definition step (t : DebugTracer) (c : call) : DebugTracer :=
  match c with
  | Log now ns args =>
      match log t now ns args with
      | Ok t' => t'
      | TypeError => t
      end
  | Enable ns => enable t ns
  | Disable ns => disable t ns
  | SetRequestId id => setRequestId t id
  | Flush => flush t
  | Destroy => destroy t
  end.

Definition run (t : DebugTracer) (calls : list call) : DebugTracer :=
  fold_left step calls t.

End Logging.

End Tracer.

(** A call that can switch logging back on after [disable()]: [enable()]
    without a namespace. *)
Definition enablesAll (c : Tracer.call) : bool :=
  match c with
  | Tracer.Enable None => true
  | Tracer.Enable (Some ns) => ns =? ""
  | _ => false
  end.

(** A call made through the tracer's logging interface. *)
Definition isGating (c : Tracer.call) : bool :=
  match c with
  | Tracer.Log _ _ _ | Tracer.Enable _ | Tracer.Disable _ => true
  | _ => false
  end.

(** [disable(ns)] for each namespace of a list, in order. *)
Definition disableEach (t : Tracer.DebugTracer) (names : list string)
  : Tracer.DebugTracer :=
  fold_left (fun t ns => Tracer.disable t (Some ns)) names t.

(** A tracer on a [minimal] writer, listing two namespaces. *)
Definition sampleTracer : Tracer.DebugTracer :=
  Tracer.constructor
    (Some {| Tracer.cfg_enabled := Some true;
             Tracer.cfg_namespaces := Some ["api"; "performance"] |})
    ""
    (Some (FileWriter.constructor
             {| cfg_path := None; cfg_mode := None; cfg_maxBufferSize := None |}
             true "2024-01-01T00:00:00.000Z")).

(** A tracer whose configuration lists the empty namespace beside [api]. *)
Definition namelessTracer : Tracer.DebugTracer :=
  Tracer.constructor
    (Some {| Tracer.cfg_enabled := Some true;
             Tracer.cfg_namespaces := Some [""; "api"] |})
    "" None.

(** Text made of commas and white space only. *)
Fixpoint blankList (s : string) : bool :=
  match s with
  | EmptyString => true
  | String c rest => (Ascii.eqb c "," || Tracer.isWhite c) && blankList rest
  end.

Fixpoint allWhite (s : string) : bool :=
  match s with
  | EmptyString => true
  | String c rest => Tracer.isWhite c && allWhite rest
  end.

(** Text without a comma. *)
Fixpoint commaFree (s : string) : bool :=
  match s with
  | EmptyString => true
  | String c rest => negb (Ascii.eqb c ",") && commaFree rest
  end.

(** Text that neither begins nor ends with white space. *)
Definition startsWhite (s : string) : bool :=
  match s with
  | String c _ => Tracer.isWhite c
  | EmptyString => false
  end.

Fixpoint endsWhite (s : string) : bool :=
  match s with
  | EmptyString => false
  | String c EmptyString => Tracer.isWhite c
  | String _ rest => endsWhite rest
  end.

Definition trimmed (s : string) : bool :=
  negb (startsWhite s) && negb (endsWhite s).

(** [core] is [piece] without the white space around it. *)
Definition coreOf (piece core : string) : Prop :=
  exists before after,
    piece = (before ++ core ++ after)%string
    /\ allWhite before = true /\ allWhite after = true
    /\ trimmed core = true.

(** ** The other commands of the CLI *)

Module Commands.

(** [l.slice(0, end)]; [None] is an [end] of [NaN]. *)
Definition sliceTo {A : Type} (l : list A) (e : option Z) : list A :=
  match e with
  | None => []
  | Some n =>
      if (n <? 0)%Z then firstn (List.length l - Z.to_nat (- n)) l
      else firstn (Z.to_nat n) l
  end.

(** [l.slice(-n)] for a positive [n]. *)
Definition sliceLast {A : Type} (l : list A) (n : nat) : list A :=
  skipn (List.length l - n) l.

(** [tailCommand]: the entries it prints. *)
Definition tailCommand (logs : list value) : list value := sliceLast logs 50.

Fixpoint indexOf (x : string) (l : list string) : option nat :=
  match l with
  | [] => None
  | y :: rest =>
      if y =? x then Some 0%nat else option_map S (indexOf x rest)
  end.

(** The argument after [flag], when [flag] is among the arguments and is
    followed by a non-empty one. *)
Definition argAfter (args : list string) (flag : string) : option string :=
  match indexOf flag args with
  | Some i =>
      match nth_error args (S i) with
      | Some a => if a =? "" then None else Some a
      | None => None
      end
  | None => None
  end.

Section Filter.

(** The time value of [new Date(v)], [None] for an invalid date, and
    [parseInt], [None] for [NaN]. *)
Variable Date_new : value -> option Z.
Variable parseInt : string -> option Z.

(** [a > b] on dates. *)
Definition laterThan (a b : option Z) : bool :=
  match a, b with
  | Some x, Some y => (y <? x)%Z
  | _, _ => false
  end.

(** [filterCommand]: the entries left by the three filters. *)
Definition filterMatches (args : list string) (logs : list value) : list value :=
  let filtered := logs in
  let filtered :=
    match argAfter args "--namespace" with
    | Some ns =>
        filter (fun log => strictEqStr (getField log "namespace") ns) filtered
    | None => filtered
    end in
  let filtered :=
    match argAfter args "--after" with
    | Some a =>
        filter (fun log =>
                  laterThan (Date_new (getField log "timestamp"))
                            (Date_new (VStr a)))
               filtered
    | None => filtered
    end in
  match argAfter args "--before" with
  | Some b =>
      filter (fun log =>
                laterThan (Date_new (VStr b))
                          (Date_new (getField log "timestamp")))
             filtered
  | None => filtered
  end.

Definition limitOf (args : list string) : option Z :=
  match argAfter args "--limit" with
  | Some l => parseInt l
  | None => Some 50%Z
  end.

(** [filterCommand]: the entries it prints. *)
Definition filterCommand (args : list string) (logs : list value) : list value :=
  sliceTo (filterMatches args logs) (limitOf args).

End Filter.

(** [l.sort((a, b) => key(b) - key(a))] for numeric keys: the sort is
    stable, so it is the insertion of each element, from the last to the
    first, before the elements that do not exceed it. *)
Fixpoint insertDesc {A : Type} (key : A -> Z) (x : A) (sorted : list A) : list A :=
  match sorted with
  | [] => [x]
  | y :: rest =>
      if (key x <? key y)%Z then y :: insertDesc key x rest
      else x :: sorted
  end.

Definition sortDesc {A : Type} (key : A -> Z) (l : list A) : list A :=
  fold_right (insertDesc key) [] l.

(** A property that holds a count: a number, or the text that [+ 1] makes
    of a value inherited from [Object.prototype]. *)
Inductive tally :=
| Count (n : Z)
| Text.

(** [counts[k] = (counts[k] || 0) + 1] *)
Definition tallyStep (counts : list (string * tally)) (k : string)
  : list (string * tally) :=
  match lookup k counts with
  | Some (Count n) =>
      map (fun p => if fst p =? k then (fst p, Count (n + 1)) else p) counts
  | Some Text => counts
  | None =>
      if k =? "__proto__" then counts
      else if inherited k then counts ++ [(k, Text)]
      else counts ++ [(k, Count 1)]
  end.

Definition tallyOf (ks : list string) : list (string * tally) :=
  fold_left tallyStep ks [].

(** The number a key stands for when it is an array index: the decimal
    writing, without leading zero, of an integer up to 4294967294. *)
Fixpoint digitsValue (s : string) (acc : Z) : option Z :=
  match s with
  | EmptyString => Some acc
  | String c rest =>
      let n := nat_of_ascii c in
      if ((48 <=? n) && (n <=? 57))%nat
      then digitsValue rest (10 * acc + Z.of_nat (n - 48))
      else None
  end.

Definition arrayIndex (k : string) : option Z :=
  match k with
  | EmptyString => None
  | _ =>
      match digitsValue k 0 with
      | Some n =>
          if (numberToString n =? k) && (n <=? 4294967294)%Z then Some n else None
      | None => None
      end
  end.

Fixpoint insertAsc {A : Type} (key : A -> Z) (x : A) (sorted : list A) : list A :=
  match sorted with
  | [] => [x]
  | y :: rest =>
      if (key y <? key x)%Z then y :: insertAsc key x rest
      else x :: sorted
  end.

(** [Object.entries(o)]: the array indices in ascending order, then the
    other keys in creation order. *)
Definition objectEntries {A : Type} (props : list (string * A)) : list (string * A) :=
  fold_right
    (insertAsc (fun p => match arrayIndex (fst p) with Some n => n | None => 0%Z end))
    []
    (filter (fun p => match arrayIndex (fst p) with Some _ => true | None => false end)
            props)
  ++ filter (fun p => match arrayIndex (fst p) with Some _ => false | None => true end)
            props.

Fixpoint countsOf (entries : list (string * tally)) : option (list (string * Z)) :=
  match entries with
  | [] => Some []
  | (k, Count n) :: rest =>
      match countsOf rest with
      | Some l => Some ((k, n) :: l)
      | None => None
      end
  | (_, Text) :: _ => None
  end.

(** [Object.entries(counts).sort((a, b) => b[1] - a[1])]; [None] when a
    property holds a text, for which the comparison yields [NaN] and the
    order is left to the engine. *)
Definition ranking (counts : list (string * tally)) : option (list (string * Z)) :=
  match countsOf (objectEntries counts) with
  | Some entries => Some (sortDesc snd entries)
  | None => None
  end.

(** The keys of the entries of a [forEach], in order; the loop ends with
    the first conversion that throws. *)
Fixpoint keysOf (key : value -> result string) (logs : list value)
  : result (list string) :=
  match logs with
  | [] => Ok []
  | log :: rest =>
      bind (key log) (fun k =>
      bind (keysOf key rest) (fun ks => Ok (k :: ks)))
  end.

(** The namespace counts of [analyzeCommand] and [statsCommand]. *)
Definition namespaceCounts (logs : list value) : result (list (string * tally)) :=
  bind (keysOf (fun log => toPropertyKey (getField log "namespace")) logs)
       (fun ks => Ok (tallyOf ks)).

(** The namespaces by count, as both commands list them. *)
Definition namespaceRanking (logs : list value)
  : result (option (list (string * Z))) :=
  bind (namespaceCounts logs) (fun counts => Ok (ranking counts)).

(** "Top namespaces" of [statsCommand]. *)
Definition topNamespaces (logs : list value)
  : result (option (list (string * Z))) :=
  bind (namespaceRanking logs) (fun ranked => Ok (option_map (firstn 10) ranked)).

(** Membership in a [Set]: primitives by value, objects by identity, and
    two parsed objects are never the same object. *)
Definition sameValueZero (a b : value) : bool :=
  match a, b with
  | VUndefined, VUndefined => true
  | VNull, VNull => true
  | VBool x, VBool y => Bool.eqb x y
  | VNum x, VNum y => (x =? y)%Z
  | VBigInt x, VBigInt y => (x =? y)%Z
  | VStr x, VStr y => x =? y
  | _, _ => false
  end.

Definition setAddValue (members : list value) (v : value) : list value :=
  if existsb (sameValueZero v) members then members else members ++ [v].

(** The [requestIds] set of [statsCommand]. *)
Definition requestIds (logs : list value) : list value :=
  fold_left
    (fun ids log =>
       let id := optField (getField log "metadata") "requestId" in
       if truthy id then setAddValue ids id else ids)
    logs [].

(** The key a message is counted under:
    [`${log.namespace}:${log.message.substring(0, 50)}`]. *)
Definition messageKey (log : value) : result string :=
  bind (toPropertyKey (getField log "namespace")) (fun ns =>
  match getField log "message" with
  | VStr s => Ok (ns ++ ":" ++ substring 0 50 s)%string
  | _ => TypeError
  end).

Fixpoint messageKeys (logs : list value) : result (list string) :=
  match logs with
  | [] => Ok []
  | log :: rest =>
      bind (messageKey log) (fun k =>
      bind (messageKeys rest) (fun ks => Ok (k :: ks)))
  end.

Record stats := {
  stats_total : nat;
  stats_namespaces : option (list (string * Z));
  stats_requestIds : nat;
  stats_messages : option (list (string * Z))
}.

(** [statsCommand]: the figures it prints. *)
Definition statsCommand (logs : list value) : result stats :=
  bind (topNamespaces logs) (fun namespaces =>
  let ids := requestIds logs in
  bind (messageKeys logs) (fun ks =>
  Ok {| stats_total := List.length logs;
        stats_namespaces := namespaces;
        stats_requestIds := List.length ids;
        stats_messages := option_map (firstn 5) (ranking (tallyOf ks)) |})).

(** "Slowest operations" of [perfCommand]: the matches with a truthy
    [duration], by decreasing duration, the first five; [None] when a
    duration is not a number. *)
Definition durationNumber (log : value) : option Z :=
  match optField (getField log "data") "duration" with
  | VNum n => Some n
  | _ => None
  end.

Definition slowest (logs : list value) : option (list value) :=
  let timed :=
    filter (fun log => truthy (optField (getField log "data") "duration"))
           (perfLogs logs) in
  if forallb (fun log => match durationNumber log with
                         | Some _ => true
                         | None => false
                         end) timed
  then Some (firstn 5 (sortDesc
                         (fun log => match durationNumber log with
                                     | Some n => n
                                     | None => 0%Z
                                     end)
                         timed))
  else None.

End Commands.

(** The test an entry passes in [filterCommand], all options together. *)
Definition passes (Date_new : value -> option Z) (args : list string)
    (log : value) : bool :=
  match Commands.argAfter args "--namespace" with
  | Some ns => strictEqStr (getField log "namespace") ns
  | None => true
  end
  && match Commands.argAfter args "--after" with
     | Some a =>
         Commands.laterThan (Date_new (getField log "timestamp"))
                            (Date_new (VStr a))
     | None => true
     end
  && match Commands.argAfter args "--before" with
     | Some b =>
         Commands.laterThan (Date_new (VStr b))
                            (Date_new (getField log "timestamp"))
     | None => true
     end.

(** Reference readings of a time stamp and of a number, for concrete runs:
    the time value of a number is the number, and a limit is read as a
    decimal integer. *)
Definition refDate (v : value) : option Z :=
  match v with
  | VNum n => Some n
  | VStr s => match RefJSON.parseNumber s with
              | Some (n, EmptyString) => Some n
              | _ => None
              end
  | _ => None
  end.

Definition refParseInt (s : string) : option Z :=
  option_map fst (RefJSON.parseNumber s).

(** Entries stamped 1 to 4. *)
Definition stampedLogs : list value :=
  [VObj [("timestamp", VNum 1); ("namespace", VStr "api"); ("message", VStr "a")];
   VObj [("timestamp", VNum 2); ("namespace", VStr "db"); ("message", VStr "b")];
   VObj [("timestamp", VNum 3); ("namespace", VStr "api"); ("message", VStr "c");
         ("metadata", VObj [("requestId", VStr "req-1")])];
   VObj [("timestamp", VNum 4); ("namespace", VStr "api"); ("message", VStr "d");
         ("metadata", VObj [("requestId", VStr "req-1")])]].

(** The key an entry's namespace is counted under. *)
Definition namespaceKey (log : value) : result string :=
  toPropertyKey (getField log "namespace").

(** [r] is a key that no prototype defines. *)
Definition isOwnKey (r : result string) : bool :=
  match r with
  | Ok k => negb (inherited k)
  | TypeError => false
  end.

(** A value that can be converted to a string: it is no object with a
    property of its own named [toString], and no array that holds such an
    object, at any depth. *)
Fixpoint hasStringForm (v : value) : bool :=
  match v with
  | VArr items => forallb hasStringForm items
  | VObj props =>
      match lookup "toString" props with
      | Some _ => false
      | None => true
      end
  | _ => true
  end.

(** The number of occurrences of a key. *)
Definition occurrences (k : string) (ks : list string) : Z :=
  Z.of_nat (List.length (filter (String.eqb k) ks)).

Definition total (counts : list (string * Commands.tally)) : Z :=
  fold_right (fun p acc => match snd p with
                           | Commands.Count n => (n + acc)%Z
                           | Commands.Text => acc
                           end) 0%Z counts.

(** What a tally holds at any time: distinct keys, a text exactly under the
    names that [Object.prototype] defines, and positive counts. *)
Definition wellTallied (counts : list (string * Commands.tally)) : Prop :=
  NoDup (keys counts)
  /\ (forall k, lookup k counts = Some Commands.Text -> inherited k = true)
  /\ (forall k n, lookup k counts = Some (Commands.Count n) ->
                  inherited k = false /\ (0 < n)%Z).

(** A list in decreasing order of [key]. *)
Definition decreasing {A : Type} (key : A -> Z) (l : list A) : Prop :=
  StronglySorted (fun a b => (key b <= key a)%Z) l.

Definition sumOf (ranked : list (string * Z)) : Z :=
  fold_right (fun p acc => (snd p + acc)%Z) 0%Z ranked.

Definition durationKey (log : value) : Z :=
  match Commands.durationNumber log with
  | Some n => n
  | None => 0%Z
  end.

(** [log.message] is a string. *)
Definition hasStringMessage (log : value) : bool :=
  match getField log "message" with
  | VStr _ => true
  | _ => false
  end.

(** The request id an entry carries, if it is the string [s]. *)
Definition carriesRequestId (s : string) (log : value) : bool :=
  strictEqStr (optField (getField log "metadata") "requestId") s.

(** The matches of [perfCommand] that carry a truthy [duration]. *)
Definition timedLogs (logs : list value) : list value :=
  filter (fun log => truthy (optField (getField log "data") "duration"))
         (perfLogs logs).

(** Timed operations, by message and duration. *)
Definition timedSample : list value :=
  [logEntry "api" "a" [("duration", VNum 30)];
   logEntry "api" "b" [("duration", VNum 70)];
   logEntry "performance" "idle" [];
   logEntry "api" "c" [("duration", VNum 10)];
   logEntry "api" "d" [("duration", VNum 50)];
   logEntry "api" "e" [("duration", VNum 70)];
   logEntry "api" "f" [("duration", VNum 20)];
   logEntry "api" "g" [("elapsed", VNum 99)]].

(** ** The browser tracer ([browser/index.js]) *)

Module Browser.

Record DebugTracer := {
  enabledNamespaces : list string;
  globalEnabled : bool;
  buffer : list value;
  maxBufferSize : nat;
  fileOutput : bool;          (* [fileOutput.enabled] is truthy *)
  flushInterval : bool
}.

Definition set_buffer (t : DebugTracer) (b : list value) : DebugTracer :=
  {| enabledNamespaces := enabledNamespaces t; globalEnabled := globalEnabled t;
     buffer := b; maxBufferSize := maxBufferSize t;
     fileOutput := fileOutput t; flushInterval := flushInterval t |}.

(** [parseEnvConfig], given the [debug] parameter of the page's URL. *)
Definition parseEnvConfig (debugParam : option string) : bool :=
  match debugParam with
  | Some d => (d =? "true") || (d =? "1")
  | None => false
  end.

Definition constructor (enabled : option bool) (namespaces : option (list string))
    (fileOutputEnabled : bool) (debugParam : option string) : DebugTracer :=
  {| enabledNamespaces :=
       match namespaces with
       | Some l => fold_left Tracer.setAdd l []
       | None => []
       end;
     globalEnabled :=
       match enabled with Some b => b | None => parseEnvConfig debugParam end;
     buffer := [];
     maxBufferSize := 100;
     fileOutput := fileOutputEnabled;
     flushInterval := fileOutputEnabled |}.

Definition shouldLog (t : DebugTracer) (namespace : string) : bool :=
  if negb (globalEnabled t) then false
  else if (List.length (enabledNamespaces t) =? 0)%nat then true
  else existsb (String.eqb namespace) (enabledNamespaces t).

(** The entry [writeToBuffer] builds, as [JSON.stringify] sees it;
    [String(args[0])] can throw. *)
Definition entryOf (now namespace : string) (args : list value) : result value :=
  bind (Tracer.messageOf args) (fun message =>
  Ok (VObj ([("timestamp", VStr now); ("namespace", VStr namespace);
             ("message", VStr message)]
            ++ (if isUndefined (Tracer.dataOf args) then []
                else [("data", Tracer.dataOf args)])))).

(** [logs.concat(buffer)]: arrays and strings have a [concat]. *)
Definition concatLogs (logs : value) (entries : list value) : result value :=
  match logs with
  | VArr l => Ok (VArr (l ++ entries))
  | VStr s => bind (toPropertyKey (VArr entries)) (fun text => Ok (VStr (s ++ text)))
  | _ => TypeError
  end.

(** [if (logs.length > 500) logs = logs.slice(-500)] *)
Definition keepRecent (logs : value) : value :=
  match logs with
  | VArr l =>
      if (500 <? List.length l)%nat then VArr (Commands.sliceLast l 500) else logs
  | VStr s =>
      if (500 <? String.length s)%nat
      then VStr (substring (String.length s - 500) 500 s) else logs
  | _ => logs
  end.

Section Storage.

(** [JSON.parse] ([None]: a [SyntaxError]), [JSON.stringify(v, null, 2)]
    ([None] when it throws) and whether [localStorage.setItem] accepts a
    text. *)
Variable JSON_parse : string -> option value.
Variable JSON_pretty : value -> option string.
Variable setItemOk : string -> bool.

(** [flushToLocalStorage]: the tracer and the stored item afterwards. *)
Definition flushToLocalStorage (t : DebugTracer) (stored : option string)
  : DebugTracer * option string :=
  match buffer t with
  | [] => (t, stored)
  | _ :: _ =>
      let parsed :=
        match stored with
        | Some existing =>
            if existing =? "" then Some (VArr []) else JSON_parse existing
        | None => Some (VArr [])
        end in
      match parsed with
      | None => (t, stored)
      | Some logs =>
          match concatLogs logs (buffer t) with
          | TypeError => (t, stored)
          | Ok logs' =>
              match JSON_pretty (keepRecent logs') with
              | Some text =>
                  if setItemOk text then (set_buffer t [], Some text)
                  else (t, stored)
              | None => (t, stored)
              end
          end
      end
  end.

Definition writeToBuffer (t : DebugTracer) (stored : option string)
    (now namespace : string) (args : list value)
  : result (DebugTracer * option string) :=
  bind (entryOf now namespace args) (fun entry =>
  let t' := set_buffer t (buffer t ++ [entry]) in
  Ok (if (maxBufferSize t' <=? List.length (buffer t'))%nat
      then flushToLocalStorage t' stored
      else (t', stored))).

Definition log (t : DebugTracer) (stored : option string)
    (now namespace : string) (args : list value)
  : result (DebugTracer * option string) :=
  if negb (shouldLog t namespace) then Ok (t, stored)
  else if fileOutput t then writeToBuffer t stored now namespace args
  else Ok (t, stored).

(** [getLogs]: the parsed item, [[]] when there is none or it does not
    parse. *)
Definition getLogs (stored : option string) : value :=
  match stored with
  | Some logs =>
      if logs =? "" then VArr []
      else match JSON_parse logs with
           | Some v => v
           | None => VArr []
           end
  | None => VArr []
  end.

Definition clearLogs (t : DebugTracer) (stored : option string)
  : DebugTracer * option string :=
  (set_buffer t [], None).

(** [destroy]: the timer is cleared, then the buffer flushed. *)
Definition destroy (t : DebugTracer) (stored : option string)
  : DebugTracer * option string :=
  flushToLocalStorage
    {| enabledNamespaces := enabledNamespaces t; globalEnabled := globalEnabled t;
       buffer := buffer t; maxBufferSize := maxBufferSize t;
       fileOutput := fileOutput t; flushInterval := false |}
    stored.

(** What happens to a tracer and to the stored item: a [log] call, a firing
    of the one-second timer, the page being unloaded (the listener is there
    when file output was enabled), and [destroy].  A call that throws leaves
    both as they were. *)
Inductive call :=
| Log (now namespace : string) (args : list value)
| Tick
| Unload
| Destroy.

Definition step (s : DebugTracer * option string) (c : call)
  : DebugTracer * option string :=
  match c with
  | Log now ns args =>
      match log (fst s) (snd s) now ns args with
      | Ok s' => s'
      | TypeError => s
      end
  | Tick => if flushInterval (fst s) then flushToLocalStorage (fst s) (snd s) else s
  | Unload => if fileOutput (fst s) then flushToLocalStorage (fst s) (snd s) else s
  | Destroy => destroy (fst s) (snd s)
  end.

Definition run (s : DebugTracer * option string) (calls : list call)
  : DebugTracer * option string :=
  fold_left step calls s.

End Storage.

End Browser.

(** The entries of the logging calls that a browser tracer buffers. *)
Fixpoint browserEntries (t : Browser.DebugTracer) (calls : list Browser.call)
  : list value :=
  match calls with
  | [] => []
  | Browser.Log now ns args :: rest =>
      if Browser.shouldLog t ns && Browser.fileOutput t
      then match Browser.entryOf now ns args with
           | Ok entry => entry :: browserEntries t rest
           | TypeError => browserEntries t rest
           end
      else browserEntries t rest
  | _ :: rest => browserEntries t rest
  end.

(** The stored item cannot take new entries: it is there and does not
    parse, or parses to something without [concat]. *)
Definition unusable (JSON_parse : string -> option value) (stored : option string)
  : bool :=
  match stored with
  | Some existing =>
      if existing =? "" then false
      else match JSON_parse existing with
           | Some (VArr _) | Some (VStr _) => false
           | _ => true
           end
  | None => false
  end.

(** The array a stored item holds: none for a missing or empty item. *)
Definition storedArray (JSON_parse : string -> option value)
    (stored : option string) : option (list value) :=
  match stored with
  | Some existing =>
      if existing =? "" then Some []
      else match JSON_parse existing with
           | Some (VArr l) => Some l
           | _ => None
           end
  | None => Some []
  end.

(** The entries kept of a list: the last 500. *)
Definition recent (l : list value) : list value :=
  if (500 <? List.length l)%nat then Commands.sliceLast l 500 else l.

(** A browser tracer with file output, holding three entries. *)
Definition browserTracer : Browser.DebugTracer :=
  Browser.set_buffer (Browser.constructor (Some true) None true None)
    [VObj [("timestamp", VStr "t1"); ("namespace", VStr "api");
           ("message", VStr "a")];
     VObj [("timestamp", VStr "t2"); ("namespace", VStr "api");
           ("message", VStr "b"); ("data", VNum 1)];
     VObj [("timestamp", VStr "t3"); ("namespace", VStr "db");
           ("message", VStr "c"); ("data", VArr [VNum 1; VNum 2])]].

(** The allow-list properties of a payload, in allow-list order. *)
Definition essentialOf (payload : value) : list (string * value) :=
  map (fun k => (k, getField payload k))
      (filter (fun k => hasKey k payload) essentialKeys).

(** Calls made on a fresh writer with threshold 3. *)
Definition mixedCalls : list call :=
  sevenWrites ++ [Tick; SetRequestId (Some "req-1"); Flush] ++ sevenWrites.

(** [k] is none of the strings of a literal list. *)
Ltac not_among :=
  let H := fresh "H" in
  simpl; intros H;
  repeat (destruct H as [H|H]; [discriminate H|]); exact H.

(** * Properties *)

(** ** The buffered writer *)

Section WriterFacts.

Variable JSON_stringify : value -> option string.

#[local] Abbreviation flush := (flush JSON_stringify).
#[local] Abbreviation write := (write JSON_stringify).
#[local] Abbreviation run := (run JSON_stringify).
#[local] Abbreviation step := (step JSON_stringify).
#[local] Abbreviation lineOf := (lineOf JSON_stringify).
#[local] Abbreviation linesOf := (linesOf JSON_stringify).
#[local] Abbreviation linesBefore := (linesBefore JSON_stringify).

Lemma linesOf_app (a b : list DebugFileEntry) :
  linesOf (a ++ b)
  = match linesOf a, linesOf b with
    | Some la, Some lb => Some (la ++ lb)
    | _, _ => None
    end.
Proof.
  induction a as [|e a IH]; simpl.
  - now destruct (linesOf b).
  - rewrite IH. destruct (lineOf e); [|reflexivity].
    destruct (linesOf a); [|reflexivity]. now destruct (linesOf b).
Qed.

Lemma linesOf_length (entries : list DebugFileEntry) (lines : list string) :
  linesOf entries = Some lines -> List.length lines = List.length entries.
Proof.
  revert lines. induction entries as [|e entries IH]; intros lines; simpl.
  - now intros [= <-].
  - destruct (lineOf e); [|discriminate].
    destruct (linesOf entries) as [ls|]; [|discriminate].
    intros [= <-]. simpl. now rewrite (IH ls).
Qed.

(** The loop of [flush] writes the lines of the entries in buffer order,
    up to the first entry that cannot be serialized. *)
Lemma writeEntries_spec (entries : list DebugFileEntry) :
  forall written,
  writeEntries JSON_stringify written entries
  = match linesOf entries with
    | Some lines => (written ++ lines, true)
    | None => (written ++ linesBefore entries, false)
    end.
Proof.
  induction entries as [|e entries IH]; intros written; simpl.
  - now rewrite app_nil_r.
  - fold (lineOf e). destruct (lineOf e) as [line|].
    + rewrite IH. destruct (linesOf entries); now rewrite <- app_assoc.
    + now rewrite app_nil_r.
Qed.

Lemma flush_closed (w : DebugFileWriter) :
  fileStream w = None -> flush w = w.
Proof.
  intros Hnull. unfold FileWriter.flush. rewrite Hnull.
  now destruct (buffer w).
Qed.

Lemma flush_empty (w : DebugFileWriter) :
  buffer w = [] -> flush w = w.
Proof.
  intros Hempty. unfold FileWriter.flush. now rewrite Hempty.
Qed.

Lemma flush_open (w : DebugFileWriter) (written lines : list string) :
  buffer w <> [] -> fileStream w = Some written ->
  linesOf (buffer w) = Some lines ->
  flush w = set_buffer (set_fileStream w (Some (written ++ lines))) [].
Proof.
  intros Hne Hopen Hlines. unfold FileWriter.flush. rewrite Hopen.
  destruct (buffer w) as [|e entries] eqn:Hbuf; [congruence|].
  now rewrite writeEntries_spec, Hlines.
Qed.

Lemma flush_blocked (w : DebugFileWriter) (written : list string) :
  fileStream w = Some written -> linesOf (buffer w) = None ->
  flush w = set_fileStream w (Some (written ++ linesBefore (buffer w))).
Proof.
  intros Hopen Hlines. unfold FileWriter.flush. rewrite Hopen.
  destruct (buffer w) as [|e entries] eqn:Hbuf; [discriminate|].
  now rewrite writeEntries_spec, Hlines.
Qed.

(** Whatever the state, [flush] leaves the stream as open as it was, and an
    open stream whose pending entries can all be serialized leaves [flush]
    with an empty buffer. *)
Lemma flush_stream_state (w : DebugFileWriter) :
  (fileStream w = None <-> fileStream (flush w) = None)
  /\ (fileStream w <> None -> linesOf (buffer w) <> None ->
      buffer (flush w) = []).
Proof.
  destruct (fileStream w) as [written|] eqn:Hfs.
  - split.
    + split; [discriminate|]. unfold FileWriter.flush. rewrite Hfs.
      destruct (buffer w) as [|e entries]; [congruence|].
      destruct (writeEntries JSON_stringify written (e :: entries)) as [written' []];
        discriminate.
    + intros _ Hl.
      destruct (linesOf (buffer w)) as [lines|] eqn:Hlines; [|congruence].
      destruct (buffer w) as [|e entries] eqn:Hbuf.
      * now rewrite flush_empty.
      * now rewrite (flush_open w written lines) by congruence.
  - rewrite flush_closed by exact Hfs. rewrite Hfs. split; [tauto|].
    intros H. now elim H.
Qed.

Lemma flush_fields (w : DebugFileWriter) :
  mode (flush w) = mode w
  /\ maxBufferSize (flush w) = maxBufferSize w
  /\ flushInterval (flush w) = flushInterval w
  /\ currentRequestId (flush w) = currentRequestId w
  /\ path (flush w) = path w
  /\ ended (flush w) = ended w.
Proof.
  unfold FileWriter.flush.
  destruct (buffer w) as [|e entries]; [repeat split|].
  destruct (fileStream w) as [written|]; [|repeat split].
  destruct (writeEntries JSON_stringify written (e :: entries)) as [written' []];
    repeat split.
Qed.

(** An accepted [write] appends its entry, then flushes when the buffer has
    reached the threshold. *)
Lemma write_accepted (w : DebugFileWriter) (now ns msg : string) (d : value) :
  shouldWrite (mode w) ns d = true ->
  let w' := set_buffer w (buffer w
              ++ [buildEntry (mode w) (currentRequestId w) now ns msg d]) in
  write w now ns msg d = w' \/ write w now ns msg d = flush w'.
Proof.
  intros Hacc w'. unfold FileWriter.write. rewrite Hacc. simpl.
  destruct (_ <=? _)%Z; [right|left]; reflexivity.
Qed.

Lemma write_rejected (w : DebugFileWriter) (now ns msg : string) (d : value) :
  shouldWrite (mode w) ns d = false -> write w now ns msg d = w.
Proof.
  intros Hrej. unfold FileWriter.write. now rewrite Hrej.
Qed.

(** What one call preserves: the mode, and, for a call other than [destroy]
    on an open stream, the sequence "persisted lines, then pending lines",
    which only grows by the line of an accepted entry. *)
Lemma step_mode (w : DebugFileWriter) (c : call) : mode (step w c) = mode w.
Proof.
  destruct c as [now ns msg d| | |id|]; simpl.
  - unfold FileWriter.write.
    destruct (shouldWrite (mode w) ns d); simpl; [|reflexivity].
    destruct (_ <=? _)%Z; [|reflexivity].
    now rewrite (proj1 (flush_fields _)).
  - apply flush_fields.
  - destruct (flushInterval w); [apply flush_fields | reflexivity].
  - reflexivity.
  - unfold destroy.
    set (w1 := if flushInterval w then set_flushInterval w false else w).
    assert (Hm : mode w1 = mode w) by (subst w1; now destruct (flushInterval w)).
    destruct (fileStream (flush w1)); simpl; now rewrite (proj1 (flush_fields _)).
Qed.

Lemma flush_keeps_lines (w : DebugFileWriter) (lines : list string) :
  fileStream w <> None -> linesOf (buffer w) = Some lines ->
  fileStream (flush w) <> None
  /\ buffer (flush w) = []
  /\ persisted (flush w) = persisted w ++ lines.
Proof.
  intros Hopen Hlines. unfold persisted.
  destruct (fileStream w) as [written|] eqn:Hfs; [|congruence].
  destruct (buffer w) as [|e entries] eqn:Hbuf.
  - rewrite flush_empty by assumption. rewrite Hfs, Hbuf.
    simpl in Hlines. injection Hlines as <-. rewrite app_nil_r.
    repeat split; congruence.
  - rewrite (flush_open w written lines) by congruence. simpl.
    repeat split; congruence.
Qed.

Lemma acceptedEntries_cons (m : FileMode) (requestId : option string)
    (c : call) (calls : list call) :
  acceptedEntries m requestId (c :: calls)
  = acceptedEntries m requestId [c]
    ++ acceptedEntries m
         (match c with SetRequestId id => id | _ => requestId end) calls.
Proof.
  destruct c as [now ns msg d| | |id|]; simpl; try reflexivity.
  now destruct (shouldWrite m ns d).
Qed.

(** A call other than [destroy] on an open stream, when the pending entries
    and the one it adds can be serialized: the stream stays open, the
    entries pending afterwards can be serialized, and what the stream
    received followed by the pending lines has grown by the line of the
    accepted entry. *)
Lemma step_keeps_lines (w : DebugFileWriter) (c : call) (lines : list string) :
  fileStream w <> None -> isDestroy c = false ->
  linesOf (buffer w ++ acceptedEntries (mode w) (currentRequestId w) [c])
  = Some lines ->
  fileStream (step w c) <> None
  /\ (exists pending,
        linesOf (buffer (step w c)) = Some pending
        /\ persisted (step w c) ++ pending = persisted w ++ lines)
  /\ currentRequestId (step w c)
     = match c with SetRequestId id => id | _ => currentRequestId w end.
Proof.
  intros Hopen Hnd Hlines.
  assert (Hflush : forall w' : DebugFileWriter,
             fileStream w' <> None -> persisted w' = persisted w ->
             linesOf (buffer w') = Some lines ->
             fileStream (flush w') <> None
             /\ exists pending,
                  linesOf (buffer (flush w')) = Some pending
                  /\ persisted (flush w') ++ pending = persisted w ++ lines).
  { intros w' Ho Hp Hl.
    destruct (flush_keeps_lines w' lines Ho Hl) as (H1 & H2 & H3).
    split; [exact H1|]. exists []. rewrite H2, H3, Hp, app_nil_r. auto. }
  destruct c as [now ns msg d| | |id|]; simpl in *; try discriminate.
  - destruct (shouldWrite (mode w) ns d) eqn:Hacc.
    + set (e := buildEntry (mode w) (currentRequestId w) now ns msg d) in *.
      destruct (write_accepted w now ns msg d Hacc) as [-> | ->]; fold e.
      * simpl. split; [exact Hopen|]. split; [|reflexivity].
        exists lines. auto.
      * destruct (Hflush (set_buffer w (buffer w ++ [e]))) as [H1 H2];
          [exact Hopen|reflexivity|exact Hlines|].
        split; [exact H1|]. split; [exact H2|].
        now rewrite (proj1 (proj2 (proj2 (proj2 (flush_fields _))))).
    + rewrite write_rejected by assumption. rewrite app_nil_r in Hlines.
      split; [exact Hopen|]. split; [|reflexivity]. exists lines. auto.
  - rewrite app_nil_r in Hlines.
    destruct (Hflush w Hopen eq_refl Hlines) as [H1 H2].
    repeat split; auto.
    now rewrite (proj1 (proj2 (proj2 (proj2 (flush_fields _))))).
  - rewrite app_nil_r in Hlines. destruct (flushInterval w).
    + destruct (Hflush w Hopen eq_refl Hlines) as [H1 H2].
      repeat split; auto.
      now rewrite (proj1 (proj2 (proj2 (proj2 (flush_fields _))))).
    + split; [exact Hopen|]. split; [|reflexivity]. exists lines. auto.
  - rewrite app_nil_r in Hlines.
    split; [exact Hopen|]. split; [|reflexivity]. exists lines. auto.
Qed.

(** Over any sequence of calls that does not destroy the writer, when the
    entries pending at first and those the calls add can all be serialized,
    an open stream stays open and the lines it received followed by the
    lines still pending are the earlier ones followed by one line per
    accepted entry, in call order: no entry is lost and none is written
    twice. *)
Lemma run_keeps_lines (calls : list call) :
  forall w lines,
  fileStream w <> None -> forallb (fun c => negb (isDestroy c)) calls = true ->
  linesOf (buffer w ++ acceptedEntries (mode w) (currentRequestId w) calls)
  = Some lines ->
  fileStream (run w calls) <> None
  /\ exists pending,
       linesOf (buffer (run w calls)) = Some pending
       /\ persisted (run w calls) ++ pending = persisted w ++ lines.
Proof.
  induction calls as [|c calls IH]; intros w lines Hopen Hnd Hlines.
  - simpl in *. rewrite app_nil_r in Hlines. split; [exact Hopen|].
    exists lines. auto.
  - cbn [forallb] in Hnd. apply andb_prop in Hnd as [Hc Hrest].
    apply negb_true_iff in Hc.
    rewrite acceptedEntries_cons, app_assoc, linesOf_app in Hlines.
    destruct (linesOf (buffer w ++ acceptedEntries (mode w) (currentRequestId w) [c]))
      as [lines1|] eqn:Hl1; [|discriminate].
    destruct (linesOf (acceptedEntries (mode w)
                         match c with
                         | SetRequestId id => id
                         | _ => currentRequestId w
                         end calls)) as [lines2|] eqn:Hl2; [|discriminate].
    injection Hlines as <-.
    destruct (step_keeps_lines w c lines1 Hopen Hc Hl1)
      as (H1 & (pending1 & P1 & P2) & H3).
    assert (Hl : linesOf (buffer (step w c)
                          ++ acceptedEntries (mode (step w c))
                               (currentRequestId (step w c)) calls)
                 = Some (pending1 ++ lines2)).
    { now rewrite linesOf_app, P1, step_mode, H3, Hl2. }
    destruct (IH (step w c) (pending1 ++ lines2) H1 Hrest Hl)
      as (I1 & pending & Q1 & Q2).
    unfold FileWriter.run in *. cbn [fold_left]. split; [exact I1|].
    exists pending. split; [exact Q1|].
    now rewrite Q2, app_assoc, P2, <- app_assoc.
Qed.

(** C9: [flush] does nothing when the buffer is empty or the stream is
    [null].  Otherwise it appends to what the stream already received one
    newline-terminated serialized line per buffered entry, in buffer order,
    up to the first entry on which [JSON.stringify] throws: when there is
    none it empties the buffer, so that a second [flush] writes nothing;
    when there is one, the lines of the entries before it are written and
    the buffer is left as it was.  Over any sequence of calls short of
    [destroy] whose accepted entries can all be serialized, the lines
    received by an open stream after a last [flush] are one line per
    accepted entry, in call order: each accepted entry reaches the file
    exactly once. *)
Theorem flush_writes_buffer_once (w : DebugFileWriter) :
  (buffer w = [] \/ fileStream w = None -> flush w = w)
  /\ (forall written,
        buffer w <> [] -> fileStream w = Some written ->
        (forall lines,
           linesOf (buffer w) = Some lines ->
           fileStream (flush w) = Some (written ++ lines)
           /\ List.length lines = List.length (buffer w)
           /\ buffer (flush w) = []
           /\ flush (flush w) = flush w)
        /\ (linesOf (buffer w) = None ->
            fileStream (flush w) = Some (written ++ linesBefore (buffer w))
            /\ buffer (flush w) = buffer w))
  /\ (forall calls lines,
        fileStream w <> None ->
        forallb (fun c => negb (isDestroy c)) calls = true ->
        linesOf (buffer w ++ acceptedEntries (mode w) (currentRequestId w) calls)
        = Some lines ->
        persisted (flush (run w calls)) = persisted w ++ lines
        /\ buffer (flush (run w calls)) = []).
Proof.
  split; [|split].
  - intros [Hempty|Hnull]; [now apply flush_empty | now apply flush_closed].
  - intros written Hne Hopen. split.
    + intros lines Hlines. rewrite (flush_open w written lines Hne Hopen Hlines).
      simpl. repeat split. now apply linesOf_length.
    + intros Hlines. now rewrite (flush_blocked w written Hopen Hlines).
  - intros calls lines Hopen Hnd Hlines.
    destruct (run_keeps_lines calls w lines Hopen Hnd Hlines)
      as (H1 & pending & P1 & P2).
    destruct (flush_keeps_lines _ pending H1 P1) as (_ & H3 & H4).
    split; [|exact H3]. now rewrite H4, P2.
Qed.

(** With a [null] stream nothing removes an entry from the buffer. *)
Lemma step_closed (w : DebugFileWriter) (c : call) :
  fileStream w = None ->
  fileStream (step w c) = None
  /\ buffer (step w c)
     = buffer w ++ acceptedEntries (mode w) (currentRequestId w) [c]
  /\ currentRequestId (step w c)
     = match c with SetRequestId id => id | _ => currentRequestId w end.
Proof.
  intros Hnull.
  destruct c as [now ns msg d| | |id|]; simpl.
  - destruct (shouldWrite (mode w) ns d) eqn:Hacc.
    + destruct (write_accepted w now ns msg d Hacc) as [-> | ->];
        rewrite ?flush_closed by exact Hnull; simpl; auto.
    + rewrite write_rejected by assumption. rewrite app_nil_r. auto.
  - rewrite flush_closed by exact Hnull. rewrite app_nil_r. auto.
  - destruct (flushInterval w); rewrite ?flush_closed by exact Hnull;
      rewrite app_nil_r; auto.
  - rewrite app_nil_r. auto.
  - unfold destroy.
    destruct (flushInterval w); rewrite flush_closed by exact Hnull;
      simpl; rewrite Hnull, app_nil_r; auto.
Qed.

Lemma acceptedEntries_length (m : FileMode) (calls : list call) :
  forall requestId,
  List.length (acceptedEntries m requestId calls)
  = List.length (filter (accepted m) calls).
Proof.
  induction calls as [|c calls IH]; intros requestId; simpl; [reflexivity|].
  destruct c as [now ns msg d| | |id|]; simpl; try apply IH.
  destruct (shouldWrite m ns d); simpl; now rewrite IH.
Qed.

Lemma shouldWrite_performance (m : FileMode) (d : value) :
  shouldWrite m "performance" d = true.
Proof. now destruct m. Qed.

(** C10: once initialization has failed (the stream is [null]), it stays
    [null] and no call removes an entry from the buffer: after any sequence
    of calls ([write], [flush], timer ticks, [setRequestId], [destroy]) the
    buffer is the earlier buffer followed by the entry of every accepted
    [write], so its length grows by one per accepted call whatever the
    threshold, and exceeds any bound. *)
Theorem null_stream_buffer_only_grows (w : DebugFileWriter) (calls : list call) :
  fileStream w = None ->
  fileStream (run w calls) = None
  /\ buffer (run w calls)
     = buffer w ++ acceptedEntries (mode w) (currentRequestId w) calls
  /\ List.length (buffer (run w calls))
     = (List.length (buffer w) + List.length (filter (accepted (mode w)) calls))%nat
  /\ (forall bound : nat,
        exists more, (bound < List.length (buffer (run w (calls ++ more))))%nat).
Proof.
  intros Hnull.
  assert (Hrun : forall calls w, fileStream w = None ->
            fileStream (run w calls) = None
            /\ buffer (run w calls)
               = buffer w ++ acceptedEntries (mode w) (currentRequestId w) calls).
  { clear. induction calls as [|c calls IH]; intros w Hnull; simpl.
    - now rewrite app_nil_r.
    - destruct (step_closed w c Hnull) as (H1 & H2 & H3).
      destruct (IH (step w c) H1) as [I1 I2].
      unfold FileWriter.run in *. simpl. split; [exact I1|].
      rewrite I2, H2, step_mode, H3, <- app_assoc. f_equal.
      destruct c as [now ns msg d| | |id|]; simpl; try reflexivity.
      now destruct (shouldWrite (mode w) ns d). }
  destruct (Hrun calls w Hnull) as [H1 H2].
  split; [exact H1|]. split; [exact H2|]. split.
  - now rewrite H2, length_app, acceptedEntries_length.
  - intros bound.
    exists (repeat (Write "" "performance" "" VUndefined) (S bound)).
    destruct (Hrun (calls ++ repeat (Write "" "performance" "" VUndefined) (S bound))
                   w Hnull) as [_ ->].
    rewrite length_app, acceptedEntries_length, filter_app, length_app.
    assert (Hall : forall n,
               List.length (filter (accepted (mode w))
                              (repeat (Write "" "performance" "" VUndefined) n)) = n).
    { induction n as [|n IHn]; simpl; [reflexivity|].
      rewrite shouldWrite_performance. simpl. now rewrite IHn. }
    rewrite Hall. lia.
Qed.

Lemma step_maxBufferSize (w : DebugFileWriter) (c : call) :
  isDestroy c = false -> maxBufferSize (step w c) = maxBufferSize w.
Proof.
  intros Hnd.
  destruct c as [now ns msg d| | |id|]; simpl in *; try discriminate.
  - unfold FileWriter.write. destruct (shouldWrite (mode w) ns d); simpl; auto.
    destruct (_ <=? _)%Z; auto.
    now rewrite (proj1 (proj2 (flush_fields _))).
  - apply flush_fields.
  - destruct (flushInterval w); [apply flush_fields|reflexivity].
  - reflexivity.
Qed.

(** While the stream is open and the entries can be serialized, the
    threshold does bound the buffer. *)
Lemma open_stream_buffer_bounded (calls : list call) :
  forall w,
  fileStream w <> None -> forallb (fun c => negb (isDestroy c)) calls = true ->
  linesOf (buffer w ++ acceptedEntries (mode w) (currentRequestId w) calls)
  <> None ->
  (Z.of_nat (List.length (buffer w)) < Z.max 1 (maxBufferSize w))%Z ->
  (Z.of_nat (List.length (buffer (run w calls))) < Z.max 1 (maxBufferSize w))%Z.
Proof.
  induction calls as [|c calls IH]; intros w Hopen Hnd Hser Hlt; [exact Hlt|].
  cbn [forallb] in Hnd.
  apply andb_prop in Hnd as [Hc Hrest]. apply negb_true_iff in Hc.
  rewrite acceptedEntries_cons, app_assoc, linesOf_app in Hser.
  destruct (linesOf (buffer w ++ acceptedEntries (mode w) (currentRequestId w) [c]))
    as [lines1|] eqn:Hl1; [|now elim Hser].
  destruct (linesOf (acceptedEntries (mode w)
                       match c with
                       | SetRequestId id => id
                       | _ => currentRequestId w
                       end calls)) as [lines2|] eqn:Hl2; [|now elim Hser].
  destruct (step_keeps_lines w c lines1 Hopen Hc Hl1)
    as (H1 & (pending1 & P1 & _) & H3).
  pose proof (step_maxBufferSize w c Hc) as Hmax.
  unfold FileWriter.run in *. cbn [fold_left].
  rewrite <- Hmax. apply IH; [exact H1|exact Hrest| |].
  { now rewrite linesOf_app, P1, step_mode, H3, Hl2. }
  rewrite Hmax.
  assert (Hflush : forall w' : DebugFileWriter,
            fileStream w' <> None -> linesOf (buffer w') <> None ->
            (Z.of_nat (List.length (buffer (flush w'))) < Z.max 1 (maxBufferSize w))%Z).
  { intros w' Ho Hl. rewrite (proj2 (flush_stream_state w') Ho Hl). simpl. lia. }
  destruct c as [now ns msg d| | |id|]; simpl in *; try discriminate; auto.
  - unfold FileWriter.write. destruct (shouldWrite (mode w) ns d); simpl; auto.
    destruct (_ <=? _)%Z eqn:Hfull.
    + apply Hflush; [exact Hopen|]. simpl. congruence.
    + simpl. apply Z.leb_gt in Hfull. simpl in Hfull. lia.
  - apply Hflush; [exact Hopen|]. rewrite app_nil_r in Hl1. congruence.
  - destruct (flushInterval w); auto.
    apply Hflush; [exact Hopen|]. rewrite app_nil_r in Hl1. congruence.
Qed.

(** C1: a writer in mode [minimal] with threshold 2 whose file could be
    opened receives [write("performance","op1",{duration:10})],
    [write("debug","x")] and [write("performance","op2",{duration:20})],
    two entries that [JSON.stringify] serializes: the first call buffers its
    entry and writes nothing, the second is rejected and leaves the writer
    as it was, and the third reaches the threshold and flushes, after which
    the stream holds the session header and exactly the two entries, in call
    order, and the buffer is empty. *)
Theorem minimal_threshold_two_scenario
    (target now t1 t2 t3 line1 line2 : string) :
  let e1 := {| timestamp := t1; namespace := "performance"; message := "op1";
               data := VObj [("duration", VNum 10)]; metadata := None |} in
  let e2 := {| timestamp := t3; namespace := "performance"; message := "op2";
               data := VObj [("duration", VNum 20)]; metadata := None |} in
  lineOf e1 = Some line1 -> lineOf e2 = Some line2 ->
  let w0 := constructor {| cfg_path := Some target; cfg_mode := Some Minimal;
                           cfg_maxBufferSize := Some 2%Z |} true now in
  let w1 := write w0 t1 "performance" "op1" (VObj [("duration", VNum 10)]) in
  let w2 := write w1 t2 "debug" "x" VUndefined in
  let w3 := write w2 t3 "performance" "op2" (VObj [("duration", VNum 20)]) in
  (mode w0 = Minimal /\ maxBufferSize w0 = 2%Z /\ buffer w0 = []
   /\ fileStream w0 = Some [sessionHeader now])
  /\ (buffer w1 = [e1] /\ fileStream w1 = Some [sessionHeader now])
  /\ (shouldWrite Minimal "debug" VUndefined = false /\ w2 = w1)
  /\ (fileStream w3 = Some [sessionHeader now; line1; line2]
      /\ buffer w3 = []).
Proof.
  intros e1 e2 Hline1 Hline2. cbv zeta.
  assert (Hw3 : write (write (write
                  (constructor {| cfg_path := Some target; cfg_mode := Some Minimal;
                                  cfg_maxBufferSize := Some 2%Z |} true now)
                  t1 "performance" "op1" (VObj [("duration", VNum 10)]))
                  t2 "debug" "x" VUndefined)
                  t3 "performance" "op2" (VObj [("duration", VNum 20)])
                = set_buffer
                    (set_fileStream
                       (constructor {| cfg_path := Some target;
                                       cfg_mode := Some Minimal;
                                       cfg_maxBufferSize := Some 2%Z |} true now)
                       (Some [sessionHeader now; line1; line2]))
                    []).
  { unfold FileWriter.write, FileWriter.flush. simpl.
    change (buildEntry Minimal None t1 "performance" "op1"
              (VObj [("duration", VNum 10)])) with e1.
    change (buildEntry Minimal None t3 "performance" "op2"
              (VObj [("duration", VNum 20)])) with e2.
    change (serialize JSON_stringify (entryValue e1)) with (lineOf e1).
    change (serialize JSON_stringify (entryValue e2)) with (lineOf e2).
    now rewrite Hline1, Hline2. }
  rewrite Hw3. repeat split.
Qed.

End WriterFacts.

(** ** Objects as ordered property lists *)

Lemma lookup_setProp (props : list (string * value)) (k k' : string) (v : value) :
  lookup k (setProp props k' v) = if k' =? k then Some v else lookup k props.
Proof.
  induction props as [|[k0 v0] props IH]; simpl.
  - reflexivity.
  - destruct (k0 =? k') eqn:E0; simpl.
    + apply String.eqb_eq in E0. subst k0. now destruct (k' =? k).
    + rewrite IH. destruct (k0 =? k) eqn:E1; [|reflexivity].
      apply String.eqb_eq in E1. subst k0.
      rewrite String.eqb_sym in E0. now rewrite E0.
Qed.

Lemma setProp_fresh (props : list (string * value)) (k : string) (v : value) :
  ~ In k (keys props) -> setProp props k v = props ++ [(k, v)].
Proof.
  induction props as [|[k0 v0] props IH]; simpl; intros Hfresh; [reflexivity|].
  destruct (k0 =? k) eqn:E.
  - apply String.eqb_eq in E. tauto.
  - rewrite IH; tauto.
Qed.

Lemma assign_fresh (props : list (string * value)) (k : string) (v : value) :
  k <> "__proto__" -> ~ In k (keys props) -> assign props k v = props ++ [(k, v)].
Proof.
  intros Hk Hfresh. unfold assign.
  destruct (k =? "__proto__") eqn:E; [apply String.eqb_eq in E; contradiction|].
  now apply setProp_fresh.
Qed.

(** ** Shaping the payload *)

(** [truncate] unfolds as the source reads. *)
Lemma truncate_unfold (data : value) (maxDepth currentDepth : nat) :
  truncate data maxDepth currentDepth
  = if (maxDepth <=? currentDepth)%nat then VStr "[truncated]"
    else match data with
         | VArr items =>
             VArr (map (fun item => truncate item maxDepth (currentDepth + 1))
                       (firstn 5 items))
         | VObj props =>
             VObj (truncateProps (fun v => truncate v maxDepth (currentDepth + 1))
                                 0 [] props)
         | VStr s =>
             if (200 <? String.length s)%nat
             then VStr (substring 0 200 s ++ "...[truncated]")
             else data
         | _ => data
         end.
Proof.
  unfold truncate.
  destruct (maxDepth <=? currentDepth)%nat eqn:E.
  - apply Nat.leb_le in E.
    replace (maxDepth - currentDepth)%nat with 0%nat by lia. reflexivity.
  - apply Nat.leb_gt in E.
    replace (maxDepth - currentDepth)%nat
      with (S (maxDepth - (currentDepth + 1)))%nat by lia.
    reflexivity.
Qed.

Section TruncateProps.

Variable trunc : value -> value.

Lemma truncateProps_cons (k : string) (v : value) (rest : list (string * value))
    (count : nat) (truncated : list (string * value)) :
  truncateProps trunc count truncated ((k, v) :: rest)
  = if (10 <? count)%nat then assign truncated "..." (VStr "truncated")
    else truncateProps trunc (S count) (copyProp trunc truncated (k, v)) rest.
Proof. reflexivity. Qed.

(** The loop copies the entries it is given until its counter has passed
    10; one more entry makes it add the marker and stop. *)
Lemma truncateProps_all (entries : list (string * value)) :
  forall count truncated,
  (count + List.length entries <= 11)%nat ->
  truncateProps trunc count truncated entries
  = fold_left (copyProp trunc) entries truncated.
Proof.
  induction entries as [|[k v] entries IH]; intros count truncated Hlen.
  - reflexivity.
  - rewrite truncateProps_cons. simpl in Hlen.
    destruct (10 <? count)%nat eqn:E; [apply Nat.ltb_lt in E; lia|].
    simpl fold_left. apply IH. lia.
Qed.

Lemma truncateProps_marker (entries : list (string * value)) :
  forall count truncated,
  (count <= 11 < count + List.length entries)%nat ->
  truncateProps trunc count truncated entries
  = assign (fold_left (copyProp trunc) (firstn (11 - count) entries) truncated)
           "..." (VStr "truncated").
Proof.
  induction entries as [|[k v] entries IH]; intros count truncated Hlen.
  - simpl in Hlen. lia.
  - rewrite truncateProps_cons. simpl in Hlen.
    destruct (10 <? count)%nat eqn:E.
    + apply Nat.ltb_lt in E.
      replace (11 - count)%nat with 0%nat by lia. reflexivity.
    + apply Nat.ltb_ge in E.
      replace (11 - count)%nat with (S (11 - S count))%nat by lia.
      rewrite firstn_cons. simpl fold_left. apply IH. lia.
Qed.

Lemma copy_fresh (entries : list (string * value)) :
  forall truncated,
  NoDup (keys truncated ++ keys entries) ->
  ~ In "__proto__" (keys entries) ->
  fold_left (copyProp trunc) entries truncated
  = truncated ++ map (fun p => (fst p, trunc (snd p))) entries.
Proof.
  induction entries as [|[k v] entries IH]; intros truncated Hnd Hproto; simpl in *.
  - now rewrite app_nil_r.
  - unfold copyProp at 2. simpl.
    rewrite assign_fresh.
    + rewrite IH.
      * now rewrite <- app_assoc.
      * unfold keys in *. rewrite map_app. simpl. rewrite <- app_assoc. exact Hnd.
      * tauto.
    + intros ->. tauto.
    + apply NoDup_remove_2 in Hnd. intros Hin. apply Hnd, in_or_app. now left.
Qed.

End TruncateProps.

Lemma NoDup_firstn {A : Type} (n : nat) (l : list A) :
  NoDup l -> NoDup (firstn n l).
Proof.
  intros Hnd. rewrite <- (firstn_skipn n l) in Hnd.
  now apply NoDup_app_remove_r in Hnd.
Qed.

(** Under [detailed], an object with more than 11 properties keeps its first
    11, truncated one level down, and receives the marker after them. *)
Lemma detailed_object_marker (props : list (string * value)) :
  (11 < List.length props)%nat ->
  NoDup (keys props) ->
  ~ In "..." (keys (firstn 11 props)) ->
  ~ In "__proto__" (keys (firstn 11 props)) ->
  processData Detailed (VObj props)
  = VObj (map (fun p => (fst p, truncate (snd p) 3 1)) (firstn 11 props)
          ++ [("...", VStr "truncated")]).
Proof.
  intros Hlen Hnd Hdots Hproto.
  unfold processData. rewrite truncate_unfold. simpl Nat.leb. cbv iota.
  f_equal.
  rewrite truncateProps_marker by (simpl; lia).
  simpl Nat.sub.
  rewrite copy_fresh.
  - simpl app. rewrite assign_fresh.
    + reflexivity.
    + discriminate.
    + unfold keys in *. rewrite map_map. simpl. exact Hdots.
  - change (NoDup (keys (firstn 11 props))).
    unfold keys in *. rewrite <- firstn_map. now apply NoDup_firstn.
  - exact Hproto.
Qed.

Lemma truncateLevels_undefined (left : nat) (v : value) :
  isUndefined (truncateLevels (S left) v) = isUndefined v.
Proof.
  destruct v as [| | | | |s| |]; try reflexivity.
  simpl. now destruct (200 <? String.length s)%nat.
Qed.

Lemma writtenProps_truncated (left : nat) (props : list (string * value)) :
  keys (writtenProps (map (fun p => (fst p, truncateLevels (S left) (snd p))) props))
  = keys (writtenProps props).
Proof.
  unfold writtenProps, keys.
  induction props as [|[k v] props IH]; [reflexivity|].
  cbn [map filter fst snd]. rewrite truncateLevels_undefined.
  destruct (isUndefined v); cbn [negb map fst]; now rewrite IH.
Qed.

(** C3: under [detailed], a payload that is an object of 15 properties is
    stored as an object of 12: its first 11 properties in enumeration order,
    each value truncated one level down, followed by the marker
    ["..."]: "truncated" as the 12th (the keys being distinct and the first
    11 being neither ["..."] nor ["__proto__"]).  What is persisted of it
    are the properties that hold a value: the keys of the payload's first 11
    properties other than those that hold [undefined], then the marker, that
    is 12 keys less one for each of the 11 that holds [undefined]. *)
Theorem detailed_object_of_15_keys
    (requestId : option string) (now ns msg : string)
    (props : list (string * value)) :
  List.length props = 15%nat ->
  NoDup (keys props) ->
  ~ In "..." (keys (firstn 11 props)) ->
  ~ In "__proto__" (keys (firstn 11 props)) ->
  exists stored,
    data (buildEntry Detailed requestId now ns msg (VObj props)) = VObj stored
    /\ (List.length stored = 12%nat
        /\ firstn 11 stored
           = map (fun p => (fst p, truncate (snd p) 3 1)) (firstn 11 props)
        /\ nth_error stored 11 = Some ("...", VStr "truncated"))
    /\ writtenProps stored
       = writtenProps (map (fun p => (fst p, truncate (snd p) 3 1))
                           (firstn 11 props))
         ++ [("...", VStr "truncated")]
    /\ keys (writtenProps stored)
       = keys (writtenProps (firstn 11 props)) ++ ["..."]
    /\ (List.length (writtenProps stored)
        + List.length (filter (fun p => isUndefined (snd p)) (firstn 11 props))
        = 12)%nat.
Proof.
  intros Hlen Hnd Hdots Hproto.
  set (copied := map (fun p : string * value => (fst p, truncate (snd p) 3 1))
                     (firstn 11 props)).
  assert (Hl : List.length copied = 11%nat).
  { subst copied. rewrite length_map, length_firstn. lia. }
  assert (Hw : writtenProps (copied ++ [("...", VStr "truncated")])
               = writtenProps copied ++ [("...", VStr "truncated")]).
  { unfold writtenProps. now rewrite filter_app. }
  assert (Hk : keys (writtenProps copied) = keys (writtenProps (firstn 11 props))).
  { apply (writtenProps_truncated 1). }
  exists (copied ++ [("...", VStr "truncated")]).
  split; [|split; [|split; [|split]]].
  - unfold buildEntry. simpl data.
    apply detailed_object_marker; [lia|assumption..].
  - split; [|split].
    + rewrite length_app, Hl. reflexivity.
    + rewrite firstn_app, Hl. change (11 - 11)%nat with 0%nat.
      rewrite firstn_O, app_nil_r. apply firstn_all2. lia.
    + rewrite nth_error_app2 by lia. now rewrite Hl.
  - exact Hw.
  - rewrite Hw. unfold keys at 1. rewrite map_app. f_equal. exact Hk.
  - rewrite Hw, length_app.
    assert (Hsame : List.length (writtenProps copied)
                    = List.length (writtenProps (firstn 11 props))).
    { unfold keys in Hk. now rewrite <- (length_map fst), Hk, length_map. }
    assert (Hf : List.length (firstn 11 props) = 11%nat)
      by (rewrite length_firstn; lia).
    rewrite Hsame. unfold writtenProps. clear Hsame Hk Hw Hl. clearbody copied.
    set (first11 := firstn 11 props) in *.
    pose proof (filter_length (fun p : string * value => isUndefined (snd p))
                              first11) as Hsplit.
    cbv beta in Hsplit. rewrite Hf in Hsplit.
    change (List.length [("...", VStr "truncated")]) with 1%nat. lia.
Qed.

Lemma detailed_object_of_15_keys_witness :
  exists stored,
    data (buildEntry Detailed None "2024-01-01T00:00:00.000Z" "api" "payload"
                     (VObj sample15gap)) = VObj stored
    /\ (List.length stored = 12%nat
        /\ firstn 11 stored
           = map (fun p => (fst p, truncate (snd p) 3 1)) (firstn 11 sample15gap)
        /\ nth_error stored 11 = Some ("...", VStr "truncated"))
    /\ writtenProps stored
       = writtenProps (map (fun p => (fst p, truncate (snd p) 3 1))
                           (firstn 11 sample15gap))
         ++ [("...", VStr "truncated")]
    /\ keys (writtenProps stored)
       = keys (writtenProps (firstn 11 sample15gap)) ++ ["..."]
    /\ (List.length (writtenProps stored)
        + List.length (filter (fun p => isUndefined (snd p)) (firstn 11 sample15gap))
        = 12)%nat.
Proof.
  apply detailed_object_of_15_keys.
  - reflexivity.
  - unfold keys, sample15gap. simpl. repeat (constructor; [not_among|]). constructor.
  - unfold keys, sample15gap. not_among.
  - unfold keys, sample15gap. not_among.
Defined.

(** For the 15-property payload the line written holds 12 properties under
    [data]: the 11th is the payload's 11th and the marker comes 12th. *)
Lemma detailed_15_keys_stores_12 :
  exists stored,
    readBackData (buildEntry Detailed None "2024-01-01T00:00:00.000Z" "api"
                             "payload" (VObj sample15))
    = Some stored
    /\ List.length stored = 12%nat
    /\ nth_error stored 10 = Some ("k11", VNum 11)
    /\ nth_error stored 11 = Some ("...", VStr "truncated").
Proof.
  eexists. split; [vm_compute; reflexivity|]. repeat split.
Qed.

(** With no value under the third key, the stored object has 12 properties
    and the line written holds 11 of them, the marker last. *)
Example detailed_15_keys_with_gap :
  exists stored,
    readBackData (buildEntry Detailed None "2024-01-01T00:00:00.000Z" "api"
                             "payload" (VObj sample15gap))
    = Some stored
    /\ stored
       = writtenProps
           (map (fun p => (fst p, truncate (snd p) 3 1)) (firstn 11 sample15gap))
         ++ [("...", VStr "truncated")]
    /\ List.length stored = 11%nat
    /\ nth_error stored 10 = Some ("...", VStr "truncated").
Proof.
  eexists. split; [vm_compute; reflexivity|]. repeat split.
Qed.

(** Under [minimal] the shaping of an object payload, seen through its
    properties: the kept ones are those of the allow-list that the payload
    has, with the payload's values. *)
Lemma essential_lookup (payload : value) (allow : list string) :
  forall essential k,
  ~ In "__proto__" allow ->
  lookup k
    (fold_left
       (fun essential key =>
          if hasKey key payload then assign essential key (getField payload key)
          else essential)
       allow essential)
  = if existsb (String.eqb k) allow && hasKey k payload
    then Some (getField payload k)
    else lookup k essential.
Proof.
  induction allow as [|key allow IH]; intros essential k Hproto; simpl.
  - reflexivity.
  - rewrite IH by (simpl in Hproto; tauto).
    destruct (existsb (String.eqb k) allow && hasKey k payload) eqn:Hlater.
    + apply andb_prop in Hlater as [He Hh]. now rewrite He, Hh, orb_true_r.
    + destruct (k =? key) eqn:Hk; simpl.
      * apply String.eqb_eq in Hk. subst key.
        destruct (hasKey k payload) eqn:Hhas; [|now rewrite andb_false_r in *].
        unfold assign.
        destruct (k =? "__proto__") eqn:Hp;
          [apply String.eqb_eq in Hp; simpl in Hproto; tauto|].
        rewrite lookup_setProp. now rewrite String.eqb_refl.
      * rewrite Hlater.
        destruct (hasKey key payload); [|reflexivity].
        unfold assign. destruct (key =? "__proto__"); [reflexivity|].
        rewrite lookup_setProp. rewrite String.eqb_sym in Hk. now rewrite Hk.
Qed.

Lemma minimal_object_payload (props : list (string * value)) :
  (forall k, In k essentialKeys -> lookup k props = None) /\
    processData Minimal (VObj props) = VUndefined
  \/ exists essential,
       processData Minimal (VObj props) = VObj essential
       /\ essential <> []
       /\ forall k, lookup k essential
                    = if existsb (String.eqb k) essentialKeys
                      then lookup k props else None.
Proof.
  unfold processData. simpl typeofObject. simpl isNull. cbv iota beta. simpl andb.
  cbv iota.
  set (essential := fold_left _ essentialKeys []).
  assert (Hlook : forall k, lookup k essential
                    = if existsb (String.eqb k) essentialKeys
                      then lookup k props else None).
  { intros k. subst essential. rewrite essential_lookup by (unfold essentialKeys; not_among).
    unfold hasKey, getField.
    destruct (existsb (String.eqb k) essentialKeys); [|reflexivity].
    now destruct (lookup k props). }
  destruct essential as [|p essential'] eqn:Hess.
  - left. split; [|reflexivity].
    intros k Hin. specialize (Hlook k).
    assert (Hex : existsb (String.eqb k) essentialKeys = true).
    { apply existsb_exists. exists k. split; [exact Hin|apply String.eqb_refl]. }
    rewrite Hex in Hlook. now symmetry.
  - right. exists (p :: essential'). simpl. repeat split; [discriminate|exact Hlook].
Qed.

(** C4: under [minimal] an accepted call whose payload is not an object is
    stored with that payload unchanged: [write("performance", "took", 42)]
    is accepted, [processData] returns 42, and the serialized entry has a
    [data] property although the payload has none of the allow-list keys. *)
Theorem minimal_scalar_payload_kept (requestId : option string) (now : string) :
  shouldWrite Minimal "performance" (VNum 42) = true
  /\ processData Minimal (VNum 42) = VNum 42
  /\ processData Minimal (VStr "slow") = VStr "slow"
  /\ processData Minimal VNull = VNull
  /\ getField (entryValue (buildEntry Minimal requestId now "performance" "took"
                                      (VNum 42))) "data"
     = VNum 42
  /\ processData Minimal (VObj [("note", VStr "slow")]) = VUndefined
  /\ getField (entryValue (buildEntry Minimal requestId now "performance" "took"
                                      (VObj [("note", VStr "slow")]))) "data"
     = VUndefined.
Proof.
  repeat split.
  destruct requestId as [id|]; [|reflexivity].
  unfold buildEntry, entryValue. simpl. now destruct (id =? "").
Qed.

(** ** The log reader *)

Lemma append_nil_r (s : string) : (s ++ "")%string = s.
Proof. induction s as [|c s IH]; simpl; [reflexivity|now rewrite IH]. Qed.

Lemma append_assoc (s1 s2 s3 : string) :
  ((s1 ++ s2) ++ s3)%string = (s1 ++ (s2 ++ s3))%string.
Proof. induction s1 as [|c s1 IH]; simpl; [reflexivity|now rewrite IH]. Qed.

Lemma startsWith_brace (line : string) :
  startsWith "{" line = true <-> exists rest, line = String "{" rest.
Proof.
  unfold startsWith. destruct line as [|c rest].
  - split; [discriminate|intros [r Hr]; discriminate].
  - change (isPrefix "{" (String c rest)) with (Ascii.eqb "{" c && true).
    rewrite andb_true_r. destruct (Ascii.eqb_spec "{" c) as [<-|Hne].
    + split; eauto.
    + split; [discriminate|]. intros [r Hr]. injection Hr as Hc _. congruence.
Qed.

Section ReaderFacts.

Variable JSON_parse : string -> option value.

Lemma readLines_flat_map (lines : list string) :
  forall logs,
  fold_left (readLine JSON_parse) lines logs
  = logs ++ flat_map (entryOfLine JSON_parse) lines.
Proof.
  induction lines as [|line lines IH]; intros logs; simpl.
  - now rewrite app_nil_r.
  - rewrite IH. unfold readLine, entryOfLine.
    destruct (startsWith "{" line); [|reflexivity].
    destruct (JSON_parse line); [|reflexivity].
    now rewrite <- app_assoc.
Qed.

(** C7: the reader goes through the lines in file order; a line contributes
    an entry exactly when its first character is an opening brace and it
    parses, the entry being the parsed value; every other line (session
    markers, damaged lines, lines that start with white space) is skipped. *)
Theorem reader_keeps_lines_starting_with_brace (content : string) :
  readLogFile JSON_parse content
  = flat_map (entryOfLine JSON_parse) (rlLines "" content)
  /\ (forall line v,
        entryOfLine JSON_parse line = [v]
        <-> (exists rest, line = String "{" rest) /\ JSON_parse line = Some v)
  /\ (forall line,
        entryOfLine JSON_parse line = []
        <-> ~ (exists rest, line = String "{" rest) \/ JSON_parse line = None).
Proof.
  split; [|split].
  - unfold readLogFile. now rewrite readLines_flat_map.
  - intros line v. unfold entryOfLine. rewrite <- startsWith_brace.
    destruct (startsWith "{" line); [|split; [discriminate|intros [H _]; discriminate]].
    destruct (JSON_parse line) as [v'|].
    + split; [intros [= ->]; auto | intros [_ [= ->]]; reflexivity].
    + split; [discriminate | intros [_ H]; discriminate].
  - intros line. unfold entryOfLine. rewrite <- startsWith_brace.
    destruct (startsWith "{" line).
    + destruct (JSON_parse line) as [v'|].
      * split; [discriminate|]. intros [H|H]; [now elim H | discriminate].
      * split; auto.
    + split; auto.
Qed.

Section RoundTrip.

Variable JSON_stringify : value -> option string.




End RoundTrip.

End ReaderFacts.



(** A serialized entry behind two spaces: its first character that is not
    white space is an opening brace and the line parses, yet the reader
    skips it. *)
Lemma indented_line_is_skipped :
  firstNonSpaceIsBrace indentedLine = true
  /\ RefJSON.parse indentedLine = Some plainEntry
  /\ readLogFile RefJSON.parse indentedLine = []
  /\ readLogFile RefJSON.parse (RefJSON.print plainEntry) = [plainEntry].
Proof.
  vm_compute. repeat split.
Qed.

(** ** The analysis views: errors *)

Lemma filterR_ok (p : value -> result bool) (logs : list value) :
  forall kept, filterR p logs = Ok kept -> kept = filter (holds p) logs.
Proof.
  induction logs as [|log logs IH]; simpl; intros kept Hok.
  - now injection Hok as <-.
  - unfold holds at 1. destruct (p log) as [keep|]; simpl in Hok; [|discriminate].
    destruct (filterR p logs) as [kept'|]; simpl in Hok; [|discriminate].
    injection Hok as <-. rewrite <- (IH kept' eq_refl). now destruct keep.
Qed.

Lemma filterR_total (p : value -> result bool) (logs : list value) :
  Forall (fun log => p log <> TypeError) logs ->
  filterR p logs = Ok (filter (holds p) logs).
Proof.
  induction 1 as [|log logs Hlog _ IH]; simpl; [reflexivity|].
  unfold holds at 1. destruct (p log) as [keep|]; [|contradiction].
  simpl. rewrite IH. simpl. now destruct keep.
Qed.

Lemma strictEqStr_true (v : value) (s : string) :
  strictEqStr v s = true <-> v = VStr s.
Proof.
  destruct v; simpl; try (split; [discriminate|intros [=]]).
  rewrite String.eqb_eq. split; [now intros ->|now intros [= ->]].
Qed.

Lemma messageIncludes_true (log : value) (needle : string) :
  messageIncludes log needle = Ok true
  <-> exists s, getField log "message" = VStr s
                /\ includes needle (toLowerCase s) = true.
Proof.
  unfold messageIncludes.
  destruct (getField log "message") as [| | | | |s| |];
    try (split; [discriminate|intros (s' & [=] & _)]).
  split.
  - intros [= H]. eauto.
  - intros (s' & [= <-] & ->). reflexivity.
Qed.

Lemma errorsIsError_true (log : value) :
  errorsIsError log = Ok true
  <-> truthy (optField (getField log "data") "error") = true
      \/ getField log "level" = VStr "error"
      \/ exists s, getField log "message" = VStr s
                   /\ (includes "error" (toLowerCase s) = true
                       \/ includes "failed" (toLowerCase s) = true
                       \/ includes "exception" (toLowerCase s) = true).
Proof.
  unfold errorsIsError.
  rewrite <- strictEqStr_true.
  destruct (truthy (optField (getField log "data") "error")); [simpl; split; auto|].
  destruct (strictEqStr (getField log "level") "error"); [simpl; split; auto|].
  simpl. unfold messageIncludes.
  destruct (getField log "message") as [| | | | |s| |]; simpl;
    try (split; [discriminate
                |intros [H|[H|(s' & H & _)]]; discriminate]).
  destruct (includes "error" (toLowerCase s)) eqn:E1; simpl.
  { split; [|reflexivity]. intros _. right; right. exists s. auto. }
  destruct (includes "failed" (toLowerCase s)) eqn:E2; simpl.
  { split; [|reflexivity]. intros _. right; right. exists s. auto. }
  destruct (includes "exception" (toLowerCase s)) eqn:E3; simpl.
  { split; [|reflexivity]. intros _. right; right. exists s. auto. }
  split; [discriminate|].
  intros [H|[H|(s' & [= <-] & [H|[H|H]])]]; congruence.
Qed.

Lemma analyzeIsError_true (log : value) :
  analyzeIsError log = Ok true
  <-> truthy (optField (getField log "data") "error") = true
      \/ exists s, getField log "message" = VStr s
                   /\ (includes "error" (toLowerCase s) = true
                       \/ includes "failed" (toLowerCase s) = true).
Proof.
  unfold analyzeIsError.
  destruct (truthy (optField (getField log "data") "error")); [simpl; split; auto|].
  simpl. unfold messageIncludes.
  destruct (getField log "message") as [| | | | |s| |]; simpl;
    try (split; [discriminate|intros [H|(s' & H & _)]; discriminate]).
  destruct (includes "error" (toLowerCase s)) eqn:E1; simpl.
  { split; [|reflexivity]. intros _. right. exists s. auto. }
  destruct (includes "failed" (toLowerCase s)) eqn:E2; simpl.
  { split; [|reflexivity]. intros _. right. exists s. auto. }
  split; [discriminate|].
  intros [H|(s' & [= <-] & [H|H])]; congruence.
Qed.

(** C2: [errorsCommand] prints, without any limit and in file order, the
    entries on which its own predicate holds: [data.error] is truthy, or
    [level] is ["error"], or the message in lower case contains ["error"],
    ["failed"] or ["exception"].  The predicate of [analyzeCommand] is the
    first and the third of these without ["exception"], so every entry that
    the summary counts as an error is printed by [errors].  The command
    prints this list whenever every message is a string or missing. *)
Theorem errors_view_selection (logs : list value) :
  (forall errors,
     errorsCommand logs = Ok errors -> errors = filter (holds errorsIsError) logs)
  /\ (Forall (fun log => messageIsText log = true) logs ->
      errorsCommand logs = Ok (filter (holds errorsIsError) logs))
  /\ (forall log,
        errorsIsError log = Ok true
        <-> truthy (optField (getField log "data") "error") = true
            \/ getField log "level" = VStr "error"
            \/ exists s, getField log "message" = VStr s
                         /\ (includes "error" (toLowerCase s) = true
                             \/ includes "failed" (toLowerCase s) = true
                             \/ includes "exception" (toLowerCase s) = true))
  /\ (forall log,
        analyzeIsError log = Ok true
        <-> truthy (optField (getField log "data") "error") = true
            \/ exists s, getField log "message" = VStr s
                         /\ (includes "error" (toLowerCase s) = true
                             \/ includes "failed" (toLowerCase s) = true))
  /\ (forall log, analyzeIsError log = Ok true -> errorsIsError log = Ok true).
Proof.
  split; [|split; [|split; [|split]]].
  - intros errors. apply filterR_ok.
  - intros Htext. apply filterR_total.
    eapply Forall_impl; [|exact Htext]. intros log Hlog.
    unfold errorsIsError, orR, bind, messageIncludes.
    unfold messageIsText in Hlog.
    destruct (truthy _); [discriminate|].
    destruct (strictEqStr _ _); [discriminate|].
    destruct (getField log "message"); try discriminate.
    destruct (includes "error" _); [discriminate|].
    destruct (includes "failed" _); discriminate.
  - apply errorsIsError_true.
  - apply analyzeIsError_true.
  - intros log H. apply errorsIsError_true. apply analyzeIsError_true in H.
    destruct H as [H|(s & Hs & [H|H])]; [now left|right; right; eauto..].
Qed.

(** An entry whose message mentions an exception, and one whose level is
    ["error"]: [errors] prints both, the summary counts neither. *)
Lemma errors_view_selects_more :
  errorsCommand [logEntry "api" "Unhandled exception" [];
                 VObj [("namespace", VStr "db"); ("level", VStr "error");
                       ("message", VStr "connection lost")]]
  = Ok [logEntry "api" "Unhandled exception" [];
        VObj [("namespace", VStr "db"); ("level", VStr "error");
              ("message", VStr "connection lost")]]
  /\ analyzeErrors [logEntry "api" "Unhandled exception" [];
                    VObj [("namespace", VStr "db"); ("level", VStr "error");
                          ("message", VStr "connection lost")]]
     = Ok [].
Proof.
  vm_compute. split; reflexivity.
Qed.

(** ** The analysis views: performance *)

Lemma truthy_or (a b : value) : truthy (JS.or a b) = truthy a || truthy b.
Proof. unfold JS.or. now destruct (truthy a) eqn:Ha. Qed.

Lemma analyzeIsPerf_true (log : value) :
  analyzeIsPerf log = true
  <-> exists k, In k ["duration"; "elapsed"; "timing"]
                /\ truthy (optField (getField log "data") k) = true.
Proof.
  unfold analyzeIsPerf, durationOf. rewrite !truthy_or, !orb_true_iff.
  split.
  - intros [[H|H]|H]; eexists; (split; [|exact H]); simpl; auto.
  - intros (k & [<-|[<-|[<-|[]]]] & Hk); auto.
Qed.

(** C6: [perfCommand] selects, in file order, the entries whose namespace is
    exactly ["performance"] together with those the summary takes as
    performance entries; the latter are the entries whose [data] has a
    truthy [duration], [elapsed] or [timing]. *)
Theorem perf_view_selection (logs : list value) :
  perfLogs logs
  = filter (fun log => strictEqStr (getField log "namespace") "performance"
                       || analyzeIsPerf log) logs
  /\ (forall log,
        perfIsPerf log = true
        <-> getField log "namespace" = VStr "performance"
            \/ analyzeIsPerf log = true)
  /\ (forall log,
        analyzeIsPerf log = true
        <-> exists k, In k ["duration"; "elapsed"; "timing"]
                      /\ truthy (optField (getField log "data") k) = true)
  /\ (forall log, In log (analyzePerfLogs logs) -> In log (perfLogs logs)).
Proof.
  split; [reflexivity|]. split; [|split].
  - intros log. unfold perfIsPerf. fold (analyzeIsPerf log).
    rewrite orb_true_iff, strictEqStr_true. reflexivity.
  - apply analyzeIsPerf_true.
  - intros log. unfold analyzePerfLogs, perfLogs. rewrite !filter_In.
    intros [Hin Hperf]. split; [exact Hin|].
    unfold perfIsPerf. fold (analyzeIsPerf log). rewrite Hperf. apply orb_true_r.
Qed.

(** An entry in namespace ["performance"] without any timing field, and one
    whose [duration] is 0: [perf] selects the first, the summary neither. *)
Lemma perf_view_selects_by_namespace :
  perfLogs [logEntry "performance" "cache warmed" [];
            logEntry "api" "instant" [("duration", VNum 0)]]
  = [logEntry "performance" "cache warmed" []]
  /\ analyzePerfLogs [logEntry "performance" "cache warmed" [];
                      logEntry "api" "instant" [("duration", VNum 0)]]
     = [].
Proof.
  vm_compute. split; reflexivity.
Qed.

(** *** Grouping by operation *)

Lemma own_none (k : string) (operations : operationsT) :
  own k operations = None <-> ~ In k (keys operations).
Proof.
  unfold own, keys.
  induction operations as [|[k0 ds] operations IH]; simpl; [tauto|].
  destruct (k0 =? k) eqn:E.
  - apply String.eqb_eq in E. split; [discriminate|tauto].
  - apply String.eqb_neq in E. tauto.
Qed.

Lemma own_push (operations : operationsT) (k k' : string) (d : value) :
  own k (push operations k' d)
  = match own k operations with
    | Some ds => Some (if k' =? k then ds ++ [d] else ds)
    | None => None
    end.
Proof.
  unfold own.
  induction operations as [|[k0 ds] operations IH]; simpl; [reflexivity|].
  destruct (k0 =? k') eqn:E0; simpl; destruct (k0 =? k) eqn:E1.
  - apply String.eqb_eq in E0, E1. subst. now rewrite String.eqb_refl.
  - apply String.eqb_eq in E0. subst k0. rewrite E1.
    now destruct (lookup k operations).
  - apply String.eqb_eq in E1. subst k0.
    rewrite String.eqb_sym in E0. now rewrite E0.
  - exact IH.
Qed.

Lemma keys_push (operations : operationsT) (k : string) (d : value) :
  keys (push operations k d) = keys operations.
Proof.
  unfold keys.
  induction operations as [|[k0 ds] operations IH]; simpl; [reflexivity|].
  destruct (k0 =? k); simpl; now rewrite ?IH.
Qed.

Lemma own_added (operations : operationsT) (k k' : string) :
  own k (operations ++ [(k', [])])
  = match own k operations with
    | Some ds => Some ds
    | None => if k' =? k then Some [] else None
    end.
Proof.
  unfold own.
  induction operations as [|[k0 ds] operations IH]; simpl; [reflexivity|].
  now destruct (k0 =? k).
Qed.

Lemma durationsFor_cons (op : string) (log : value) (logs : list value) :
  durationsFor op (log :: logs)
  = (if isKey (opOf log) op && truthy (durationOf log)
     then [durationOf log] else [])
    ++ durationsFor op logs.
Proof. reflexivity. Qed.

Lemma durationsFor_app (op : string) (logs1 logs2 : list value) :
  durationsFor op (logs1 ++ logs2) = durationsFor op logs1 ++ durationsFor op logs2.
Proof. unfold durationsFor. apply flat_map_app. Qed.

Lemma durationsFor_absent (op : string) (logs : list value) :
  existsb (fun log => isKey (opOf log) op) logs = false ->
  durationsFor op logs = [].
Proof.
  induction logs as [|log logs IH]; intros H; [reflexivity|].
  simpl in H. apply orb_false_iff in H as [H1 H2].
  rewrite durationsFor_cons, H1, IH by exact H2. reflexivity.
Qed.

(** One entry: its operation gets a property unless [Object.prototype]
    already answers for that name, and a truthy duration is pushed to it. *)
Lemma groupStep_own (operations operations' : operationsT) (log : value) :
  groupStep operations log = Ok operations' ->
  forall k,
  own k operations'
  = match own k operations with
    | Some ds => Some (ds ++ durationsFor k [log])
    | None =>
        if negb (inherited k) && isKey (opOf log) k
        then Some (durationsFor k [log]) else None
    end.
Proof.
  unfold groupStep. fold (opOf log).
  intros Hstep k. rewrite durationsFor_cons, app_nil_r.
  destruct (opOf log) as [op|]; [|discriminate]. cbn [bind isKey] in *.
  destruct (own op operations) as [ds0|] eqn:Hown;
    [|destruct (inherited op) eqn:Hinh];
    destruct (truthy (durationOf log)) eqn:Hd;
    rewrite ?own_added, ?Hown, ?String.eqb_refl in Hstep; try discriminate;
    injection Hstep as <-;
    rewrite ?own_push, ?own_added;
    (destruct (op =? k) eqn:E;
     [apply String.eqb_eq in E; subst k; rewrite ?Hown, ?Hinh
     |destruct (own k operations)]);
    simpl; rewrite ?app_nil_r, ?andb_false_r, ?andb_true_r; reflexivity.
Qed.

Lemma groupStep_wellKeyed (operations operations' : operationsT) (log : value) :
  groupStep operations log = Ok operations' ->
  wellKeyed operations ->
  wellKeyed operations'
  /\ (forall op, opOf log = Ok op -> inherited op = true ->
      truthy (durationOf log) = false).
Proof.
  intros Hstep [Hnd Hinh]. split; [split|].
  - revert Hstep. unfold groupStep. fold (opOf log).
    destruct (opOf log) as [op|]; [|discriminate]. cbn [bind].
    destruct (own op operations) as [ds0|] eqn:Hown.
    + destruct (truthy (durationOf log)).
      * rewrite Hown. intros [= <-]. now rewrite keys_push.
      * now intros [= <-].
    + assert (Hadd : NoDup (keys (operations ++ [(op, [])]))).
      { unfold keys in *. rewrite map_app. simpl.
        apply NoDup_app; [exact Hnd|repeat constructor; auto|].
        intros x Hx [<-|[]]. now apply own_none in Hown. }
      destruct (inherited op).
      * destruct (truthy (durationOf log)); [rewrite Hown; discriminate|].
        now intros [= <-].
      * destruct (truthy (durationOf log)).
        -- rewrite own_added, Hown, String.eqb_refl. intros [= <-].
           now rewrite keys_push.
        -- now intros [= <-].
  - intros k Hk. rewrite (groupStep_own _ _ _ Hstep), (Hinh k Hk), Hk. reflexivity.
  - intros op Hop Hk. revert Hstep. unfold groupStep. fold (opOf log).
    rewrite Hop. cbn [bind].
    rewrite (Hinh _ Hk), Hk.
    destruct (truthy (durationOf log)); [rewrite (Hinh _ Hk); discriminate|reflexivity].
Qed.

Lemma groupOperations_own (logs : list value) :
  forall operations operations',
  groupOperations operations logs = Ok operations' ->
  wellKeyed operations ->
  wellKeyed operations'
  /\ forall k,
       own k operations'
       = match own k operations with
         | Some ds => Some (ds ++ durationsFor k logs)
         | None =>
             if negb (inherited k)
                && existsb (fun log => isKey (opOf log) k) logs
             then Some (durationsFor k logs) else None
         end
       /\ (inherited k = true -> durationsFor k logs = []).
Proof.
  induction logs as [|log logs IH]; intros operations operations' Hgroup Hwk.
  - simpl in Hgroup. injection Hgroup as <-. split; [exact Hwk|].
    intros k. split; [|reflexivity].
    destruct (own k operations); [now rewrite app_nil_r|now rewrite andb_false_r].
  - simpl in Hgroup.
    destruct (groupStep operations log) as [operations1|] eqn:Hstep;
      [|discriminate].
    simpl in Hgroup.
    destruct (groupStep_wellKeyed _ _ _ Hstep Hwk) as [Hwk1 Hthrow].
    destruct (IH _ _ Hgroup Hwk1) as [Hwk' Hown].
    split; [exact Hwk'|]. intros k.
    destruct (Hown k) as [Hk Hnone].
    rewrite (groupStep_own _ _ _ Hstep) in Hk.
    rewrite (durationsFor_cons k log logs), durationsFor_cons, app_nil_r in *.
    split.
    + rewrite Hk. simpl existsb.
      destruct (own k operations) as [ds|]; [now rewrite app_assoc|].
      destruct (inherited k) eqn:Hinh; simpl; [reflexivity|].
      destruct (isKey (opOf log) k); simpl; reflexivity.
    + intros Hinh. rewrite (Hnone Hinh), app_nil_r.
      destruct (opOf log) as [op|] eqn:Hop; [|reflexivity]. cbn [isKey].
      destruct (op =? k) eqn:E; [|reflexivity].
      apply String.eqb_eq in E. subst k. now rewrite (Hthrow op eq_refl Hinh).
Qed.

Lemma reportOf_lookup (operations : operationsT) (op : string) :
  NoDup (keys operations) ->
  lookup op (reportOf operations)
  = match own op operations with
    | Some (d :: ds) => Some (statsOf (d :: ds))
    | _ => None
    end.
Proof.
  unfold own, keys.
  induction operations as [|[k ds] operations IH]; simpl; intros Hnd;
    [reflexivity|].
  apply NoDup_cons_iff in Hnd as [Hk Hnd].
  destruct (k =? op) eqn:E.
  - apply String.eqb_eq in E. subst k.
    destruct ds as [|d ds]; simpl.
    + rewrite IH by exact Hnd.
      apply (own_none op operations) in Hk. unfold own in Hk. now rewrite Hk.
    + now rewrite String.eqb_refl.
  - destruct (0 <? List.length ds)%nat; simpl; rewrite ?E; now apply IH.
Qed.

(** The blocks of "Performance by operation", by operation: the statistics
    of the durations collected for it, when there is one. *)
Lemma perfCommand_report (logs : list value) (found : nat)
    (report : list (string * opStats)) :
  perfCommand logs = Ok (found, Some report) ->
  found = List.length (perfLogs logs)
  /\ forall op,
       lookup op report
       = match durationsFor op (perfLogs logs) with
         | [] => None
         | d :: ds => Some (statsOf (d :: ds))
         end.
Proof.
  unfold perfCommand.
  destruct (List.length (perfLogs logs) =? 0)%nat; [discriminate|].
  destruct (groupOperations [] (perfLogs logs)) as [operations|] eqn:Hgroup;
    [|discriminate].
  simpl. destruct (forallb _ operations); [|discriminate].
  intros [= <- <-]. split; [reflexivity|]. intros op.
  assert (Hwk : wellKeyed []) by (split; [constructor|reflexivity]).
  destruct (groupOperations_own _ _ _ Hgroup Hwk) as [[Hnd _] Hown].
  destruct (Hown op) as [Hop Hinh].
  rewrite reportOf_lookup by exact Hnd. rewrite Hop. simpl.
  destruct (inherited op) eqn:Ei; simpl.
  - now rewrite (Hinh eq_refl).
  - destruct (existsb (fun log => isKey (opOf log) op) (perfLogs logs)) eqn:Ee;
      [reflexivity|].
    now rewrite durationsFor_absent.
Qed.

(** The grouping of [perfCommand] goes through whenever the message of
    every matching entry can be converted to a string, and none is filed
    under a name that [Object.prototype] defines. *)
Lemma groupOperations_total (matched : list value) :
  forall operations,
  Forall (fun log => exists op, opOf log = Ok op /\ inherited op = false)
         matched ->
  exists operations', groupOperations operations matched = Ok operations'.
Proof.
  induction matched as [|log matched IH]; intros operations Hm; simpl.
  - eauto.
  - inversion Hm as [|? ? (op & Hop & Hlog) Hrest]; subst.
    assert (Hstep : exists o, groupStep operations log = Ok o).
    { unfold groupStep. fold (opOf log). rewrite Hop. cbn [bind]. rewrite Hlog.
      destruct (own op operations) as [ds|] eqn:Hown.
      - destruct (truthy (durationOf log)); [rewrite Hown|]; eauto.
      - destruct (truthy (durationOf log)); [|eauto].
        rewrite own_added, Hown, String.eqb_refl. eauto. }
    destruct Hstep as [o ->]. simpl. apply IH. exact Hrest.
Qed.

(** C5: let an entry that [perf] matches have no truthy [duration],
    [elapsed] or [timing].  It is counted in the number of matches the
    command reports, but in no operation's figures: each block is the
    statistics (count, average, maximum, minimum) of the durations collected
    for its operation, exactly as if the entry were not in the file, the
    count being the number of those durations, and an operation without any
    duration has no block. *)
Theorem perf_entry_without_duration
    (before after : list value) (entry : value)
    (found : nat) (report : list (string * opStats)) :
  perfIsPerf entry = true ->
  truthy (durationOf entry) = false ->
  perfCommand (before ++ entry :: after) = Ok (found, Some report) ->
  found = S (List.length (perfLogs (before ++ after)))
  /\ (forall op,
        lookup op report
        = match durationsFor op (perfLogs (before ++ after)) with
          | [] => None
          | d :: ds => Some (statsOf (d :: ds))
          end)
  /\ (forall op stats,
        lookup op report = Some stats ->
        stat_count stats
        = List.length (durationsFor op (perfLogs (before ++ after)))
        /\ (0 < stat_count stats)%nat).
Proof.
  intros Hperf Hnone Hcmd.
  destruct (perfCommand_report _ _ _ Hcmd) as [Hfound Hreport].
  assert (Hlogs : perfLogs (before ++ entry :: after)
                  = perfLogs before ++ entry :: perfLogs after).
  { unfold perfLogs. rewrite filter_app. simpl. now rewrite Hperf. }
  assert (Hdur : forall op,
             durationsFor op (perfLogs (before ++ entry :: after))
             = durationsFor op (perfLogs (before ++ after))).
  { intros op. rewrite Hlogs. unfold perfLogs. rewrite filter_app.
    rewrite !durationsFor_app, durationsFor_cons, Hnone, andb_false_r.
    reflexivity. }
  split; [|split].
  - rewrite Hfound, Hlogs. unfold perfLogs.
    rewrite filter_app, !length_app. simpl. lia.
  - intros op. now rewrite Hreport, Hdur.
  - intros op stats. rewrite Hreport, Hdur.
    destruct (durationsFor op (perfLogs (before ++ after))) as [|d ds];
      [discriminate|].
    intros [= <-]. split; [reflexivity|apply Nat.lt_0_succ].
Qed.

Lemma perf_entry_without_duration_witness :
  4%nat = S (List.length (perfLogs (perfBefore ++ perfAfter)))
  /\ (forall op,
        lookup op [("op", statsOf [VNum 10; VNum 30])]
        = match durationsFor op (perfLogs (perfBefore ++ perfAfter)) with
          | [] => None
          | d :: ds => Some (statsOf (d :: ds))
          end)
  /\ (forall op stats,
        lookup op [("op", statsOf [VNum 10; VNum 30])] = Some stats ->
        stat_count stats
        = List.length (durationsFor op (perfLogs (perfBefore ++ perfAfter)))
        /\ (0 < stat_count stats)%nat).
Proof.
  apply (perf_entry_without_duration perfBefore perfAfter perfBare 4
           [("op", statsOf [VNum 10; VNum 30])]).
  - reflexivity.
  - reflexivity.
  - reflexivity.
Defined.

(** Two matching entries under one message, the second without any timing
    field: the command finds 2 and the block of the operation counts 1. *)
Lemma perf_group_count_skips_entry :
  perfCommand [logEntry "performance" "op" [("duration", VNum 10)];
               logEntry "performance" "op" []]
  = Ok (2%nat,
        Some [("op", {| stat_count := 1; stat_avg := Some (10 # 1)%Q;
                        stat_max := Some 10%Z; stat_min := Some 10%Z |})]).
Proof.
  reflexivity.
Qed.

(** Three entries of 10, 20 and 30 under one message: count 3, average
    60/3, minimum 10, maximum 30. *)
Example perf_three_durations :
  perfCommand [logEntry "api" "op" [("duration", VNum 10)];
               logEntry "api" "op" [("duration", VNum 20)];
               logEntry "api" "op" [("duration", VNum 30)]]
  = Ok (3%nat,
        Some [("op", {| stat_count := 3; stat_avg := Some (60 # 3)%Q;
                        stat_max := Some 30%Z; stat_min := Some 10%Z |})])
  /\ ((60 # 3) == 20)%Q.
Proof.
  split; reflexivity.
Qed.

(** A message that fails and a payload with an error: both are printed, in
    file order, around an entry that is none. *)
Example errors_two_kinds :
  errorsCommand [logEntry "api" "Request failed" [];
                 logEntry "api" "ok" [("status", VNum 200)];
                 logEntry "db" "query" [("error", VStr "timeout")]]
  = Ok [logEntry "api" "Request failed" [];
        logEntry "db" "query" [("error", VStr "timeout")]].
Proof.
  reflexivity.
Qed.

Lemma null_stream_buffer_only_grows_witness :
  fileStream (FileWriter.run RefJSON.stringify closedWriter sampleCalls) = None
  /\ buffer (FileWriter.run RefJSON.stringify closedWriter sampleCalls)
     = buffer closedWriter
       ++ acceptedEntries (mode closedWriter) (currentRequestId closedWriter)
            sampleCalls
  /\ List.length (buffer (FileWriter.run RefJSON.stringify closedWriter sampleCalls))
     = (List.length (buffer closedWriter)
        + List.length (filter (accepted (mode closedWriter)) sampleCalls))%nat
  /\ (forall bound : nat,
        exists more,
          (bound < List.length
                     (buffer (FileWriter.run RefJSON.stringify closedWriter
                                (sampleCalls ++ more))))%nat).
Proof.
  apply (null_stream_buffer_only_grows RefJSON.stringify closedWriter sampleCalls).
  reflexivity.
Defined.

(** On that writer three calls are accepted, and the buffer holds three
    entries although the threshold is 2. *)
Example null_stream_buffer_passes_threshold :
  List.length (buffer (FileWriter.run RefJSON.stringify closedWriter sampleCalls))
  = 3%nat
  /\ maxBufferSize closedWriter = 2%Z.
Proof.
  split; reflexivity.
Qed.

Lemma flush_writes_buffer_once_witness :
  exists lines,
    linesOf RefJSON.stringify (buffer openWriter) = Some lines
    /\ fileStream (FileWriter.flush RefJSON.stringify openWriter)
       = Some ([sessionHeader "2024-01-01T00:00:00.000Z"] ++ lines)
    /\ List.length lines = List.length (buffer openWriter)
    /\ buffer (FileWriter.flush RefJSON.stringify openWriter) = []
    /\ FileWriter.flush RefJSON.stringify
         (FileWriter.flush RefJSON.stringify openWriter)
       = FileWriter.flush RefJSON.stringify openWriter.
Proof.
  eexists. split; [vm_compute; reflexivity|].
  destruct (flush_writes_buffer_once RefJSON.stringify openWriter) as (_ & Hopen & _).
  destruct (Hopen [sessionHeader "2024-01-01T00:00:00.000Z"]) as [Hok _].
  - discriminate.
  - reflexivity.
  - apply Hok. vm_compute. reflexivity.
Defined.

(** A buffer whose second entry holds a [BigInt]: each [flush] writes the
    line of the first entry again and leaves both entries in the buffer, so
    that after two of them the stream holds that line twice and the second
    entry not at all. *)
Lemma unserializable_entry_blocks_flush :
  exists first second line,
    buffer blockedWriter = [first; second]
    /\ lineOf RefJSON.stringify first = Some line
    /\ lineOf RefJSON.stringify second = None
    /\ fileStream blockedWriter = Some [sessionHeader "2024-01-01T00:00:00.000Z"]
    /\ fileStream (FileWriter.flush RefJSON.stringify blockedWriter)
       = Some [sessionHeader "2024-01-01T00:00:00.000Z"; line]
    /\ buffer (FileWriter.flush RefJSON.stringify blockedWriter)
       = [first; second]
    /\ fileStream (FileWriter.flush RefJSON.stringify
                     (FileWriter.flush RefJSON.stringify blockedWriter))
       = Some [sessionHeader "2024-01-01T00:00:00.000Z"; line; line]
    /\ buffer (FileWriter.flush RefJSON.stringify
                 (FileWriter.flush RefJSON.stringify blockedWriter))
       = [first; second].
Proof.
  do 3 eexists. split; [vm_compute; reflexivity|].
  split; [vm_compute; reflexivity|]. repeat split.
Qed.

Lemma minimal_threshold_two_scenario_witness :
  let e1 := {| timestamp := "t1"; namespace := "performance"; message := "op1";
               data := VObj [("duration", VNum 10)]; metadata := None |} in
  let e2 := {| timestamp := "t3"; namespace := "performance"; message := "op2";
               data := VObj [("duration", VNum 20)]; metadata := None |} in
  let line1 := (RefJSON.print (entryValue e1) ++ newline)%string in
  let line2 := (RefJSON.print (entryValue e2) ++ newline)%string in
  let w0 := constructor {| cfg_path := Some "/tmp/app.log";
                           cfg_mode := Some Minimal;
                           cfg_maxBufferSize := Some 2%Z |} true "t0" in
  let w1 := FileWriter.write RefJSON.stringify w0 "t1" "performance" "op1"
              (VObj [("duration", VNum 10)]) in
  let w2 := FileWriter.write RefJSON.stringify w1 "t2" "debug" "x" VUndefined in
  let w3 := FileWriter.write RefJSON.stringify w2 "t3" "performance" "op2"
              (VObj [("duration", VNum 20)]) in
  (mode w0 = Minimal /\ maxBufferSize w0 = 2%Z /\ buffer w0 = []
   /\ fileStream w0 = Some [sessionHeader "t0"])
  /\ (buffer w1 = [e1] /\ fileStream w1 = Some [sessionHeader "t0"])
  /\ (shouldWrite Minimal "debug" VUndefined = false /\ w2 = w1)
  /\ (fileStream w3 = Some [sessionHeader "t0"; line1; line2]
      /\ buffer w3 = []).
Proof.
  intros e1 e2 line1 line2.
  apply (minimal_threshold_two_scenario RefJSON.stringify
           "/tmp/app.log" "t0" "t1" "t2" "t3" line1 line2);
    reflexivity.
Defined.

(** * Further properties *)

(** ** The buffered writer: thresholds and shutdown *)

Section WriterThreshold.

Variable JSON_stringify : value -> option string.

#[local] Abbreviation flush := (flush JSON_stringify).
#[local] Abbreviation write := (write JSON_stringify).
#[local] Abbreviation run := (run JSON_stringify).
#[local] Abbreviation step := (step JSON_stringify).
#[local] Abbreviation destroy := (destroy JSON_stringify).
#[local] Abbreviation linesOf := (linesOf JSON_stringify).
#[local] Abbreviation linesBefore := (linesBefore JSON_stringify).

Lemma write_maxBufferSize (w : DebugFileWriter) (now ns msg : string) (d : value) :
  maxBufferSize (write w now ns msg d) = maxBufferSize w.
Proof.
  apply (step_maxBufferSize JSON_stringify w (Write now ns msg d)). reflexivity.
Qed.

Lemma accepted_calls_keep_writer (calls : list call) (m : FileMode) :
  forallb (accepted m) calls = true ->
  forallb (fun c => negb (isDestroy c)) calls = true
  /\ List.length (filter (accepted m) calls) = List.length calls.
Proof.
  induction calls as [|c calls IH]; simpl; [auto|].
  intros H. apply andb_prop in H as [Hc Hrest].
  destruct (IH Hrest) as [I1 I2]. rewrite Hc, I1, andb_true_r. simpl.
  split; [now destruct c|now rewrite I2].
Qed.

Lemma linesBefore_all (entries : list DebugFileEntry) (lines : list string) :
  linesOf entries = Some lines -> linesBefore entries = lines.
Proof.
  revert lines. induction entries as [|e entries IH]; intros lines; simpl.
  - now intros [= <-].
  - destruct (lineOf JSON_stringify e); [|discriminate].
    destruct (linesOf entries) as [ls|]; [|discriminate].
    intros [= <-]. now rewrite (IH ls).
Qed.

(** X1: on an open stream whose buffer is below a threshold that is a whole
    number of at least 1, a run of accepted [write] calls whose entries can
    all be serialized leaves in the buffer the number of entries, old and
    new, modulo the threshold; all the others have been written, in order,
    each flush being triggered by the call that reached the threshold. *)
Theorem buffer_length_modulo_threshold (calls : list call) :
  forall w lines,
  fileStream w <> None ->
  (1 <= maxBufferSize w)%Z ->
  (Z.of_nat (List.length (buffer w)) < maxBufferSize w)%Z ->
  forallb (accepted (mode w)) calls = true ->
  linesOf (buffer w ++ acceptedEntries (mode w) (currentRequestId w) calls)
  = Some lines ->
  Z.of_nat (List.length (buffer (run w calls)))
  = ((Z.of_nat (List.length (buffer w)) + Z.of_nat (List.length calls))
     mod maxBufferSize w)%Z
  /\ (List.length (persisted (run w calls)) + List.length (buffer (run w calls))
      = List.length (persisted w) + List.length (buffer w) + List.length calls)%nat
  /\ exists pending,
       linesOf (buffer (run w calls)) = Some pending
       /\ persisted (run w calls) ++ pending = persisted w ++ lines.
Proof.
  intros w lines Hopen Hmax Hlt Hacc Hlines.
  destruct (accepted_calls_keep_writer calls (mode w) Hacc) as [Hnd Hall].
  destruct (run_keeps_lines JSON_stringify calls w lines Hopen Hnd Hlines)
    as (_ & pending & P1 & P2).
  split; [|split; [|exists pending; auto]].
  - clear pending P1 P2 Hnd Hall.
    revert w lines Hopen Hmax Hlt Hacc Hlines.
    induction calls as [|c calls IH]; intros w lines Hopen Hmax Hlt Hacc Hlines.
    + simpl. rewrite Z.add_0_r. symmetry. apply Z.mod_small. lia.
    + cbn [forallb] in Hacc. apply andb_prop in Hacc as [Hc Hrest].
      destruct c as [now ns msg d| | |id|]; try discriminate. simpl in Hc.
      rewrite acceptedEntries_cons, app_assoc, linesOf_app in Hlines.
      destruct (linesOf (buffer w ++ acceptedEntries (mode w) (currentRequestId w)
                                       [Write now ns msg d]))
        as [lines1|] eqn:Hl1; [|discriminate].
      destruct (linesOf (acceptedEntries (mode w) (currentRequestId w) calls))
        as [lines2|] eqn:Hl2; [|discriminate].
      destruct (step_keeps_lines JSON_stringify w (Write now ns msg d) lines1
                  Hopen eq_refl Hl1) as (H1 & (pending1 & P1 & _) & H3).
      cbn [FileWriter.step] in H1, P1, H3.
      unfold FileWriter.run. cbn [fold_left FileWriter.step].
      change (fold_left step calls (write w now ns msg d))
        with (run (write w now ns msg d) calls).
      assert (Hmode : mode (write w now ns msg d) = mode w)
        by apply (step_mode JSON_stringify w (Write now ns msg d)).
      assert (Hlen : Z.of_nat (List.length (buffer (write w now ns msg d)))
                     = ((Z.of_nat (List.length (buffer w)) + 1)
                        mod maxBufferSize w)%Z).
      { cbn [acceptedEntries] in Hl1. rewrite Hc in Hl1.
        unfold FileWriter.write. rewrite Hc. cbn [negb].
        cbv zeta. cbn [FileWriter.buffer set_buffer FileWriter.maxBufferSize].
        rewrite length_app. cbn [List.length].
        destruct (_ <=? _)%Z eqn:Hfull.
        - apply Z.leb_le in Hfull.
          rewrite (proj2 (flush_stream_state JSON_stringify _));
            [|exact Hopen|cbn [FileWriter.buffer set_buffer]; congruence].
          simpl List.length.
          replace (Z.of_nat (List.length (buffer w)) + 1)%Z
            with (maxBufferSize w) by lia.
          now rewrite Z.mod_same by lia.
        - apply Z.leb_gt in Hfull.
          cbn [FileWriter.buffer set_buffer].
          rewrite length_app. cbn [List.length].
          rewrite Z.mod_small by lia. lia. }
      rewrite (IH (write w now ns msg d) (pending1 ++ lines2)).
      * rewrite write_maxBufferSize, Hlen.
        rewrite Z.add_mod_idemp_l by lia. f_equal.
        cbn [List.length]. lia.
      * exact H1.
      * now rewrite write_maxBufferSize.
      * rewrite write_maxBufferSize, Hlen. apply Z.mod_pos_bound. lia.
      * now rewrite Hmode.
      * now rewrite linesOf_app, P1, Hmode, H3, Hl2.
  - apply (f_equal (@List.length string)) in P2.
    rewrite !length_app in P2.
    rewrite (linesOf_length JSON_stringify _ _ P1) in P2.
    rewrite (linesOf_length JSON_stringify _ _ Hlines) in P2.
    rewrite length_app, acceptedEntries_length, Hall in P2.
    lia.
Qed.

(** X3: [destroy] stops the timer and leaves the stream [null].  A stream
    that was open is ended after it has received the lines of the pending
    entries, in order, up to the first entry that cannot be serialized:
    when all of them can, it has received them all and the buffer is empty,
    and otherwise the buffer is kept.  A [null] stream keeps its buffer.  A
    second [destroy] changes nothing, and neither does a later tick of the
    timer. *)
Theorem destroy_closes_once (w : DebugFileWriter) :
  fileStream (destroy w) = None
  /\ flushInterval (destroy w) = false
  /\ (forall written,
        fileStream w = Some written ->
        ended (destroy w) = Some (written ++ linesBefore (buffer w))
        /\ (forall lines,
              linesOf (buffer w) = Some lines ->
              ended (destroy w) = Some (written ++ lines)
              /\ buffer (destroy w) = [])
        /\ (linesOf (buffer w) = None -> buffer (destroy w) = buffer w))
  /\ (fileStream w = None ->
      buffer (destroy w) = buffer w /\ ended (destroy w) = ended w)
  /\ destroy (destroy w) = destroy w
  /\ step (destroy w) Tick = destroy w.
Proof.
  assert (Hshape : forall w0,
            fileStream (destroy w0) = None
            /\ flushInterval (destroy w0) = false
            /\ buffer (destroy w0) = buffer (flush w0)
            /\ ended (destroy w0)
               = match fileStream (flush w0) with
                 | Some written => Some written
                 | None => ended w0
                 end).
  { intros w0. unfold FileWriter.destroy.
    set (w1 := if flushInterval w0 then set_flushInterval w0 false else w0).
    assert (H1 : flushInterval w1 = false)
      by (subst w1; destruct (flushInterval w0) eqn:E; [reflexivity|exact E]).
    assert (H2 : buffer (flush w1) = buffer (flush w0)
                 /\ fileStream (flush w1) = fileStream (flush w0)
                 /\ ended w1 = ended w0).
    { subst w1. destruct (flushInterval w0); [|auto].
      unfold FileWriter.flush. simpl.
      destruct (buffer w0) as [|e entries]; [auto|].
      destruct (fileStream w0) as [written|]; [|auto].
      destruct (writeEntries JSON_stringify written (e :: entries)) as [written' []];
        auto. }
    destruct H2 as (H2 & H4 & H5).
    destruct (flush_fields JSON_stringify w1) as (_ & _ & H3 & _ & _ & H6).
    rewrite <- H4, <- H2, <- H5.
    destruct (fileStream (flush w1)) eqn:Hfs; simpl; rewrite ?H3, ?H1, ?Hfs, ?H6;
      auto. }
  destruct (Hshape w) as (H1 & H2 & H3 & H4).
  split; [exact H1|]. split; [exact H2|]. split; [|split; [|split]].
  - intros written Hopen.
    destruct (linesOf (buffer w)) as [lines|] eqn:Hlines.
    + assert (Hflush : fileStream (flush w) = Some (written ++ lines)
                       /\ buffer (flush w) = []).
      { destruct (buffer w) as [|e entries] eqn:Hbuf.
        - rewrite flush_empty by exact Hbuf. simpl in Hlines.
          injection Hlines as <-. rewrite app_nil_r. auto.
        - now rewrite (flush_open JSON_stringify w written lines)
            by congruence. }
      destruct Hflush as [F1 F2].
      rewrite H4, H3, F1, F2, (linesBefore_all _ _ Hlines).
      split; [reflexivity|]. split; [|discriminate].
      intros lines' [= <-]. auto.
    + rewrite H4, H3, (flush_blocked JSON_stringify w written Hopen Hlines).
      simpl. split; [reflexivity|]. split; [discriminate|reflexivity].
  - intros Hnull. rewrite H3, H4, flush_closed by exact Hnull.
    now rewrite Hnull.
  - unfold FileWriter.destroy at 1. rewrite H2.
    rewrite flush_closed by exact H1. now rewrite H1.
  - simpl. now rewrite H2.
Qed.

End WriterThreshold.

Lemma buffer_length_modulo_threshold_witness :
  exists lines,
    linesOf RefJSON.stringify
      (buffer thresholdWriter
       ++ acceptedEntries (mode thresholdWriter)
            (currentRequestId thresholdWriter) sevenWrites)
    = Some lines
    /\ Z.of_nat (List.length (buffer (FileWriter.run RefJSON.stringify
                                        thresholdWriter sevenWrites)))
       = ((Z.of_nat (List.length (buffer thresholdWriter))
           + Z.of_nat (List.length sevenWrites))
          mod maxBufferSize thresholdWriter)%Z
    /\ (List.length (persisted (FileWriter.run RefJSON.stringify
                                  thresholdWriter sevenWrites))
        + List.length (buffer (FileWriter.run RefJSON.stringify
                                 thresholdWriter sevenWrites))
        = List.length (persisted thresholdWriter)
          + List.length (buffer thresholdWriter) + List.length sevenWrites)%nat
    /\ exists pending,
         linesOf RefJSON.stringify
           (buffer (FileWriter.run RefJSON.stringify thresholdWriter sevenWrites))
         = Some pending
         /\ persisted (FileWriter.run RefJSON.stringify thresholdWriter sevenWrites)
            ++ pending
            = persisted thresholdWriter ++ lines.
Proof.
  eexists. split; [vm_compute; reflexivity|].
  apply (buffer_length_modulo_threshold RefJSON.stringify sevenWrites
           thresholdWriter).
  - discriminate.
  - vm_compute. discriminate.
  - vm_compute. reflexivity.
  - reflexivity.
  - vm_compute. reflexivity.
Defined.

Lemma open_stream_buffer_bounded_witness :
  (Z.of_nat (List.length
               (buffer (FileWriter.run RefJSON.stringify thresholdWriter
                          (sevenWrites ++ [Tick; SetRequestId (Some "r"); Flush]
                           ++ sevenWrites))))
   < Z.max 1 (maxBufferSize thresholdWriter))%Z.
Proof.
  apply (open_stream_buffer_bounded RefJSON.stringify).
  - discriminate.
  - reflexivity.
  - vm_compute. discriminate.
  - vm_compute. reflexivity.
Defined.

(** ** Shaping: what [detailed] lets through *)

Lemma length_append (s1 s2 : string) :
  String.length (s1 ++ s2) = (String.length s1 + String.length s2)%nat.
Proof. induction s1 as [|c s1 IH]; simpl; [reflexivity|now rewrite IH]. Qed.

Lemma length_substring_0 (s : string) :
  forall n, (n <= String.length s)%nat -> String.length (substring 0 n s) = n.
Proof.
  induction s as [|c s IH]; intros [|n] Hn; simpl in *; try reflexivity; try lia.
  rewrite IH; lia.
Qed.

Lemma assign_length (props : list (string * value)) (k : string) (v : value) :
  (List.length (assign props k v) <= S (List.length props))%nat.
Proof.
  unfold assign. destruct (k =? "__proto__"); [lia|].
  induction props as [|[k0 v0] props IH]; simpl; [lia|].
  destruct (k0 =? k); simpl; lia.
Qed.

Lemma assign_forallb (P : value -> bool) (props : list (string * value))
    (k : string) (v : value) :
  forallb (fun p => P (snd p)) props = true -> P v = true ->
  forallb (fun p => P (snd p)) (assign props k v) = true.
Proof.
  intros Hprops Hv. unfold assign. destruct (k =? "__proto__"); [exact Hprops|].
  induction props as [|[k0 v0] props IH]; simpl in *; [now rewrite Hv|].
  apply andb_prop in Hprops as [H0 Hrest].
  destruct (k0 =? k); simpl; [now rewrite Hv, Hrest|].
  now rewrite H0, IH.
Qed.

Lemma truncateProps_bounded (trunc : value -> value) (P : value -> bool)
    (entries : list (string * value)) :
  (forall v, P (trunc v) = true) ->
  P (VStr "truncated") = true ->
  forall count truncated,
  (List.length truncated <= count <= 11)%nat ->
  forallb (fun p => P (snd p)) truncated = true ->
  (List.length (truncateProps trunc count truncated entries) <= 12)%nat
  /\ forallb (fun p => P (snd p)) (truncateProps trunc count truncated entries)
     = true.
Proof.
  intros Htrunc Hmark.
  induction entries as [|[k v] entries IH]; intros count truncated Hlen Hall.
  - simpl. split; [lia|exact Hall].
  - rewrite truncateProps_cons. destruct (10 <? count)%nat eqn:E.
    + split.
      * pose proof (assign_length truncated "..." (VStr "truncated")). lia.
      * now apply assign_forallb.
    + apply Nat.ltb_ge in E. apply IH.
      * pose proof (assign_length truncated k (trunc v)).
        unfold copyProp. simpl. lia.
      * unfold copyProp. simpl. now apply assign_forallb.
Qed.

Lemma truncateLevels_bounded (levels : nat) :
  forall data, bounded levels (truncateLevels levels data) = true.
Proof.
  induction levels as [|levels IH]; intros data; [reflexivity|].
  destruct data as [| | | | |s|items|props]; try reflexivity.
  - (* a string *)
    simpl. destruct (200 <? String.length s)%nat eqn:E; simpl.
    + apply Nat.ltb_lt in E.
      rewrite length_append, length_substring_0 by lia. reflexivity.
    + apply Nat.ltb_ge in E. apply Nat.leb_le. lia.
  - (* an array *)
    cbn [truncateLevels bounded]. apply andb_true_intro. split.
    + apply Nat.leb_le. rewrite length_map. apply firstn_le_length.
    + apply forallb_forall. intros v Hv. apply in_map_iff in Hv as (x & <- & _).
      apply IH.
  - (* an object *)
    cbn [truncateLevels bounded].
    destruct (truncateProps_bounded (truncateLevels levels) (bounded levels) props)
      with (count := 0%nat) (truncated := @nil (string * value)) as [Hlen Hall];
      [exact IH|now destruct levels|simpl; lia|reflexivity|].
    rewrite Hall, andb_true_r. now apply Nat.leb_le.
Qed.

(** X4: whatever the payload, what [detailed] stores has containers nested
    at most 3 deep, arrays of at most 5 items, objects of at most 12
    properties and strings of at most 214 characters, at every level. *)
Theorem detailed_payload_is_bounded (data : value) :
  bounded 3 (processData Detailed data) = true.
Proof.
  apply (truncateLevels_bounded 3).
Qed.

Lemma distinct_NoDup (ks : list string) : distinct ks = true -> NoDup ks.
Proof.
  induction ks as [|k ks IH]; simpl; intros H; [constructor|].
  apply andb_prop in H as [Hk Hrest]. constructor; [|now apply IH].
  intros Hin. apply negb_true_iff in Hk.
  assert (Hex : existsb (String.eqb k) ks = true)
    by (apply existsb_exists; exists k; split; [exact Hin|apply String.eqb_refl]).
  congruence.
Qed.

Lemma truncateLevels_fits (levels : nat) :
  forall data, fits levels data = true -> truncateLevels levels data = data.
Proof.
  induction levels as [|levels IH]; intros data Hfits; [discriminate|].
  destruct data as [| | | | |s|items|props]; try reflexivity;
    cbn [truncateLevels fits] in *.
  - apply Nat.leb_le in Hfits.
    destruct (200 <? String.length s)%nat eqn:E; [|reflexivity].
    apply Nat.ltb_lt in E. lia.
  - apply andb_prop in Hfits as [Hlen Hall]. apply Nat.leb_le in Hlen.
    rewrite firstn_all2 by exact Hlen. f_equal.
    rewrite <- (map_id items) at 2. apply map_ext_in.
    intros v Hv. apply IH. rewrite forallb_forall in Hall. now apply Hall.
  - apply andb_prop in Hfits as [Hfits Hall].
    apply andb_prop in Hfits as [Hfits Hproto].
    apply andb_prop in Hfits as [Hlen Hdist].
    apply Nat.leb_le in Hlen. f_equal.
    rewrite truncateProps_all by (simpl; lia).
    rewrite copy_fresh.
    + simpl. rewrite <- (map_id props) at 2. apply map_ext_in.
      intros [k v] Hp. simpl. f_equal. apply IH.
      rewrite forallb_forall in Hall. now apply (Hall (k, v)).
    + simpl. now apply distinct_NoDup.
    + apply negb_true_iff in Hproto. intros Hin.
      assert (Hex : existsb (String.eqb "__proto__") (map fst props) = true)
        by (apply existsb_exists; exists "__proto__"; split;
            [exact Hin|reflexivity]).
      unfold keys in *. congruence.
Qed.

(** X5: [detailed] stores unchanged a payload that has no value below the
    third level, no array of more than 5 items, no object of more than 11
    properties (the keys distinct, none ["__proto__"]) and no string of more
    than 200 characters. *)
Theorem detailed_keeps_small_payload (data : value) :
  fits 3 data = true -> processData Detailed data = data.
Proof.
  apply (truncateLevels_fits 3).
Qed.

Lemma detailed_keeps_small_payload_witness :
  processData Detailed requestPayload = requestPayload.
Proof.
  apply detailed_keeps_small_payload. reflexivity.
Defined.

(** A number three levels down is replaced like any other value there. *)
Example detailed_cuts_scalar_at_depth_3 :
  processData Detailed
    (VObj [("a", VObj [("b", VObj [("c", VNum 1)])])])
  = VObj [("a", VObj [("b", VObj [("c", VStr "[truncated]")])])].
Proof. reflexivity. Qed.

(** ** Shaping: what [minimal] keeps *)

(** X7: a call that [minimal] accepts on account of its payload alone (the
    namespace being neither ["performance"] nor ["timing"]) is stored with a
    [data] object that holds the [duration] or [elapsed] of the payload,
    and, of the payload, only allow-list properties with their values. *)
Theorem minimal_accepted_payload_keeps_timing (ns : string) (payload : value) :
  shouldWrite Minimal ns payload = true ->
  ns <> "performance" -> ns <> "timing" ->
  exists props essential,
    payload = VObj props
    /\ processData Minimal payload = VObj essential
    /\ (exists k x, In k ["duration"; "elapsed"]
                    /\ lookup k props = Some x /\ lookup k essential = Some x)
    /\ (forall k, lookup k essential
                  = if existsb (String.eqb k) essentialKeys
                    then lookup k props else None).
Proof.
  intros Hacc Hperf Htiming. unfold shouldWrite in Hacc.
  apply String.eqb_neq in Hperf, Htiming. rewrite Hperf, Htiming in Hacc.
  simpl in Hacc. apply andb_prop in Hacc as [_ Hkeys].
  destruct payload as [| | | | | | |props]; try discriminate.
  destruct (minimal_object_payload props) as [[Hnone _]|(essential & He & _ & Hlook)].
  - exfalso. unfold hasKey in Hkeys.
    rewrite (Hnone "duration"), (Hnone "elapsed") in Hkeys;
      [discriminate|unfold essentialKeys; simpl; auto..].
  - exists props, essential. split; [reflexivity|]. split; [exact He|].
    split; [|exact Hlook].
    unfold hasKey in Hkeys.
    destruct (lookup "duration" props) as [x|] eqn:Hd.
    + exists "duration", x. rewrite Hlook. simpl. rewrite Hd. auto.
    + destruct (lookup "elapsed" props) as [x|] eqn:Hel; [|discriminate].
      exists "elapsed", x. rewrite Hlook. simpl. rewrite Hel. auto.
Qed.

Lemma minimal_accepted_payload_keeps_timing_witness :
  exists props essential,
    requestPayload = VObj props
    /\ processData Minimal requestPayload = VObj essential
    /\ (exists k x, In k ["duration"; "elapsed"]
                    /\ lookup k props = Some x /\ lookup k essential = Some x)
    /\ (forall k, lookup k essential
                  = if existsb (String.eqb k) essentialKeys
                    then lookup k props else None).
Proof.
  apply (minimal_accepted_payload_keeps_timing "api" requestPayload).
  - reflexivity.
  - discriminate.
  - discriminate.
Defined.

(** ** The tracer: which namespaces are logged *)

Section TracerFacts.

Variable JSON_stringify : value -> option string.

#[local] Abbreviation trun := (Tracer.run JSON_stringify).
#[local] Abbreviation tstep := (Tracer.step JSON_stringify).
#[local] Abbreviation tlog := (Tracer.log JSON_stringify).

Lemma shouldLog_disabled (t : Tracer.DebugTracer) (ns : string) :
  Tracer.globalEnabled t = false -> Tracer.shouldLog t ns = false.
Proof. intros H. unfold Tracer.shouldLog. now rewrite H. Qed.

(** X8: once [disable()] has switched the tracer off, no [log], [enable(ns)]
    or [disable] call switches it back on: nothing is logged for any
    namespace and the file writer receives nothing, until [enable()] is
    called without a namespace. *)
Theorem disabled_tracer_stays_silent (calls : list Tracer.call) :
  forall t,
  Tracer.globalEnabled t = false ->
  forallb (fun c => isGating c && negb (enablesAll c)) calls = true ->
  Tracer.globalEnabled (trun t calls) = false
  /\ Tracer.fileWriter (trun t calls) = Tracer.fileWriter t
  /\ forall ns, Tracer.shouldLog (trun t calls) ns = false.
Proof.
  induction calls as [|c calls IH]; intros t Hoff Hcalls.
  - simpl. repeat split; auto. intros ns. now apply shouldLog_disabled.
  - simpl in Hcalls. apply andb_prop in Hcalls as [Hc Hrest].
    apply andb_prop in Hc as [Hgate Hall]. apply negb_true_iff in Hall.
    assert (Hstep : Tracer.globalEnabled (tstep t c) = false
                    /\ Tracer.fileWriter (tstep t c) = Tracer.fileWriter t).
    { destruct c as [now ns args|[ns|]|[ns|]| | |]; simpl in *; try discriminate.
      - unfold Tracer.log. rewrite shouldLog_disabled by exact Hoff. auto.
      - rewrite Hall. auto.
      - destruct (ns =? ""); auto.
      - auto. }
    destruct Hstep as [Hoff' Hw].
    destruct (IH (tstep t c) Hoff' Hrest) as (I1 & I2 & I3).
    unfold Tracer.run in *. simpl. rewrite <- Hw. auto.
Qed.

(** X10: under [minimal], a [log] call with three or more arguments, the
    first of which can be converted to a string, hands the writer an array
    as payload: outside the namespaces ["performance"] and ["timing"] the
    call is rejected even if an argument carries a duration, and inside them
    the entry is stored without any [data].  When the first argument cannot
    be converted the call throws. *)
Theorem minimal_drops_extra_arguments
    (t : Tracer.DebugTracer) (w : DebugFileWriter) (now ns : string)
    (first second third : value) (others : list value) :
  Tracer.fileWriter t = Some w ->
  mode w = Minimal ->
  Tracer.shouldLog t ns = true ->
  let args := first :: second :: third :: others in
  let payload := VArr (second :: third :: others) in
  (forall message,
     Tracer.messageOf args = Ok message ->
     exists t',
       tlog t now ns args = Ok t'
       /\ Tracer.fileWriter t'
          = Some (FileWriter.write JSON_stringify w now ns message payload)
       /\ (ns <> "performance" -> ns <> "timing" ->
           Tracer.fileWriter t' = Some w)
       /\ data (buildEntry Minimal (currentRequestId w) now ns message payload)
          = VUndefined)
  /\ (Tracer.messageOf args = TypeError -> tlog t now ns args = TypeError).
Proof.
  intros Hw Hmode Hlog args payload. split.
  - intros message Hmessage.
    eexists. split; [|split; [|split]].
    + unfold Tracer.log. rewrite Hlog, Hw, Hmessage. reflexivity.
    + simpl. now rewrite Hw.
    + intros Hperf Htiming. simpl. rewrite Hw. simpl. f_equal.
      apply write_rejected. rewrite Hmode. unfold shouldWrite.
      apply String.eqb_neq in Hperf, Htiming. now rewrite Hperf, Htiming.
    + reflexivity.
  - intros Hmessage. unfold Tracer.log. now rewrite Hlog, Hw, Hmessage.
Qed.

End TracerFacts.






(** A tracer that lists the empty namespace logs nothing once each listed
    namespace has been disabled. *)
Example disabling_the_empty_namespace :
  Tracer.enabledNamespaces namelessTracer = [""; "api"]
  /\ Tracer.shouldLog namelessTracer "api" = true
  /\ forall x,
       Tracer.shouldLog
         (disableEach namelessTracer (Tracer.enabledNamespaces namelessTracer)) x
       = false.
Proof. repeat split. Qed.

Lemma disabled_tracer_stays_silent_witness :
  Tracer.globalEnabled
    (Tracer.run RefJSON.stringify (Tracer.disable sampleTracer None)
       [Tracer.Log "t1" "api" [VStr "request"; VObj [("duration", VNum 5)]];
        Tracer.Enable (Some "db"); Tracer.Disable (Some "api");
        Tracer.Log "t2" "db" [VStr "query"]]) = false
  /\ Tracer.fileWriter
       (Tracer.run RefJSON.stringify (Tracer.disable sampleTracer None)
          [Tracer.Log "t1" "api" [VStr "request"; VObj [("duration", VNum 5)]];
           Tracer.Enable (Some "db"); Tracer.Disable (Some "api");
           Tracer.Log "t2" "db" [VStr "query"]])
     = Tracer.fileWriter (Tracer.disable sampleTracer None)
  /\ forall ns,
       Tracer.shouldLog
         (Tracer.run RefJSON.stringify (Tracer.disable sampleTracer None)
            [Tracer.Log "t1" "api" [VStr "request"; VObj [("duration", VNum 5)]];
             Tracer.Enable (Some "db"); Tracer.Disable (Some "api");
             Tracer.Log "t2" "db" [VStr "query"]]) ns = false.
Proof.
  apply (disabled_tracer_stays_silent RefJSON.stringify).
  - reflexivity.
  - reflexivity.
Defined.

Lemma minimal_drops_extra_arguments_witness :
  (exists t',
     Tracer.log RefJSON.stringify sampleTracer "t1" "api"
       [VStr "request"; VObj [("duration", VNum 5)]; VStr "GET"]
     = Ok t'
     /\ Tracer.fileWriter t'
        = Some (FileWriter.write RefJSON.stringify
                  (FileWriter.constructor
                     {| cfg_path := None; cfg_mode := None;
                        cfg_maxBufferSize := None |}
                     true "2024-01-01T00:00:00.000Z")
                  "t1" "api" "request"
                  (VArr [VObj [("duration", VNum 5)]; VStr "GET"]))
     /\ ("api" <> "performance" -> "api" <> "timing" ->
         Tracer.fileWriter t'
         = Some (FileWriter.constructor
                   {| cfg_path := None; cfg_mode := None;
                      cfg_maxBufferSize := None |}
                   true "2024-01-01T00:00:00.000Z"))
     /\ data (buildEntry Minimal
                (currentRequestId
                   (FileWriter.constructor
                      {| cfg_path := None; cfg_mode := None;
                         cfg_maxBufferSize := None |}
                      true "2024-01-01T00:00:00.000Z"))
                "t1" "api" "request"
                (VArr [VObj [("duration", VNum 5)]; VStr "GET"]))
        = VUndefined)
  /\ Tracer.log RefJSON.stringify sampleTracer "t1" "performance"
       [VObj [("toString", VNum 1)]; VObj [("duration", VNum 5)]; VStr "GET"]
     = TypeError.
Proof.
  split.
  - apply (minimal_drops_extra_arguments RefJSON.stringify sampleTracer);
      reflexivity.
  - apply (minimal_drops_extra_arguments RefJSON.stringify sampleTracer
             (FileWriter.constructor
                {| cfg_path := None; cfg_mode := None; cfg_maxBufferSize := None |}
                true "2024-01-01T00:00:00.000Z"));
      reflexivity.
Defined.

(** With two arguments the same duration is written. *)
Example minimal_keeps_second_argument :
  match Tracer.log RefJSON.stringify sampleTracer "t1" "api"
          [VStr "request"; VObj [("duration", VNum 5); ("path", VStr "/")]] with
  | Ok t' => option_map (fun w => map data (buffer w)) (Tracer.fileWriter t')
  | TypeError => None
  end
  = Some [VObj [("duration", VNum 5)]].
Proof. reflexivity. Qed.

(** ** The tracer: the [DEBUG] variable *)

Lemma trimEnd_idempotent (s : string) :
  Tracer.trimEnd (Tracer.trimEnd s) = Tracer.trimEnd s.
Proof.
  induction s as [|c s IH]; [reflexivity|].
  cbn [Tracer.trimEnd].
  destruct (Tracer.trimEnd s) as [|k kept] eqn:Hkept.
  - destruct (Tracer.isWhite c) eqn:Hc; [reflexivity|].
    cbn [Tracer.trimEnd]. now rewrite Hc.
  - cbn [Tracer.trimEnd]. cbn [Tracer.trimEnd] in IH.
    destruct (Tracer.trimEnd kept) as [|k' kept'] eqn:Hk.
    + destruct (Tracer.isWhite k); [discriminate|now rewrite IH].
    + now rewrite IH.
Qed.

Lemma trimEnd_head (c : ascii) (s : string) :
  Tracer.isWhite c = false ->
  Tracer.trimEnd (String c s) = String c (Tracer.trimEnd s).
Proof.
  intros Hc. cbn [Tracer.trimEnd].
  destruct (Tracer.trimEnd s); [now rewrite Hc|reflexivity].
Qed.

Lemma trimStart_head (s : string) :
  Tracer.trimStart s = ""
  \/ exists c rest, Tracer.trimStart s = String c rest /\ Tracer.isWhite c = false.
Proof.
  induction s as [|c s IH]; [now left|].
  cbn [Tracer.trimStart]. destruct (Tracer.isWhite c) eqn:Hc; [exact IH|].
  right. eauto.
Qed.

Lemma trim_idempotent (s : string) : Tracer.trim (Tracer.trim s) = Tracer.trim s.
Proof.
  unfold Tracer.trim.
  destruct (trimStart_head s) as [->|(c & rest & -> & Hc)]; [reflexivity|].
  rewrite (trimEnd_head c rest Hc). cbn [Tracer.trimStart]. rewrite Hc.
  rewrite (trimEnd_head c _ Hc). now rewrite trimEnd_idempotent.
Qed.

Lemma trimEnd_split (s : string) :
  exists after, s = (Tracer.trimEnd s ++ after)%string /\ allWhite after = true.
Proof.
  induction s as [|c s (after & Hs & Hafter)]; [now exists ""|].
  cbn [Tracer.trimEnd].
  destruct (Tracer.trimEnd s) as [|k kept] eqn:Hkept.
  - simpl in Hs. subst after.
    destruct (Tracer.isWhite c) eqn:Hc.
    + exists (String c s). cbn [allWhite append]. now rewrite Hc, Hafter.
    + exists s. auto.
  - exists after. cbn [append]. split; [|exact Hafter].
    f_equal. exact Hs.
Qed.

Lemma trimEnd_endsWhite (s : string) : endsWhite (Tracer.trimEnd s) = false.
Proof.
  induction s as [|c s IH]; [reflexivity|].
  cbn [Tracer.trimEnd].
  destruct (Tracer.trimEnd s) as [|k kept] eqn:Hkept.
  - destruct (Tracer.isWhite c) eqn:Hc; [reflexivity|]. simpl. exact Hc.
  - exact IH.
Qed.

Lemma trimStart_split (s : string) :
  exists before,
    s = (before ++ Tracer.trimStart s)%string /\ allWhite before = true.
Proof.
  induction s as [|c s (before & Hs & Hbefore)]; [now exists ""|].
  cbn [Tracer.trimStart]. destruct (Tracer.isWhite c) eqn:Hc.
  - exists (String c before). cbn [allWhite append]. rewrite Hc, Hbefore.
    split; [|reflexivity]. f_equal. exact Hs.
  - now exists "".
Qed.

(** [trim] removes white space, and only white space, from both ends. *)
Lemma trim_core (piece : string) : coreOf piece (Tracer.trim piece).
Proof.
  unfold Tracer.trim.
  destruct (trimStart_split piece) as (before & Hstart & Hbefore).
  destruct (trimEnd_split (Tracer.trimStart piece)) as (after & Hend & Hafter).
  exists before, after. split; [|split; [exact Hbefore|split; [exact Hafter|]]].
  - now rewrite <- Hend.
  - unfold trimmed. rewrite trimEnd_endsWhite, andb_true_r.
    destruct (trimStart_head piece) as [->|(c & rest & -> & Hc)]; [reflexivity|].
    rewrite (trimEnd_head c rest Hc). simpl. now rewrite Hc.
Qed.

Lemma trim_cores (pieces : list string) :
  Forall2 coreOf pieces (map Tracer.trim pieces).
Proof.
  induction pieces as [|piece pieces IH]; constructor;
    [apply trim_core|exact IH].
Qed.

Lemma splitComma_cons (s : string) :
  forall cur, exists piece pieces, Tracer.splitComma cur s = piece :: pieces.
Proof.
  induction s as [|c s IH]; intros cur; cbn [Tracer.splitComma]; [eauto|].
  destruct (Ascii.eqb c ","); [eauto|apply IH].
Qed.

(** [split(',')] cuts the text at its commas: the pieces hold no comma, and
    joined by commas they give the text back. *)
Lemma splitComma_pieces (s : string) :
  forall cur,
  commaFree cur = true ->
  String.concat "," (Tracer.splitComma cur s) = (cur ++ s)%string
  /\ Forall (fun piece => commaFree piece = true) (Tracer.splitComma cur s).
Proof.
  induction s as [|c s IH]; intros cur Hcur; cbn [Tracer.splitComma].
  - simpl. rewrite append_nil_r. auto.
  - destruct (Ascii.eqb c ",") eqn:Ec.
    + apply Ascii.eqb_eq in Ec. subst c.
      destruct (IH "" eq_refl) as [Hjoin Hfree].
      destruct (splitComma_cons s "") as (piece & pieces & Hsplit).
      rewrite Hsplit in *. split; [|now constructor].
      change (String.concat "," (cur :: piece :: pieces))
        with (cur ++ "," ++ String.concat "," (piece :: pieces))%string.
      now rewrite Hjoin.
    + assert (Hcur' : commaFree (cur ++ String c EmptyString) = true).
      { clear IH. induction cur as [|k cur IHc]; cbn [append commaFree] in *.
        - now rewrite Ec.
        - apply andb_prop in Hcur as [Hk Hcur]. now rewrite Hk, IHc. }
      destruct (IH _ Hcur') as [Hjoin Hfree]. split; [|exact Hfree].
      rewrite Hjoin, append_assoc. reflexivity.
Qed.

(** X11: [parseEnvConfig] switches the tracer off for the values [""] and
    ["false"] of [DEBUG] and for no other, and on without naming any
    namespace for ["true"], ["*"] and ["1"] and for no other.  Every other
    value switches it on and names the pieces of the value between its
    commas, in order, each without the white space around it, the empty
    ones left out. *)
Theorem parseEnvConfig_namespaces (envDebug : string) :
  (Tracer.parseEnvConfig envDebug = (false, None)
   <-> envDebug = "" \/ envDebug = "false")
  /\ (Tracer.parseEnvConfig envDebug = (true, None)
      <-> In envDebug ["true"; "*"; "1"])
  /\ (~ In envDebug [""; "false"; "true"; "*"; "1"] ->
      exists pieces cores,
        envDebug = String.concat "," pieces
        /\ Forall (fun piece => commaFree piece = true) pieces
        /\ Forall2 coreOf pieces cores
        /\ Tracer.parseEnvConfig envDebug
           = (true, Some (filter (fun core => negb (core =? "")) cores))).
Proof.
  unfold Tracer.parseEnvConfig.
  assert (Hspecial : forall special : string,
            In special [""; "false"; "true"; "*"; "1"] ->
            let answer := (negb ((special =? "") || (special =? "false")),
                           @None (list string)) in
            (answer = (false, None) <-> special = "" \/ special = "false")
            /\ (answer = (true, None) <-> In special ["true"; "*"; "1"])).
  { intros special [<-|[<-|[<-|[<-|[<-|[]]]]]]; simpl;
      (split; split;
       [try discriminate; tauto
       |try (intros [H|H]; discriminate); try reflexivity
       |try discriminate; tauto
       |try (intros [H|[H|[H|[]]]]; discriminate); try reflexivity]). }
  destruct (envDebug =? "") eqn:E1.
  { apply String.eqb_eq in E1. subst.
    destruct (Hspecial "") as [H1 H2]; [simpl; tauto|].
    split; [exact H1|]. split; [exact H2|].
    intros Hother. exfalso. apply Hother. simpl. tauto. }
  destruct (envDebug =? "false") eqn:E2.
  { apply String.eqb_eq in E2. subst.
    destruct (Hspecial "false") as [H1 H2]; [simpl; tauto|].
    split; [exact H1|]. split; [exact H2|].
    intros Hother. exfalso. apply Hother. simpl. tauto. }
  destruct (envDebug =? "true") eqn:E3.
  { apply String.eqb_eq in E3. subst.
    destruct (Hspecial "true") as [H1 H2]; [simpl; tauto|].
    split; [exact H1|]. split; [exact H2|].
    intros Hother. exfalso. apply Hother. simpl. tauto. }
  destruct (envDebug =? "*") eqn:E4.
  { apply String.eqb_eq in E4. subst.
    destruct (Hspecial "*") as [H1 H2]; [simpl; tauto|].
    split; [exact H1|]. split; [exact H2|].
    intros Hother. exfalso. apply Hother. simpl. tauto. }
  destruct (envDebug =? "1") eqn:E5.
  { apply String.eqb_eq in E5. subst.
    destruct (Hspecial "1") as [H1 H2]; [simpl; tauto|].
    split; [exact H1|]. split; [exact H2|].
    intros Hother. exfalso. apply Hother. simpl. tauto. }
  apply String.eqb_neq in E1, E2, E3, E4, E5. simpl.
  split; [|split].
  - split; [discriminate|]. intros [H|H]; congruence.
  - split; [discriminate|]. intros [H|[H|[H|[]]]]; congruence.
  - intros _.
    exists (Tracer.splitComma "" envDebug),
           (map Tracer.trim (Tracer.splitComma "" envDebug)).
    destruct (splitComma_pieces envDebug "" eq_refl) as [Hjoin Hfree].
    split; [now rewrite Hjoin|]. split; [exact Hfree|]. split; [|reflexivity].
    apply trim_cores.
Qed.

Lemma trimStart_allWhite (s : string) : allWhite s = true -> Tracer.trimStart s = "".
Proof.
  induction s as [|c s IH]; [reflexivity|].
  cbn [allWhite Tracer.trimStart]. intros H. apply andb_prop in H as [Hc Hs].
  rewrite Hc. now apply IH.
Qed.

Lemma allWhite_append (s : string) (c : ascii) :
  allWhite s = true -> Tracer.isWhite c = true ->
  allWhite (s ++ String c EmptyString) = true.
Proof.
  induction s as [|k s IH]; cbn [allWhite append]; intros Hs Hc.
  - now rewrite Hc.
  - apply andb_prop in Hs as [Hk Hs]. now rewrite Hk, IH.
Qed.

Lemma splitComma_blank (s : string) :
  forall cur,
  allWhite cur = true -> blankList s = true ->
  Forall (fun piece => allWhite piece = true) (Tracer.splitComma cur s).
Proof.
  induction s as [|c s IH]; intros cur Hcur Hs; cbn [Tracer.splitComma].
  - now constructor.
  - cbn [blankList] in Hs. apply andb_prop in Hs as [Hc Hs].
    destruct (Ascii.eqb c ",") eqn:Ecomma.
    + constructor; [exact Hcur|]. now apply IH.
    + simpl in Hc. apply IH; [|exact Hs]. now apply allWhite_append.
Qed.

(** X12: a [DEBUG] value made of commas and white space only (and not
    empty) names no namespace but switches the tracer on, so a tracer built
    from it without a configuration logs every namespace. *)
Theorem blank_DEBUG_enables_everything
    (envDebug : string) (writer : option DebugFileWriter) :
  envDebug <> "" -> blankList envDebug = true ->
  Tracer.parseEnvConfig envDebug = (true, Some [])
  /\ forall ns,
       Tracer.shouldLog (Tracer.constructor None envDebug writer) ns = true.
Proof.
  intros Hne Hblank.
  assert (Hparse : Tracer.parseEnvConfig envDebug = (true, Some [])).
  { unfold Tracer.parseEnvConfig.
    apply String.eqb_neq in Hne. rewrite Hne.
    destruct envDebug as [|c rest]; [discriminate|].
    cbn [blankList] in Hblank. apply andb_prop in Hblank as [Hc Hrest].
    assert (Hkey : forall k d,
               (Ascii.eqb k "," || Tracer.isWhite k) = false ->
               (String c rest =? String k d) = false).
    { intros k d Hk. apply String.eqb_neq. intros [= -> _]. congruence. }
    rewrite (Hkey "f"%char "alse"), (Hkey "t"%char "rue"),
            (Hkey "*"%char ""), (Hkey "1"%char "") by reflexivity.
    simpl orb. cbv iota. f_equal. f_equal.
    assert (Hpieces : Forall (fun piece => allWhite piece = true)
                        (Tracer.splitComma "" (String c rest))).
    { apply splitComma_blank; [reflexivity|]. cbn [blankList].
      now rewrite Hc, Hrest. }
    induction Hpieces as [|piece pieces Hp _ IH]; [reflexivity|].
    simpl. unfold Tracer.trim at 1. rewrite trimStart_allWhite by exact Hp.
    simpl. exact IH. }
  split; [exact Hparse|].
  intros ns. unfold Tracer.constructor, Tracer.shouldLog. rewrite Hparse.
  reflexivity.
Qed.

Lemma blank_DEBUG_enables_everything_witness :
  Tracer.parseEnvConfig " , ," = (true, Some [])
  /\ forall ns,
       Tracer.shouldLog (Tracer.constructor None " , ," None) ns = true.
Proof.
  apply blank_DEBUG_enables_everything.
  - discriminate.
  - reflexivity.
Defined.

(** [DEBUG=api, db,,cache ] names three namespaces. *)
Example parseEnvConfig_list :
  Tracer.parseEnvConfig "api, db,,cache " = (true, Some ["api"; "db"; "cache"]).
Proof. reflexivity. Qed.

(** ** The other commands: [tail] and [filter] *)

(** X13: [tail] prints the last 50 entries in file order, and all of them
    when the file has at most 50. *)
Theorem tail_prints_last_fifty (logs : list value) :
  (exists dropped, logs = dropped ++ Commands.tailCommand logs)
  /\ List.length (Commands.tailCommand logs) = Nat.min 50 (List.length logs)
  /\ ((List.length logs <= 50)%nat -> Commands.tailCommand logs = logs).
Proof.
  unfold Commands.tailCommand, Commands.sliceLast. split; [|split].
  - exists (firstn (List.length logs - 50) logs). now rewrite firstn_skipn.
  - rewrite length_skipn. lia.
  - intros Hle. now replace (List.length logs - 50)%nat with 0%nat by lia.
Qed.

Lemma filter_filter {A : Type} (p q : A -> bool) (l : list A) :
  filter q (filter p l) = filter (fun x => p x && q x) l.
Proof.
  induction l as [|x l IH]; simpl; [reflexivity|].
  destruct (p x); simpl; [|exact IH].
  destruct (q x); now rewrite IH.
Qed.

Lemma filter_all {A : Type} (l : list A) : filter (fun _ => true) l = l.
Proof. induction l as [|x l IH]; simpl; [reflexivity|now rewrite IH]. Qed.

Lemma filter_optional {A B : Type} (o : option B) (p : B -> A -> bool) (l : list A) :
  match o with Some x => filter (p x) l | None => l end
  = filter (fun a => match o with Some x => p x a | None => true end) l.
Proof. destruct o; [reflexivity|now rewrite filter_all]. Qed.

Lemma sliceTo_prefix {A : Type} (l : list A) (e : option Z) :
  exists rest, l = Commands.sliceTo l e ++ rest.
Proof.
  unfold Commands.sliceTo. destruct e as [n|]; [|now exists l].
  destruct (n <? 0)%Z; eexists; symmetry; apply firstn_skipn.
Qed.

Section FilterFacts.

Variable Date_new : value -> option Z.
Variable parseInt : string -> option Z.

#[local] Abbreviation matches := (Commands.filterMatches Date_new).
#[local] Abbreviation shown := (Commands.filterCommand Date_new parseInt).

Lemma filterMatches_passes (args : list string) (logs : list value) :
  matches args logs = filter (passes Date_new args) logs.
Proof.
  unfold Commands.filterMatches, passes. cbv zeta.
  rewrite (filter_optional (Commands.argAfter args "--before")
             (fun b log => Commands.laterThan (Date_new (VStr b))
                             (Date_new (getField log "timestamp")))).
  rewrite (filter_optional (Commands.argAfter args "--after")
             (fun a log => Commands.laterThan (Date_new (getField log "timestamp"))
                             (Date_new (VStr a)))).
  rewrite (filter_optional (Commands.argAfter args "--namespace")
             (fun ns log => strictEqStr (getField log "namespace") ns)).
  rewrite !filter_filter. apply filter_ext. intros log. apply andb_assoc.
Qed.

(** X14: [filter] prints a prefix of the entries that pass every option
    given on the command line, in file order: each printed entry is in the
    file, has exactly the namespace asked for and lies within the time
    bounds; without [--limit] at most 50 are printed, with a limit that
    reads as a number at least 0 at most that many, and with a limit that
    does not read as a number none. *)
Theorem filter_prints_prefix_of_matches (args : list string) (logs : list value) :
  matches args logs = filter (passes Date_new args) logs
  /\ (exists rest, matches args logs = shown args logs ++ rest)
  /\ (forall log,
        In log (shown args logs) ->
        In log logs
        /\ (forall ns, Commands.argAfter args "--namespace" = Some ns ->
                       getField log "namespace" = VStr ns)
        /\ (forall a, Commands.argAfter args "--after" = Some a ->
                      exists t bound,
                        Date_new (getField log "timestamp") = Some t
                        /\ Date_new (VStr a) = Some bound /\ (bound < t)%Z)
        /\ (forall b, Commands.argAfter args "--before" = Some b ->
                      exists t bound,
                        Date_new (getField log "timestamp") = Some t
                        /\ Date_new (VStr b) = Some bound /\ (t < bound)%Z))
  /\ (Commands.argAfter args "--limit" = None ->
      List.length (shown args logs)
      = Nat.min 50 (List.length (matches args logs)))
  /\ (forall l n,
        Commands.argAfter args "--limit" = Some l -> parseInt l = Some n ->
        (0 <= n)%Z ->
        List.length (shown args logs)
        = Nat.min (Z.to_nat n) (List.length (matches args logs)))
  /\ (forall l,
        Commands.argAfter args "--limit" = Some l -> parseInt l = None ->
        shown args logs = []).
Proof.
  split; [apply filterMatches_passes|].
  split; [apply sliceTo_prefix|]. split; [|split; [|split]].
  - intros log Hin.
    destruct (sliceTo_prefix (matches args logs) (Commands.limitOf parseInt args))
      as [rest Hrest].
    assert (Hm : In log (matches args logs))
      by (rewrite Hrest; apply in_or_app; now left).
    rewrite filterMatches_passes in Hm. apply filter_In in Hm as [Hlog Hpass].
    split; [exact Hlog|].
    unfold passes in Hpass.
    apply andb_prop in Hpass as [Hpass Hbefore].
    apply andb_prop in Hpass as [Hns Hafter].
    split; [|split].
    + intros ns Hopt. rewrite Hopt in Hns. now apply strictEqStr_true.
    + intros a Hopt. rewrite Hopt in Hafter. unfold Commands.laterThan in Hafter.
      destruct (Date_new (getField log "timestamp")) as [t|]; [|discriminate].
      destruct (Date_new (VStr a)) as [bound|]; [|discriminate].
      exists t, bound. apply Z.ltb_lt in Hafter. auto.
    + intros b Hopt. rewrite Hopt in Hbefore. unfold Commands.laterThan in Hbefore.
      destruct (Date_new (VStr b)) as [bound|]; [|discriminate].
      destruct (Date_new (getField log "timestamp")) as [t|]; [|discriminate].
      exists t, bound. apply Z.ltb_lt in Hbefore. auto.
  - intros Hopt. unfold Commands.filterCommand, Commands.limitOf. rewrite Hopt.
    change (Commands.sliceTo (matches args logs) (Some 50%Z))
      with (firstn 50 (matches args logs)).
    apply length_firstn.
  - intros l n Hopt Hparse Hn.
    unfold Commands.filterCommand, Commands.limitOf. rewrite Hopt, Hparse.
    unfold Commands.sliceTo.
    destruct (n <? 0)%Z eqn:E; [apply Z.ltb_lt in E; lia|]. apply length_firstn.
  - intros l Hopt Hparse.
    unfold Commands.filterCommand, Commands.limitOf. now rewrite Hopt, Hparse.
Qed.

End FilterFacts.

(** [filter --namespace api --after 1 --limit 1] on four entries: of the two
    that match, the first is printed; a negative limit drops entries from
    the end of the matches instead. *)
Example filter_on_stamped_logs :
  Commands.filterCommand refDate refParseInt
    ["filter"; "app.log"; "--namespace"; "api"; "--after"; "1"; "--limit"; "1"]
    stampedLogs
  = firstn 1 (skipn 2 stampedLogs)
  /\ Commands.filterCommand refDate refParseInt
       ["filter"; "app.log"; "--limit"; "-1"] stampedLogs
     = firstn 3 stampedLogs
  /\ Commands.filterCommand refDate refParseInt
       ["filter"; "app.log"; "--namespace"] stampedLogs
     = stampedLogs.
Proof. repeat split. Qed.

(** ** Sorting by decreasing count *)

Section SortFacts.

Context {A : Type}.
Variable key : A -> Z.

Lemma insertDesc_perm (x : A) (l : list A) :
  Permutation (Commands.insertDesc key x l) (x :: l).
Proof.
  induction l as [|y l IH]; simpl; [reflexivity|].
  destruct (key x <? key y)%Z; [|reflexivity].
  rewrite IH. apply perm_swap.
Qed.

Lemma sortDesc_perm (l : list A) : Permutation (Commands.sortDesc key l) l.
Proof.
  induction l as [|x l IH]; simpl; [reflexivity|].
  rewrite insertDesc_perm. now constructor.
Qed.

Lemma insertDesc_decreasing (x : A) (l : list A) :
  decreasing key l -> decreasing key (Commands.insertDesc key x l).
Proof.
  unfold decreasing.
  induction l as [|y l IH]; simpl; intros Hl.
  - repeat constructor.
  - apply StronglySorted_inv in Hl as [Hl Hy].
    destruct (key x <? key y)%Z eqn:E.
    + apply Z.ltb_lt in E. constructor; [now apply IH|].
      rewrite Forall_forall in *. intros z Hz.
      apply (Permutation_in _ (insertDesc_perm x l)) in Hz.
      destruct Hz as [<-|Hz]; [lia|now apply Hy].
    + apply Z.ltb_ge in E. constructor; [now constructor|].
      constructor; [exact E|].
      rewrite Forall_forall in *. intros z Hz. specialize (Hy z Hz). lia.
Qed.

Lemma sortDesc_decreasing (l : list A) : decreasing key (Commands.sortDesc key l).
Proof.
  induction l as [|x l IH]; simpl; [constructor|].
  now apply insertDesc_decreasing.
Qed.

(** Among elements of equal key the order of the input is kept. *)
Lemma sortDesc_stable (l : list A) (v : Z) :
  filter (fun y => (key y =? v)%Z) (Commands.sortDesc key l)
  = filter (fun y => (key y =? v)%Z) l.
Proof.
  induction l as [|x l IH]; simpl; [reflexivity|].
  rewrite <- IH. clear IH.
  induction (Commands.sortDesc key l) as [|y sorted IHs]; simpl; [reflexivity|].
  destruct (key x <? key y)%Z eqn:E; [|reflexivity].
  apply Z.ltb_lt in E. simpl. rewrite IHs.
  destruct (key x =? v)%Z eqn:Ex; [|reflexivity].
  apply Z.eqb_eq in Ex.
  destruct (key y =? v)%Z eqn:Ey; [apply Z.eqb_eq in Ey; lia|reflexivity].
Qed.

Lemma decreasing_split (l : list A) (n : nat) :
  decreasing key l ->
  forall a b, In a (firstn n l) -> In b (skipn n l) -> (key b <= key a)%Z.
Proof.
  unfold decreasing. revert n.
  induction l as [|x l IH]; intros n Hl a b Ha Hb.
  - destruct n; inversion Ha.
  - apply StronglySorted_inv in Hl as [Hl Hx].
    destruct n as [|n]; [inversion Ha|]. simpl in Ha, Hb.
    destruct Ha as [<-|Ha].
    + rewrite Forall_forall in Hx. apply Hx.
      rewrite <- (firstn_skipn n l). apply in_or_app. now right.
    + now apply (IH n Hl a b).
Qed.

End SortFacts.

Lemma partition_perm {A : Type} (p : A -> bool) (l : list A) :
  Permutation (filter p l ++ filter (fun x => negb (p x)) l) l.
Proof.
  induction l as [|x l IH]; simpl; [reflexivity|].
  destruct (p x); simpl.
  - now constructor.
  - rewrite <- Permutation_middle. now constructor.
Qed.

Lemma insertAsc_perm {A : Type} (key : A -> Z) (x : A) (l : list A) :
  Permutation (Commands.insertAsc key x l) (x :: l).
Proof.
  induction l as [|y l IH]; simpl; [reflexivity|].
  destruct (key y <? key x)%Z; [|reflexivity].
  rewrite IH. apply perm_swap.
Qed.

Lemma objectEntries_perm {A : Type} (props : list (string * A)) :
  Permutation (Commands.objectEntries props) props.
Proof.
  unfold Commands.objectEntries.
  set (isIndex := fun p : string * A =>
                    match Commands.arrayIndex (fst p) with
                    | Some _ => true
                    | None => false
                    end).
  rewrite <- (partition_perm isIndex props) at 3.
  apply Permutation_app.
  - induction (filter isIndex props) as [|x l IH]; simpl; [reflexivity|].
    rewrite insertAsc_perm. now constructor.
  - apply Permutation_refl'. apply filter_ext. intros p. unfold isIndex.
    now destruct (Commands.arrayIndex (fst p)).
Qed.

(** ** Counting entries by key *)

Lemma lookup_in {A : Type} (k : string) (x : A) (props : list (string * A)) :
  lookup k props = Some x -> In (k, x) props.
Proof.
  induction props as [|[k0 x0] props IH]; simpl; [discriminate|].
  destruct (k0 =? k) eqn:E.
  - apply String.eqb_eq in E. intros [= ->]. left. now subst.
  - intros H. right. now apply IH.
Qed.

Lemma in_lookup {A : Type} (k : string) (x : A) (props : list (string * A)) :
  NoDup (keys props) -> In (k, x) props -> lookup k props = Some x.
Proof.
  unfold keys.
  induction props as [|[k0 x0] props IH]; simpl; intros Hnd Hin; [contradiction|].
  apply NoDup_cons_iff in Hnd as [Hk0 Hnd].
  destruct Hin as [[= -> ->]|Hin].
  - now rewrite String.eqb_refl.
  - destruct (k0 =? k) eqn:E; [|now apply IH].
    apply String.eqb_eq in E. subst k0. exfalso. apply Hk0.
    apply in_map_iff. now exists (k, x).
Qed.

Lemma lookup_none_keys {A : Type} (k : string) (props : list (string * A)) :
  lookup k props = None <-> ~ In k (keys props).
Proof.
  unfold keys.
  induction props as [|[k0 x0] props IH]; simpl; [tauto|].
  destruct (k0 =? k) eqn:E.
  - apply String.eqb_eq in E. split; [discriminate|tauto].
  - apply String.eqb_neq in E. tauto.
Qed.

Lemma lookup_app {A : Type} (k : string) (props more : list (string * A)) :
  lookup k (props ++ more)
  = match lookup k props with
    | Some x => Some x
    | None => lookup k more
    end.
Proof.
  induction props as [|[k0 x0] props IH]; simpl; [reflexivity|].
  now destruct (k0 =? k).
Qed.

Section TallyFacts.

#[local] Abbreviation bump k m :=
  (map (fun p : string * Commands.tally =>
          if fst p =? k then (fst p, Commands.Count m) else p)).

Lemma lookup_bump (counts : list (string * Commands.tally)) (k k' : string) (m : Z) :
  lookup k' (bump k m counts)
  = if k' =? k
    then match lookup k counts with
         | Some _ => Some (Commands.Count m)
         | None => None
         end
    else lookup k' counts.
Proof.
  induction counts as [|[k0 x0] counts IH]; simpl.
  - now destruct (k' =? k).
  - destruct (k0 =? k) eqn:E0; simpl.
    + apply String.eqb_eq in E0. subst k0.
      destruct (k =? k') eqn:E1.
      * apply String.eqb_eq in E1. subst k'. now rewrite String.eqb_refl.
      * rewrite IH. rewrite String.eqb_sym in E1. now rewrite E1.
    + destruct (k0 =? k') eqn:E1.
      * apply String.eqb_eq in E1. subst k'. now rewrite E0.
      * exact IH.
Qed.

Lemma keys_bump (counts : list (string * Commands.tally)) (k : string) (m : Z) :
  keys (bump k m counts) = keys counts.
Proof.
  unfold keys. rewrite map_map. apply map_ext. intros p.
  now destruct (fst p =? k).
Qed.

Lemma total_app (c1 c2 : list (string * Commands.tally)) :
  total (c1 ++ c2) = (total c1 + total c2)%Z.
Proof.
  unfold total. induction c1 as [|[k x] c1 IH]; simpl; [reflexivity|].
  rewrite IH. destruct x; lia.
Qed.

Lemma total_bump (counts : list (string * Commands.tally)) (k : string) (n : Z) :
  NoDup (keys counts) ->
  lookup k counts = Some (Commands.Count n) ->
  total (bump k (n + 1) counts) = (total counts + 1)%Z.
Proof.
  unfold keys, total.
  induction counts as [|[k0 x0] counts IH]; simpl; intros Hnd Hk; [discriminate|].
  apply NoDup_cons_iff in Hnd as [Hk0 Hnd].
  destruct (k0 =? k) eqn:E; simpl.
  - apply String.eqb_eq in E. subst k0. injection Hk as ->.
    assert (Hsame : bump k (n + 1) counts = counts).
    { rewrite <- (map_id counts) at 2. apply map_ext_in. intros [k1 x1] Hin.
      simpl. destruct (k1 =? k) eqn:E1; [|reflexivity].
      apply String.eqb_eq in E1. subst k1. exfalso. apply Hk0.
      apply in_map_iff. now exists (k, x1). }
    rewrite Hsame. lia.
  - rewrite IH by assumption. destruct x0; lia.
Qed.

Lemma inherited_proto : inherited "__proto__" = true.
Proof. reflexivity. Qed.

(** One more key: the well-formedness of the tally is kept, the count of
    the key goes up by one unless [Object.prototype] defines the name, and
    the other counts stay. *)
Lemma tallyStep_spec (counts : list (string * Commands.tally)) (k : string) :
  wellTallied counts ->
  wellTallied (Commands.tallyStep counts k)
  /\ total (Commands.tallyStep counts k)
     = (total counts + if inherited k then 0 else 1)%Z
  /\ (forall k',
        inherited k' = false ->
        lookup k' (Commands.tallyStep counts k)
        = if k' =? k
          then match lookup k' counts with
               | Some (Commands.Count n) => Some (Commands.Count (n + 1))
               | _ => Some (Commands.Count 1)
               end
          else lookup k' counts)
  /\ (forall k', In k' (keys (Commands.tallyStep counts k)) ->
                 In k' (keys counts) \/ k' = k).
Proof.
  intros (Hnd & Htext & Hcount). unfold Commands.tallyStep.
  destruct (lookup k counts) as [[n|]|] eqn:Hk.
  - (* counted before *)
    destruct (Hcount k n Hk) as [Hinh Hpos].
    split; [|split; [|split]].
    + split; [now rewrite keys_bump|]. split.
      * intros k' H. rewrite lookup_bump in H.
        destruct (k' =? k); [now rewrite Hk in H|now apply Htext].
      * intros k' m H. rewrite lookup_bump in H.
        destruct (k' =? k) eqn:E.
        -- apply String.eqb_eq in E. subst k'. rewrite Hk in H.
           injection H as <-. split; [exact Hinh|lia].
        -- now apply Hcount.
    + rewrite Hinh. now apply total_bump.
    + intros k' _. rewrite lookup_bump.
      destruct (k' =? k) eqn:E; [|reflexivity].
      apply String.eqb_eq in E. subst k'. now rewrite Hk.
    + intros k'. rewrite keys_bump. auto.
  - (* a text: the name is inherited *)
    pose proof (Htext k Hk) as Hinh.
    split; [exact (conj Hnd (conj Htext Hcount))|]. split; [rewrite Hinh; lia|]. split.
    + intros k' Hk'. destruct (k' =? k) eqn:E; [|reflexivity].
      apply String.eqb_eq in E. congruence.
    + auto.
  - (* a new key *)
    apply lookup_none_keys in Hk.
    destruct (k =? "__proto__") eqn:Ep.
    { apply String.eqb_eq in Ep. subst k.
      split; [exact (conj Hnd (conj Htext Hcount))|]. split; [rewrite inherited_proto; lia|]. split.
      - intros k' Hk'. destruct (k' =? "__proto__") eqn:E; [|reflexivity].
        apply String.eqb_eq in E. subst k'. now rewrite inherited_proto in Hk'.
      - auto. }
    assert (Hadd : forall x : Commands.tally,
               NoDup (keys (counts ++ [(k, x)]))
               /\ (forall k', In k' (keys (counts ++ [(k, x)])) ->
                              In k' (keys counts) \/ k' = k)).
    { intros x. unfold keys in *. rewrite map_app. simpl. split.
      - apply NoDup_app; [exact Hnd|repeat constructor; auto|].
        intros y Hy [<-|[]]. contradiction.
      - intros k' Hin. apply in_app_or in Hin as [Hin|[<-|[]]]; auto. }
    apply lookup_none_keys in Hk.
    destruct (inherited k) eqn:Hinh.
    + destruct (Hadd Commands.Text) as [Hnd' Hkeys].
      split; [|split; [|split]].
      * split; [exact Hnd'|]. split.
        -- intros k' H. rewrite lookup_app in H.
           destruct (lookup k' counts) as [x|] eqn:Hx;
             [injection H as ->; now apply Htext|].
           simpl in H. destruct (k =? k') eqn:E; [|discriminate].
           apply String.eqb_eq in E. now subst k'.
        -- intros k' m H. rewrite lookup_app in H.
           destruct (lookup k' counts) as [x|] eqn:Hx;
             [injection H as ->; now apply Hcount|].
           simpl in H. destruct (k =? k'); discriminate.
      * rewrite total_app. simpl. lia.
      * intros k' Hk'. rewrite lookup_app.
        destruct (k' =? k) eqn:E.
        -- apply String.eqb_eq in E. congruence.
        -- destruct (lookup k' counts); [reflexivity|].
           simpl. rewrite String.eqb_sym in E. now rewrite E.
      * exact Hkeys.
    + destruct (Hadd (Commands.Count 1)) as [Hnd' Hkeys].
      split; [|split; [|split]].
      * split; [exact Hnd'|]. split.
        -- intros k' H. rewrite lookup_app in H.
           destruct (lookup k' counts) as [x|] eqn:Hx;
             [injection H as ->; now apply Htext|].
           simpl in H. destruct (k =? k'); discriminate.
        -- intros k' m H. rewrite lookup_app in H.
           destruct (lookup k' counts) as [x|] eqn:Hx;
             [injection H as ->; now apply Hcount|].
           simpl in H. destruct (k =? k') eqn:E; [|discriminate].
           apply String.eqb_eq in E. subst k'. injection H as <-.
           split; [exact Hinh|lia].
      * rewrite total_app. simpl. lia.
      * intros k' Hk'. rewrite lookup_app.
        destruct (k' =? k) eqn:E.
        -- apply String.eqb_eq in E. subst k'. rewrite Hk. simpl.
           now rewrite String.eqb_refl.
        -- destruct (lookup k' counts); [reflexivity|].
           simpl. rewrite String.eqb_sym in E. now rewrite E.
      * exact Hkeys.
Qed.

Lemma tally_fold (ks : list string) :
  forall counts,
  wellTallied counts ->
  let final := fold_left Commands.tallyStep ks counts in
  wellTallied final
  /\ total final
     = (total counts
        + Z.of_nat (List.length (filter (fun k => negb (inherited k)) ks)))%Z
  /\ (forall k,
        inherited k = false ->
        lookup k final
        = match lookup k counts with
          | Some (Commands.Count n) => Some (Commands.Count (n + occurrences k ks))
          | _ => if (occurrences k ks =? 0)%Z then None
                 else Some (Commands.Count (occurrences k ks))
          end)
  /\ (forall k, In k (keys final) -> In k (keys counts) \/ In k ks).
Proof.
  induction ks as [|k0 ks IH]; intros counts Hwt; cbv zeta.
  - simpl. split; [exact Hwt|]. split; [lia|]. split; [|auto].
    intros k Hk. unfold occurrences. simpl.
    destruct (lookup k counts) as [[n|]|] eqn:E; try reflexivity.
    + now rewrite Z.add_0_r.
    + destruct Hwt as (_ & Htext & _). rewrite (Htext k E) in Hk. discriminate.
  - simpl fold_left.
    destruct (tallyStep_spec counts k0 Hwt) as (Hwt1 & Htot1 & Hlook1 & Hkeys1).
    destruct (IH _ Hwt1) as (Hwt' & Htot' & Hlook' & Hkeys').
    split; [exact Hwt'|]. split; [|split].
    + rewrite Htot', Htot1. simpl.
      destruct (inherited k0); simpl; lia.
    + intros k Hk. rewrite (Hlook' k Hk), (Hlook1 k Hk).
      unfold occurrences. simpl.
      destruct (k =? k0) eqn:E; simpl.
      * destruct (lookup k counts) as [[n|]|]; f_equal; f_equal; lia.
      * destruct (lookup k counts) as [[n|]|]; reflexivity.
    + intros k Hin. destruct (Hkeys' k Hin) as [H|H]; [|right; now right].
      destruct (Hkeys1 k H) as [H1| ->]; [now left|right; now left].
Qed.

End TallyFacts.

(** ** Rankings *)

Lemma countsOf_some (entries : list (string * Commands.tally)) :
  forall l,
  Commands.countsOf entries = Some l ->
  entries = map (fun p => (fst p, Commands.Count (snd p))) l
  /\ total entries = sumOf l.
Proof.
  induction entries as [|[k [n|]] entries IH]; simpl; intros l H.
  - injection H as <-. now split.
  - destruct (Commands.countsOf entries) as [l'|]; [|discriminate].
    injection H as <-. destruct (IH l' eq_refl) as [-> Htot].
    split; [reflexivity|]. unfold total, sumOf in *. simpl. now rewrite Htot.
  - discriminate.
Qed.

Lemma countsOf_defined (entries : list (string * Commands.tally)) :
  (forall k, ~ In (k, Commands.Text) entries) ->
  exists l, Commands.countsOf entries = Some l.
Proof.
  induction entries as [|[k [n|]] entries IH]; simpl; intros Hno.
  - eauto.
  - destruct IH as [l ->]; [|eauto]. intros k' H. apply (Hno k'). now right.
  - exfalso. apply (Hno k). now left.
Qed.

Lemma total_perm (c1 c2 : list (string * Commands.tally)) :
  Permutation c1 c2 -> total c1 = total c2.
Proof.
  unfold total. induction 1 as [|[k x] l l' _ IH|[k x] [k' x'] l|l l' l'' _ IH1 _ IH2];
    simpl; try lia.
  - rewrite IH. reflexivity.
  - destruct x, x'; lia.
Qed.

Lemma sumOf_perm (l1 l2 : list (string * Z)) :
  Permutation l1 l2 -> sumOf l1 = sumOf l2.
Proof.
  unfold sumOf. induction 1; simpl; lia.
Qed.

Lemma wellTallied_nil : wellTallied [].
Proof. split; [constructor|]. split; intros; discriminate. Qed.

Lemma filter_map_length {A B : Type} (f : A -> B) (p : B -> bool) (l : list A) :
  List.length (filter p (map f l)) = List.length (filter (fun x => p (f x)) l).
Proof.
  induction l as [|x l IH]; simpl; [reflexivity|].
  destruct (p (f x)); simpl; now rewrite IH.
Qed.

(** The ranking of a tally, when it is defined: one pair per key that no
    prototype defines, with the number of its occurrences, by decreasing
    count; the counts add up to the number of such occurrences. *)
Lemma ranking_spec (ks : list string) (ranked : list (string * Z)) :
  Commands.ranking (Commands.tallyOf ks) = Some ranked ->
  (forall k n,
     In (k, n) ranked
     <-> inherited k = false /\ (0 < n)%Z /\ n = occurrences k ks)
  /\ decreasing snd ranked
  /\ NoDup (map fst ranked)
  /\ sumOf ranked
     = Z.of_nat (List.length (filter (fun k => negb (inherited k)) ks)).
Proof.
  unfold Commands.ranking, Commands.tallyOf.
  destruct (tally_fold ks [] wellTallied_nil) as (Hwt & Htot & Hlook & _).
  cbv zeta in *. set (counts := fold_left Commands.tallyStep ks []) in *.
  destruct (Commands.countsOf (Commands.objectEntries counts)) as [entries|] eqn:Hc;
    [|discriminate].
  intros [= <-].
  destruct (countsOf_some _ _ Hc) as [Hentries Hsum].
  pose proof (objectEntries_perm counts) as Hperm.
  pose proof (sortDesc_perm snd entries) as Hsorted.
  destruct Hwt as (Hnd & Htext & Hcount).
  assert (Hin : forall k n,
             In (k, n) (Commands.sortDesc snd entries)
             <-> lookup k counts = Some (Commands.Count n)).
  { intros k n. split.
    - intros H. apply (Permutation_in _ Hsorted) in H.
      apply in_lookup; [exact Hnd|].
      apply (Permutation_in _ Hperm). rewrite Hentries.
      apply in_map_iff. now exists (k, n).
    - intros H. apply lookup_in in H.
      apply (Permutation_in _ (Permutation_sym Hperm)) in H.
      rewrite Hentries in H. apply in_map_iff in H as ([k' n'] & [= -> ->] & H).
      now apply (Permutation_in _ (Permutation_sym Hsorted)). }
  split; [|split; [|split]].
  - intros k n. rewrite Hin. split.
    + intros H. destruct (Hcount k n H) as [Hinh Hpos].
      repeat split; auto.
      rewrite (Hlook k Hinh) in H. simpl in H.
      destruct (occurrences k ks =? 0)%Z; [discriminate|]. now injection H.
    + intros (Hinh & Hpos & ->). rewrite (Hlook k Hinh). simpl.
      destruct (occurrences k ks =? 0)%Z eqn:E; [|reflexivity].
      apply Z.eqb_eq in E. lia.
  - apply sortDesc_decreasing.
  - apply (Permutation_NoDup (l := keys counts)); [|exact Hnd].
    unfold keys.
    transitivity (map fst (Commands.objectEntries counts));
      [apply Permutation_map; now symmetry|].
    rewrite Hentries, map_map. simpl. apply Permutation_map. now symmetry.
  - rewrite (sumOf_perm _ _ Hsorted), <- Hsum, (total_perm _ _ Hperm), Htot.
    reflexivity.
Qed.

Lemma keysOf_ok (key : value -> result string) (logs : list value) :
  forall ks,
  Commands.keysOf key logs = Ok ks -> map key logs = map Ok ks.
Proof.
  induction logs as [|log logs IH]; simpl; intros ks H.
  - now injection H as <-.
  - destruct (key log) as [k|]; [|discriminate]. simpl in H.
    destruct (Commands.keysOf key logs) as [ks'|]; [|discriminate].
    injection H as <-. simpl. now rewrite (IH ks' eq_refl).
Qed.

Lemma keysOf_throws (key : value -> result string) (logs : list value) :
  Commands.keysOf key logs = TypeError
  <-> exists log, In log logs /\ key log = TypeError.
Proof.
  induction logs as [|log logs IH]; simpl.
  - split; [discriminate|intros (log & [] & _)].
  - destruct (key log) as [k|] eqn:Hk; simpl.
    + destruct (Commands.keysOf key logs) as [ks|]; simpl.
      * split; [discriminate|].
        intros (log' & [<-|Hin] & Hthrow); [congruence|].
        destruct IH as [_ IH]. discriminate IH. eauto.
      * split; [|reflexivity]. intros _.
        destruct IH as [IH _]. destruct (IH eq_refl) as (log' & Hin & Hthrow).
        eauto.
    + split; [|reflexivity]. intros _. exists log. auto.
Qed.

Lemma filter_keys_length (p : result string -> bool) (key : value -> result string)
    (logs : list value) (ks : list string) :
  map key logs = map Ok ks ->
  List.length (filter (fun k => p (Ok k)) ks)
  = List.length (filter (fun log => p (key log)) logs).
Proof.
  revert ks. induction logs as [|log logs IH]; intros [|k ks]; simpl;
    try discriminate; [reflexivity|].
  intros [= Hk Hrest]. rewrite Hk.
  destruct (p (Ok k)); simpl; now rewrite (IH ks Hrest).
Qed.

(** X15: when the namespace ranking of [analyze] and [stats] is defined, it
    lists each namespace of the file that no prototype defines once, with
    the number of its entries, by decreasing count, and the counts add up
    to the number of those entries. *)
Theorem namespace_ranking_counts_entries
    (logs : list value) (ranked : list (string * Z)) :
  Commands.namespaceRanking logs = Ok (Some ranked) ->
  (forall k n,
     In (k, n) ranked
     <-> inherited k = false /\ (0 < n)%Z
         /\ n = Z.of_nat (List.length
                            (filter (fun log => isKey (namespaceKey log) k) logs)))
  /\ decreasing snd ranked
  /\ NoDup (map fst ranked)
  /\ sumOf ranked
     = Z.of_nat (List.length
                   (filter (fun log => isOwnKey (namespaceKey log)) logs)).
Proof.
  intros Hrank.
  unfold Commands.namespaceRanking, Commands.namespaceCounts in Hrank.
  fold namespaceKey in Hrank.
  destruct (Commands.keysOf namespaceKey logs) as [ks|] eqn:Hks; [|discriminate].
  simpl in Hrank. injection Hrank as Hrank.
  apply keysOf_ok in Hks.
  destruct (ranking_spec _ _ Hrank) as (Hin & Hdec & Hnd & Hsum).
  split; [|split; [exact Hdec|split; [exact Hnd|]]].
  - intros k n. rewrite Hin. unfold occurrences.
    rewrite <- (filter_keys_length (fun r => isKey r k) namespaceKey logs ks Hks).
    cbn [isKey].
    rewrite (filter_ext (String.eqb k) (fun k' => k' =? k))
      by (intros k'; apply String.eqb_sym).
    reflexivity.
  - rewrite Hsum.
    now rewrite <- (filter_keys_length isOwnKey namespaceKey logs ks Hks).
Qed.

Lemma namespace_ranking_counts_entries_witness :
  (forall k n,
     In (k, n) [("api", 3%Z); ("db", 1%Z)]
     <-> inherited k = false /\ (0 < n)%Z
         /\ n = Z.of_nat (List.length
                            (filter (fun log => isKey (namespaceKey log) k)
                                    stampedLogs)))
  /\ decreasing snd [("api", 3%Z); ("db", 1%Z)]
  /\ NoDup (map fst [("api", 3%Z); ("db", 1%Z)])
  /\ sumOf [("api", 3%Z); ("db", 1%Z)]
     = Z.of_nat (List.length
                   (filter (fun log => isOwnKey (namespaceKey log)) stampedLogs)).
Proof.
  apply (namespace_ranking_counts_entries stampedLogs). reflexivity.
Defined.

(** A namespace that [Object.prototype] defines leaves the ranking
    undefined, array indices come first among equal counts, and a namespace
    that cannot be converted to a string makes the commands throw. *)
Example namespace_ranking_edges :
  Commands.namespaceRanking
    [logEntry "api" "a" []; logEntry "toString" "b" []]
  = Ok None
  /\ Commands.namespaceRanking
       [logEntry "api" "a" []; logEntry "404" "b" []; logEntry "db" "c" [];
        logEntry "db" "d" []; logEntry "7" "e" []]
     = Ok (Some [("db", 2%Z); ("7", 1%Z); ("404", 1%Z); ("api", 1%Z)])
  /\ Commands.namespaceRanking
       [VObj [("namespace", VObj [("toString", VNum 1)]); ("message", VStr "m")]]
     = TypeError.
Proof. repeat split. Qed.

(** ** The [stats] command *)

Lemma includes_colon (a b : string) : includes ":" (a ++ ":" ++ b) = true.
Proof.
  induction a as [|c a IH]; [reflexivity|].
  change ((String c a ++ ":" ++ b)%string) with (String c (a ++ ":" ++ b)).
  cbn [includes]. rewrite IH. apply orb_true_r.
Qed.

Lemma inherited_no_colon (k : string) : inherited k = true -> includes ":" k = false.
Proof.
  unfold inherited. intros H. apply existsb_exists in H as (x & Hx & E).
  apply String.eqb_eq in E. subst x. unfold inheritedKeys in Hx.
  repeat (destruct Hx as [<-|Hx]; [reflexivity|]). contradiction.
Qed.

Lemma colon_key_not_inherited (a b : string) : inherited (a ++ ":" ++ b) = false.
Proof.
  destruct (inherited (a ++ ":" ++ b)) eqn:E; [|reflexivity].
  apply inherited_no_colon in E. now rewrite includes_colon in E.
Qed.

(** A conversion throws exactly on the values that have no string form. *)
Lemma toPropertyKey_defined :
  forall v : value,
  hasStringForm v = true <-> exists text, toPropertyKey v = Ok text.
Proof.
  fix toPropertyKey_defined 1. intros v.
  destruct v as [| |b|n|n|text|items|props]; simpl;
    try (split; [eauto|reflexivity]).
  - assert (Hjoin : forall first,
              forallb hasStringForm items = true
              <-> exists text,
                    (fix join (first : bool) (l : list value) : result string :=
                       match l with
                       | [] => Ok ""
                       | x :: rest =>
                           bind (match x with
                                 | VUndefined | VNull => Ok ""
                                 | _ => toPropertyKey x
                                 end) (fun item =>
                           bind (join false rest) (fun others =>
                           Ok ((if first then "" else ",") ++ item ++ others)%string))
                       end) first items = Ok text).
    { induction items as [|x items IH]; intros first; simpl.
      - split; [eauto|reflexivity].
      - pose proof (toPropertyKey_defined x) as Hx.
        assert (Hitem : hasStringForm x = true
                        <-> exists item,
                              match x with
                              | VUndefined | VNull => Ok ""
                              | _ => toPropertyKey x
                              end = Ok item).
        { destruct x; try exact Hx; split; eauto. }
        clear Hx. split.
        + intros H. apply andb_prop in H as [H1 H2].
          apply Hitem in H1 as [item ->].
          apply (IH false) in H2 as [others ->]. simpl. eauto.
        + intros [text H].
          destruct (match x with
                    | VUndefined | VNull => Ok ""
                    | _ => toPropertyKey x
                    end) as [item|] eqn:Hi; [|discriminate].
          simpl in H.
          destruct ((fix join (first : bool) (l : list value) : result string :=
                       match l with
                       | [] => Ok ""
                       | x :: rest =>
                           bind (match x with
                                 | VUndefined | VNull => Ok ""
                                 | _ => toPropertyKey x
                                 end) (fun item =>
                           bind (join false rest) (fun others =>
                           Ok ((if first then "" else ",") ++ item ++ others)%string))
                       end) false items) as [others|] eqn:Ho; [|discriminate].
          apply andb_true_intro. split.
          * apply Hitem. eauto.
          * apply (IH false). eauto. }
    apply Hjoin.
  - destruct (lookup "toString" props); split; eauto; try discriminate.
    intros [text H]. discriminate.
Qed.

Lemma toPropertyKey_throws (v : value) :
  toPropertyKey v = TypeError <-> hasStringForm v = false.
Proof.
  pose proof (toPropertyKey_defined v) as [H1 H2].
  destruct (hasStringForm v) eqn:Hv.
  - destruct (H1 eq_refl) as [text ->]. split; discriminate.
  - split; [reflexivity|]. intros _.
    destruct (toPropertyKey v) as [text|]; [|reflexivity].
    discriminate H2. eauto.
Qed.

Lemma messageKey_throws (log : value) :
  Commands.messageKey log = TypeError
  <-> hasStringForm (getField log "namespace") = false
      \/ hasStringMessage log = false.
Proof.
  unfold Commands.messageKey, hasStringMessage.
  rewrite <- toPropertyKey_throws.
  destruct (toPropertyKey (getField log "namespace")) as [ns|]; simpl.
  - destruct (getField log "message"); split; auto; try discriminate;
      try (intros [H|H]; discriminate).
  - split; auto.
Qed.

Lemma messageKeys_ok (logs : list value) :
  forall ks,
  Commands.messageKeys logs = Ok ks ->
  List.length ks = List.length logs
  /\ Forall (fun k => inherited k = false) ks.
Proof.
  induction logs as [|log logs IH]; simpl; intros ks H.
  - injection H as <-. split; [reflexivity|constructor].
  - unfold Commands.messageKey in H.
    destruct (toPropertyKey (getField log "namespace")) as [ns|];
      [|discriminate].
    simpl in H.
    destruct (getField log "message") as [| | | | |s| |]; try discriminate.
    simpl in H.
    destruct (Commands.messageKeys logs) as [ks'|]; [|discriminate].
    injection H as <-. destruct (IH ks' eq_refl) as [Hlen Hall].
    split; [simpl; now rewrite Hlen|]. constructor; [|exact Hall].
    apply colon_key_not_inherited.
Qed.

Lemma messageKeys_throws (logs : list value) :
  Commands.messageKeys logs = TypeError
  <-> existsb (fun log => negb (hasStringForm (getField log "namespace"))
                          || negb (hasStringMessage log)) logs = true.
Proof.
  induction logs as [|log logs IH]; simpl; [split; discriminate|].
  pose proof (messageKey_throws log) as Hlog.
  destruct (Commands.messageKey log) as [k|]; simpl.
  - assert (Hok : negb (hasStringForm (getField log "namespace"))
                  || negb (hasStringMessage log) = false).
    { destruct (hasStringForm (getField log "namespace")) eqn:E1;
        [|destruct Hlog as [_ Hlog]; discriminate Hlog; auto].
      destruct (hasStringMessage log) eqn:E2; [reflexivity|].
      destruct Hlog as [_ Hlog]; discriminate Hlog; auto. }
    rewrite Hok. simpl. rewrite <- IH.
    destruct (Commands.messageKeys logs); simpl;
      split; (reflexivity || discriminate).
  - destruct Hlog as [Hlog _]. destruct (Hlog eq_refl) as [-> | ->];
      simpl; rewrite ?orb_true_r; split; reflexivity.
Qed.

Lemma topNamespaces_throws (logs : list value) :
  Commands.topNamespaces logs = TypeError
  <-> existsb (fun log => negb (hasStringForm (getField log "namespace"))) logs
      = true.
Proof.
  unfold Commands.topNamespaces, Commands.namespaceRanking,
    Commands.namespaceCounts.
  pose proof (keysOf_throws
                (fun log => toPropertyKey (getField log "namespace")) logs) as Hk.
  rewrite existsb_exists.
  destruct (Commands.keysOf _ logs) as [ks|]; simpl.
  - split; [discriminate|]. intros (log & Hin & Hlog).
    apply negb_true_iff, toPropertyKey_throws in Hlog.
    destruct Hk as [_ Hk]. discriminate Hk. eauto.
  - split; [|reflexivity]. intros _.
    destruct Hk as [Hk _]. destruct (Hk eq_refl) as (log & Hin & Hlog).
    exists log. split; [exact Hin|].
    apply negb_true_iff, toPropertyKey_throws. exact Hlog.
Qed.

Lemma ranking_defined (ks : list string) :
  Forall (fun k => inherited k = false) ks ->
  exists ranked, Commands.ranking (Commands.tallyOf ks) = Some ranked.
Proof.
  intros Hks. unfold Commands.ranking, Commands.tallyOf.
  destruct (tally_fold ks [] wellTallied_nil) as ((Hnd & Htext & _) & _ & _ & Hkeys).
  cbv zeta in *. set (counts := fold_left Commands.tallyStep ks []) in *.
  destruct (countsOf_defined (Commands.objectEntries counts)) as [entries ->];
    [|eauto].
  intros k Hin. apply (Permutation_in _ (objectEntries_perm counts)) in Hin.
  pose proof (in_lookup _ _ _ Hnd Hin) as Hlook.
  pose proof (Htext k Hlook) as Hinh.
  destruct (Hkeys k) as [[]|Hk].
  - unfold keys. apply in_map_iff. now exists (k, Commands.Text).
  - rewrite Forall_forall in Hks. rewrite (Hks k Hk) in Hinh. discriminate.
Qed.

(** X16: [stats] fails with a [TypeError] exactly when some entry has no
    string as message, or a namespace that cannot be converted to a string
    (an object with a [toString] property of its own, or an array that
    holds one).  Otherwise it reports the number of entries and the five
    most frequent keys "namespace:first 50 characters of the message",
    whose ranking is always defined: a prefix of the keys by decreasing
    count, each with the number of entries under it. *)
Theorem stats_needs_string_messages (logs : list value) :
  (Commands.statsCommand logs = TypeError
   <-> existsb (fun log => negb (hasStringForm (getField log "namespace"))
                           || negb (hasStringMessage log)) logs = true)
  /\ forall figures,
       Commands.statsCommand logs = Ok figures ->
       Commands.stats_total figures = List.length logs
       /\ exists ks ranked,
            Commands.messageKeys logs = Ok ks
            /\ List.length ks = List.length logs
            /\ Commands.ranking (Commands.tallyOf ks) = Some ranked
            /\ Commands.stats_messages figures = Some (firstn 5 ranked)
            /\ decreasing snd ranked
            /\ sumOf ranked = Z.of_nat (List.length logs)
            /\ forall k n, In (k, n) ranked
                           <-> (0 < n)%Z /\ n = occurrences k ks.
Proof.
  unfold Commands.statsCommand. split.
  - rewrite <- messageKeys_throws.
    pose proof (topNamespaces_throws logs) as Htop.
    pose proof (messageKeys_throws logs) as Hkeys.
    destruct (Commands.topNamespaces logs) as [namespaces|]; simpl.
    + destruct (Commands.messageKeys logs); simpl; split;
        (reflexivity || discriminate).
    + split; [|reflexivity]. intros _. apply Hkeys.
      destruct Htop as [Htop _]. specialize (Htop eq_refl).
      apply existsb_exists in Htop as (log & Hin & Hlog).
      apply existsb_exists. exists log. split; [exact Hin|].
      now rewrite Hlog.
  - intros figures.
    destruct (Commands.topNamespaces logs) as [namespaces|]; [|discriminate].
    simpl.
    destruct (Commands.messageKeys logs) as [ks|] eqn:Hks; [|discriminate].
    simpl. intros [= <-]. simpl. split; [reflexivity|].
    destruct (messageKeys_ok logs ks Hks) as [Hlen Hall].
    destruct (ranking_defined ks Hall) as [ranked Hranked].
    destruct (ranking_spec ks ranked Hranked) as (Hin & Hdec & _ & Hsum).
    exists ks, ranked. rewrite Hranked. simpl.
    split; [reflexivity|]. split; [exact Hlen|]. split; [reflexivity|].
    split; [reflexivity|]. split; [exact Hdec|]. split.
    + rewrite Hsum, <- Hlen. f_equal. f_equal.
      rewrite <- (filter_all ks) at 2. apply filter_ext_in.
      intros k Hk. rewrite Forall_forall in Hall. now rewrite (Hall k Hk).
    + intros k n. rewrite Hin. split; [tauto|].
      intros [Hpos Hn]. split; [|tauto].
      destruct (inherited k) eqn:E; [|reflexivity].
      exfalso. unfold occurrences in Hn.
      destruct (filter (String.eqb k) ks) as [|k' l] eqn:Hf; [simpl in Hn; lia|].
      assert (Hk' : In k' (filter (String.eqb k) ks)) by (rewrite Hf; now left).
      apply filter_In in Hk' as [Hk' Heq]. apply String.eqb_eq in Heq. subst k'.
      rewrite Forall_forall in Hall. rewrite (Hall k Hk') in E. discriminate.
Qed.

(** An entry without message stops [stats], not [errors]; so does an entry
    whose namespace is an object with a [toString] property of its own. *)
Example stats_stops_on_missing_message :
  Commands.statsCommand [VObj [("namespace", VStr "api")]] = TypeError
  /\ errorsCommand [VObj [("namespace", VStr "api")]] = Ok []
  /\ Commands.statsCommand
       [VObj [("namespace", VObj [("toString", VNum 1)]); ("message", VStr "m")]]
     = TypeError
  /\ errorsCommand
       [VObj [("namespace", VObj [("toString", VNum 1)]); ("message", VStr "m")]]
     = Ok [].
Proof. repeat split. Qed.

Lemma existsb_count (p : value -> bool) (ids : list value) :
  existsb p ids = (0 <? List.length (filter p ids))%nat.
Proof.
  induction ids as [|x ids IH]; [reflexivity|].
  cbn [existsb filter]. destruct (p x); [reflexivity|exact IH].
Qed.

Lemma setAddValue_same (s : string) (ids : list value) :
  List.length (filter (Commands.sameValueZero (VStr s))
                      (Commands.setAddValue ids (VStr s)))
  = if (0 <? List.length (filter (Commands.sameValueZero (VStr s)) ids))%nat
    then List.length (filter (Commands.sameValueZero (VStr s)) ids)
    else 1%nat.
Proof.
  unfold Commands.setAddValue. rewrite existsb_count.
  destruct (0 <? _)%nat eqn:E; [reflexivity|].
  apply Nat.ltb_ge in E. rewrite filter_app, length_app.
  cbn [filter]. replace (Commands.sameValueZero (VStr s) (VStr s)) with true
    by (simpl; now rewrite String.eqb_refl).
  simpl. lia.
Qed.

Lemma setAddValue_other (s : string) (ids : list value) (v : value) :
  Commands.sameValueZero (VStr s) v = false ->
  filter (Commands.sameValueZero (VStr s)) (Commands.setAddValue ids v)
  = filter (Commands.sameValueZero (VStr s)) ids.
Proof.
  intros Hv. unfold Commands.setAddValue.
  destruct (existsb (Commands.sameValueZero v) ids); [reflexivity|].
  rewrite filter_app. cbn [filter]. rewrite Hv. apply app_nil_r.
Qed.

Lemma requestIds_count (s : string) (logs : list value) :
  s <> "" ->
  forall ids,
  (List.length (filter (Commands.sameValueZero (VStr s)) ids) <= 1)%nat ->
  List.length
    (filter (Commands.sameValueZero (VStr s))
       (fold_left
          (fun ids log =>
             let id := optField (getField log "metadata") "requestId" in
             if truthy id then Commands.setAddValue ids id else ids)
          logs ids))
  = if (0 <? List.length (filter (Commands.sameValueZero (VStr s)) ids))%nat
       || existsb (carriesRequestId s) logs
    then 1%nat else 0%nat.
Proof.
  intros Hs.
  induction logs as [|log logs IH]; intros ids Hids.
  - cbn [fold_left existsb]. rewrite orb_false_r.
    destruct (0 <? _)%nat eqn:E;
      [apply Nat.ltb_lt in E|apply Nat.ltb_ge in E]; lia.
  - cbn [fold_left existsb]. cbv zeta. unfold carriesRequestId at 1.
    set (id := optField (getField log "metadata") "requestId").
    destruct (strictEqStr id s) eqn:Hid.
    + apply strictEqStr_true in Hid. rewrite Hid.
      assert (Ht : truthy (VStr s) = true)
        by (simpl; apply String.eqb_neq in Hs; now rewrite Hs).
      rewrite Ht, orb_true_l, orb_true_r. cbv iota.
      assert (Hone : List.length
                       (filter (Commands.sameValueZero (VStr s))
                               (Commands.setAddValue ids (VStr s))) = 1%nat).
      { rewrite setAddValue_same.
        destruct (0 <? _)%nat eqn:E; [apply Nat.ltb_lt in E; lia|reflexivity]. }
      rewrite IH by (rewrite Hone; lia). now rewrite Hone.
    + assert (Hsame : Commands.sameValueZero (VStr s) id = false).
      { destruct id; try reflexivity. simpl in *. rewrite String.eqb_sym.
        exact Hid. }
      rewrite orb_false_l.
      destruct (truthy id).
      * rewrite IH; rewrite (setAddValue_other s ids id Hsame);
          [reflexivity|exact Hids].
      * now apply IH.
Qed.

(** X17: in the request ids that [stats] counts, a non-empty string counts
    once if some entry carries it as [metadata.requestId], whatever the
    number of entries that do, and not at all otherwise. *)
Theorem request_id_counted_once (logs : list value) (s : string) :
  s <> "" ->
  List.length (filter (Commands.sameValueZero (VStr s)) (Commands.requestIds logs))
  = if existsb (carriesRequestId s) logs then 1%nat else 0%nat.
Proof.
  intros Hs. unfold Commands.requestIds.
  rewrite (requestIds_count s logs Hs) by (simpl; lia). reflexivity.
Qed.

Lemma request_id_counted_once_witness :
  List.length (filter (Commands.sameValueZero (VStr "req-1"))
                      (Commands.requestIds stampedLogs))
  = if existsb (carriesRequestId "req-1") stampedLogs then 1%nat else 0%nat.
Proof.
  apply request_id_counted_once. discriminate.
Defined.

(** ** The slowest operations *)

Lemma decreasing_firstn {A : Type} (key : A -> Z) (n : nat) (l : list A) :
  decreasing key l -> decreasing key (firstn n l).
Proof.
  unfold decreasing. revert n.
  induction l as [|x l IH]; intros [|n] Hl; simpl; try constructor.
  - apply IH. now apply StronglySorted_inv in Hl.
  - apply StronglySorted_inv in Hl as [_ Hx].
    rewrite Forall_forall in *. intros y Hy. apply Hx.
    rewrite <- (firstn_skipn n l). apply in_or_app. now left.
Qed.

(** X18: when every duration is a number, the "slowest operations" of
    [perf] are five of the matches with a truthy duration (all of them when
    there are fewer), by decreasing duration, and no match left out lasted
    longer than one that is listed. *)
Theorem slowest_are_the_longest (logs shown : list value) :
  Commands.slowest logs = Some shown ->
  List.length shown = Nat.min 5 (List.length (timedLogs logs))
  /\ decreasing durationKey shown
  /\ exists rest,
       Permutation (shown ++ rest) (timedLogs logs)
       /\ forall a b, In a shown -> In b rest -> (durationKey b <= durationKey a)%Z.
Proof.
  unfold Commands.slowest. fold (timedLogs logs).
  destruct (forallb _ (timedLogs logs)); [|discriminate].
  intros Hshown.
  assert (Hs : shown = firstn 5 (Commands.sortDesc durationKey (timedLogs logs)))
    by (unfold durationKey; congruence).
  subst shown. clear Hshown.
  pose proof (sortDesc_perm durationKey (timedLogs logs)) as Hperm.
  pose proof (sortDesc_decreasing durationKey (timedLogs logs)) as Hdec.
  split; [|split].
  - rewrite length_firstn. now rewrite (Permutation_length Hperm).
  - now apply decreasing_firstn.
  - exists (skipn 5 (Commands.sortDesc durationKey (timedLogs logs))).
    split; [now rewrite firstn_skipn|].
    now apply decreasing_split.
Qed.

Lemma slowest_are_the_longest_witness :
  List.length
    [logEntry "api" "b" [("duration", VNum 70)];
     logEntry "api" "e" [("duration", VNum 70)];
     logEntry "api" "d" [("duration", VNum 50)];
     logEntry "api" "a" [("duration", VNum 30)];
     logEntry "api" "f" [("duration", VNum 20)]]
  = Nat.min 5 (List.length (timedLogs timedSample))
  /\ decreasing durationKey
       [logEntry "api" "b" [("duration", VNum 70)];
        logEntry "api" "e" [("duration", VNum 70)];
        logEntry "api" "d" [("duration", VNum 50)];
        logEntry "api" "a" [("duration", VNum 30)];
        logEntry "api" "f" [("duration", VNum 20)]]
  /\ exists rest,
       Permutation
         ([logEntry "api" "b" [("duration", VNum 70)];
           logEntry "api" "e" [("duration", VNum 70)];
           logEntry "api" "d" [("duration", VNum 50)];
           logEntry "api" "a" [("duration", VNum 30)];
           logEntry "api" "f" [("duration", VNum 20)]] ++ rest)
         (timedLogs timedSample)
       /\ forall a b,
            In a [logEntry "api" "b" [("duration", VNum 70)];
                  logEntry "api" "e" [("duration", VNum 70)];
                  logEntry "api" "d" [("duration", VNum 50)];
                  logEntry "api" "a" [("duration", VNum 30)];
                  logEntry "api" "f" [("duration", VNum 20)]] ->
            In b rest -> (durationKey b <= durationKey a)%Z.
Proof.
  apply (slowest_are_the_longest timedSample). reflexivity.
Defined.

(** ** The browser tracer: the stored log *)

Section BrowserFacts.

Variable JSON_parse : string -> option value.
Variable JSON_pretty : value -> option string.
Variable setItemOk : string -> bool.

#[local] Abbreviation bflush := (Browser.flushToLocalStorage JSON_parse JSON_pretty setItemOk).
#[local] Abbreviation brun := (Browser.run JSON_parse JSON_pretty setItemOk).
#[local] Abbreviation bstep := (Browser.step JSON_parse JSON_pretty setItemOk).

Lemma recent_spec (l : list value) :
  (List.length (recent l) <= 500)%nat
  /\ (exists dropped, l = dropped ++ recent l)
  /\ forall newest older,
       l = older ++ newest -> (List.length newest <= 500)%nat ->
       exists kept, recent l = kept ++ newest.
Proof.
  unfold recent, Commands.sliceLast.
  destruct (500 <? List.length l)%nat eqn:E.
  - apply Nat.ltb_lt in E. split; [rewrite length_skipn; lia|]. split.
    + exists (firstn (List.length l - 500) l). now rewrite firstn_skipn.
    + intros newest older -> Hnew. rewrite length_app in *.
      rewrite skipn_app.
      replace (List.length older + List.length newest - 500 - List.length older)%nat
        with 0%nat by lia.
      simpl. eauto.
  - apply Nat.ltb_ge in E. split; [exact E|]. split; [now exists []|].
    intros newest older -> _. eauto.
Qed.

(** X19: when the stored item is missing, empty or holds an array, the
    new array can be serialized and the storage accepts the text, a flush of
    a non-empty buffer stores the last 500 of the stored entries followed
    by the buffered ones, in that order, and empties the buffer; a buffer of
    at most 500 entries is stored whole, and what was stored is read back by
    [getLogs] if the text parses back to it. *)
Theorem browser_flush_keeps_last_500
    (t : Browser.DebugTracer) (stored : option string) (l : list value)
    (text : string) :
  Browser.buffer t <> [] ->
  storedArray JSON_parse stored = Some l ->
  JSON_pretty (VArr (recent (l ++ Browser.buffer t))) = Some text ->
  setItemOk text = true ->
  let kept := recent (l ++ Browser.buffer t) in
  bflush t stored = (Browser.set_buffer t [], Some text)
  /\ (List.length kept <= 500)%nat
  /\ (exists dropped, l ++ Browser.buffer t = dropped ++ kept)
  /\ ((List.length (Browser.buffer t) <= 500)%nat ->
      exists older, kept = older ++ Browser.buffer t)
  /\ (text <> "" ->
      JSON_parse text = Some (VArr kept) ->
      Browser.getLogs JSON_parse (snd (bflush t stored)) = VArr kept).
Proof.
  intros Hbuf Hstored Htext Hok. cbv zeta.
  assert (Hflush : bflush t stored = (Browser.set_buffer t [], Some text)).
  { unfold Browser.flushToLocalStorage.
    destruct (Browser.buffer t) as [|e entries] eqn:Hb; [congruence|].
    rewrite <- Hb. try rewrite <- Hb in Htext.
    assert (Hparsed : match stored with
                      | Some existing =>
                          if existing =? "" then Some (VArr [])
                          else JSON_parse existing
                      | None => Some (VArr [])
                      end = Some (VArr l)).
    { unfold storedArray in Hstored. destruct stored as [existing|].
      - destruct (existing =? ""); [now injection Hstored as <-|].
        destruct (JSON_parse existing) as [[| | | | | |items|]|]; try discriminate.
        now injection Hstored as ->.
      - now injection Hstored as <-. }
    rewrite Hparsed. cbn [Browser.concatLogs].
    change (Browser.keepRecent (VArr (l ++ Browser.buffer t)))
      with (if (500 <? List.length (l ++ Browser.buffer t))%nat
            then VArr (Commands.sliceLast (l ++ Browser.buffer t) 500)
            else VArr (l ++ Browser.buffer t)).
    assert (Hkept : (if (500 <? List.length (l ++ Browser.buffer t))%nat
                     then VArr (Commands.sliceLast (l ++ Browser.buffer t) 500)
                     else VArr (l ++ Browser.buffer t))
                    = VArr (recent (l ++ Browser.buffer t))).
    { unfold recent.
      destruct (500 <? List.length (l ++ Browser.buffer t))%nat; reflexivity. }
    rewrite Hkept, Htext. now rewrite Hok. }
  destruct (recent_spec (l ++ Browser.buffer t)) as (Hlen & Hdrop & Hnew).
  split; [exact Hflush|]. split; [exact Hlen|]. split; [exact Hdrop|]. split.
  - intros Hsmall. now apply (Hnew (Browser.buffer t) l).
  - intros Hne Hback. rewrite Hflush. simpl. unfold Browser.getLogs.
    apply String.eqb_neq in Hne. now rewrite Hne, Hback.
Qed.

Lemma bflush_unusable (t : Browser.DebugTracer) (stored : option string) :
  unusable JSON_parse stored = true -> bflush t stored = (t, stored).
Proof.
  intros Hbad. unfold Browser.flushToLocalStorage.
  destruct (Browser.buffer t); [reflexivity|].
  unfold unusable in Hbad. destruct stored as [existing|]; [|discriminate].
  destruct (existing =? ""); [discriminate|].
  destruct (JSON_parse existing) as [[| | | | | | |]|]; try discriminate; reflexivity.
Qed.

(** X20: while the stored item does not parse, or parses to something that
    is neither an array nor a string, no flush stores anything or empties
    the buffer: whatever the calls ([log], timer, unload, [destroy]), the
    item stays as it is and the buffer is the earlier one followed by every
    entry logged since, beyond the threshold of 100. *)
Theorem browser_unusable_storage_blocks_flush (calls : list Browser.call) :
  forall t stored,
  unusable JSON_parse stored = true ->
  snd (brun (t, stored) calls) = stored
  /\ Browser.buffer (fst (brun (t, stored) calls))
     = Browser.buffer t ++ browserEntries t calls.
Proof.
  induction calls as [|c calls IH]; intros t stored Hbad.
  - simpl. now rewrite app_nil_r.
  - assert (Hstep : exists t',
               bstep (t, stored) c = (t', stored)
               /\ Browser.buffer t'
                  = Browser.buffer t ++ browserEntries t [c]
               /\ (forall ns, Browser.shouldLog t' ns = Browser.shouldLog t ns)
               /\ Browser.fileOutput t' = Browser.fileOutput t).
    { destruct c as [now ns args| | |]; simpl.
      - unfold Browser.log.
        destruct (Browser.shouldLog t ns); simpl;
          [|exists t; rewrite app_nil_r; auto].
        destruct (Browser.fileOutput t) eqn:Hfile; simpl;
          [|exists t; rewrite app_nil_r; auto].
        unfold Browser.writeToBuffer.
        destruct (Browser.entryOf now ns args) as [entry|]; simpl;
          [|exists t; rewrite app_nil_r; auto].
        destruct (_ <=? _)%nat; [rewrite bflush_unusable by exact Hbad|];
          eexists; (split; [reflexivity|]); simpl; auto.
      - destruct (Browser.flushInterval t);
          [rewrite bflush_unusable by exact Hbad|];
          exists t; rewrite app_nil_r; repeat split.
      - destruct (Browser.fileOutput t) eqn:Hfile;
          [rewrite bflush_unusable by exact Hbad|];
          exists t; rewrite app_nil_r; repeat split; exact Hfile.
      - unfold Browser.destroy. rewrite bflush_unusable by exact Hbad.
        eexists; (split; [reflexivity|]); simpl. rewrite app_nil_r.
        repeat split. }
    destruct Hstep as (t' & Hstep & Hbuf & Hlog & Hfile).
    unfold Browser.run in *. simpl fold_left. rewrite Hstep.
    destruct (IH t' stored Hbad) as [I1 I2].
    split; [exact I1|]. rewrite I2, Hbuf, <- app_assoc. f_equal.
    assert (Hsame : forall l, browserEntries t' l = browserEntries t l).
    { induction l as [|c' l IHl]; simpl; [reflexivity|].
      destruct c'; try exact IHl. now rewrite Hlog, Hfile, IHl. }
    rewrite Hsame.
    destruct c as [now ns args| | |]; simpl; try reflexivity.
    destruct (Browser.shouldLog t ns && Browser.fileOutput t); [|reflexivity].
    now destruct (Browser.entryOf now ns args).
Qed.

End BrowserFacts.

Lemma browser_flush_keeps_last_500_witness :
  let kept := recent ([] ++ Browser.buffer browserTracer) in
  let text := RefJSON.print (VArr kept) in
  Browser.flushToLocalStorage RefJSON.parse RefJSON.stringify (fun _ => true)
    browserTracer None
  = (Browser.set_buffer browserTracer [], Some text)
  /\ (List.length kept <= 500)%nat
  /\ (exists dropped, [] ++ Browser.buffer browserTracer = dropped ++ kept)
  /\ ((List.length (Browser.buffer browserTracer) <= 500)%nat ->
      exists older, kept = older ++ Browser.buffer browserTracer)
  /\ (text <> "" ->
      RefJSON.parse text = Some (VArr kept) ->
      Browser.getLogs RefJSON.parse
        (snd (Browser.flushToLocalStorage RefJSON.parse RefJSON.stringify
                (fun _ => true) browserTracer None))
      = VArr kept).
Proof.
  apply (browser_flush_keeps_last_500 RefJSON.parse RefJSON.stringify
           (fun _ => true) browserTracer None []).
  - discriminate.
  - reflexivity.
  - reflexivity.
  - reflexivity.
Defined.

Lemma browser_unusable_storage_blocks_flush_witness :
  snd (Browser.run RefJSON.parse RefJSON.stringify (fun _ => true)
         (browserTracer, Some "{ cut short")
         [Browser.Log "t4" "api" [VStr "d"]; Browser.Tick; Browser.Unload;
          Browser.Log "t5" "api" [VStr "e"]; Browser.Destroy])
  = Some "{ cut short"
  /\ Browser.buffer
       (fst (Browser.run RefJSON.parse RefJSON.stringify (fun _ => true)
               (browserTracer, Some "{ cut short")
               [Browser.Log "t4" "api" [VStr "d"]; Browser.Tick; Browser.Unload;
                Browser.Log "t5" "api" [VStr "e"]; Browser.Destroy]))
     = Browser.buffer browserTracer
       ++ browserEntries browserTracer
            [Browser.Log "t4" "api" [VStr "d"]; Browser.Tick; Browser.Unload;
             Browser.Log "t5" "api" [VStr "e"]; Browser.Destroy].
Proof.
  apply (browser_unusable_storage_blocks_flush RefJSON.parse RefJSON.stringify
           (fun _ => true)).
  reflexivity.
Defined.

(** The stored text read back after a flush. *)
Example browser_flush_read_back :
  Browser.getLogs RefJSON.parse
    (snd (Browser.flushToLocalStorage RefJSON.parse RefJSON.stringify
            (fun _ => true) browserTracer None))
  = VArr (Browser.buffer browserTracer).
Proof. reflexivity. Qed.

(** ** The buffered writer: more on thresholds and shaping *)

(** X2: on a writer whose file could be opened, whatever the configuration,
    the buffer stays below the threshold (below 1 for a threshold under 1)
    over any sequence of [write], [flush], timer and [setRequestId] calls
    whose accepted entries can all be serialized. *)
Theorem fresh_writer_buffer_below_threshold
    (JSON_stringify : value -> option string) (config : FileWriterConfig)
    (now : string) (calls : list call) :
  let w := FileWriter.constructor config true now in
  forallb (fun c => negb (isDestroy c)) calls = true ->
  linesOf JSON_stringify
    (acceptedEntries (mode w) (currentRequestId w) calls) <> None ->
  (Z.of_nat (List.length (buffer (FileWriter.run JSON_stringify w calls)))
   < Z.max 1 (maxBufferSize w))%Z
  /\ fileStream (FileWriter.run JSON_stringify w calls) <> None.
Proof.
  intros w Hcalls Hser. split.
  - apply open_stream_buffer_bounded;
      [discriminate|exact Hcalls|exact Hser|].
    simpl. lia.
  - destruct (linesOf JSON_stringify
                (acceptedEntries (mode w) (currentRequestId w) calls))
      as [lines|] eqn:Hlines; [|now elim Hser].
    apply (run_keeps_lines JSON_stringify calls w lines);
      [discriminate|exact Hcalls|exact Hlines].
Qed.

Lemma fresh_writer_buffer_below_threshold_witness :
  let w := FileWriter.constructor
             {| cfg_path := None; cfg_mode := Some Full;
                cfg_maxBufferSize := Some 3%Z |}
             true "2024-01-01T00:00:00.000Z" in
  (Z.of_nat (List.length (buffer (FileWriter.run RefJSON.stringify w mixedCalls)))
   < Z.max 1 (maxBufferSize w))%Z
  /\ fileStream (FileWriter.run RefJSON.stringify w mixedCalls) <> None.
Proof.
  apply (fresh_writer_buffer_below_threshold RefJSON.stringify).
  - reflexivity.
  - vm_compute. discriminate.
Defined.

Lemma essential_fold (payload : value) (allow : list string) :
  forall essential,
  NoDup allow -> ~ In "__proto__" allow ->
  (forall k, In k allow -> ~ In k (keys essential)) ->
  fold_left
    (fun essential key =>
       if hasKey key payload then assign essential key (getField payload key)
       else essential)
    allow essential
  = essential
    ++ map (fun k => (k, getField payload k))
           (filter (fun k => hasKey k payload) allow).
Proof.
  induction allow as [|key allow IH]; intros essential Hnd Hproto Hfresh.
  - simpl. now rewrite app_nil_r.
  - apply NoDup_cons_iff in Hnd as [Hkey Hnd]. cbn [fold_left filter].
    destruct (hasKey key payload).
    + rewrite assign_fresh;
        [|intros ->; apply Hproto; now left|apply Hfresh; now left].
      rewrite IH; [now rewrite <- app_assoc|exact Hnd| |].
      * intros H. apply Hproto. now right.
      * intros k Hk. unfold keys. rewrite map_app. simpl. intros Hin.
        apply in_app_or in Hin as [Hin|[<-|[]]].
        -- apply (Hfresh k); [now right|exact Hin].
        -- contradiction.
    + apply IH; [exact Hnd| |].
      * intros H. apply Hproto. now right.
      * intros k Hk. apply Hfresh. now right.
Qed.

(** X6: under [minimal] the [data] stored for an object payload is made of
    the payload's properties named [duration], [elapsed], [timing],
    [error], [status] and [count], in this order and with the payload's
    values, and there is no [data] when the payload has none of them. *)
Theorem minimal_object_payload_in_allow_list_order
    (requestId : option string) (now ns msg : string)
    (props : list (string * value)) :
  data (buildEntry Minimal requestId now ns msg (VObj props))
  = match essentialOf (VObj props) with
    | [] => VUndefined
    | kept => VObj kept
    end.
Proof.
  change (data (buildEntry Minimal requestId now ns msg (VObj props)))
    with (processData Minimal (VObj props)).
  unfold processData.
  simpl typeofObject. simpl isNull. cbv iota beta. simpl andb. cbv iota zeta.
  rewrite (essential_fold (VObj props)).
  - fold (essentialOf (VObj props)). simpl app.
    now destruct (essentialOf (VObj props)).
  - unfold essentialKeys. repeat (constructor; [not_among|]). constructor.
  - unfold essentialKeys. not_among.
  - intros k _ [].
Qed.

(** ** The tracer: configuration against [DEBUG] *)

Lemma setAdd_fold_mem (names : list string) :
  forall members x,
  existsb (String.eqb x) (fold_left Tracer.setAdd names members)
  = existsb (String.eqb x) members || existsb (String.eqb x) names.
Proof.
  induction names as [|n names IH]; intros members x; simpl.
  - now rewrite orb_false_r.
  - rewrite IH. unfold Tracer.setAdd.
    destruct (existsb (String.eqb n) members) eqn:Hn.
    + destruct (x =? n) eqn:Hx; [|reflexivity].
      apply String.eqb_eq in Hx. subst x. now rewrite Hn.
    + rewrite existsb_app. simpl. now rewrite orb_false_r, orb_assoc.
Qed.

Lemma setAdd_fold_empty (names members : list string) :
  (List.length (fold_left Tracer.setAdd names members) =? 0)%nat
  = (List.length members =? 0)%nat && (List.length names =? 0)%nat.
Proof.
  revert members.
  induction names as [|n names IH]; intros members; simpl.
  - now rewrite andb_true_r.
  - rewrite IH, andb_false_r. unfold Tracer.setAdd.
    destruct (existsb (String.eqb n) members) eqn:Hn.
    + destruct members; [discriminate|reflexivity].
    + rewrite length_app. simpl. rewrite Nat.add_1_r. reflexivity.
Qed.

Lemma listed_shouldLog (t : Tracer.DebugTracer) (names : list string) (ns : string) :
  Tracer.enabledNamespaces t = fold_left Tracer.setAdd names [] ->
  Tracer.shouldLog t ns
  = Tracer.globalEnabled t
    && match names with
       | [] => true
       | _ => existsb (String.eqb ns) names
       end.
Proof.
  intros Hnames. unfold Tracer.shouldLog. rewrite Hnames.
  rewrite setAdd_fold_empty, setAdd_fold_mem.
  destruct (Tracer.globalEnabled t); [|reflexivity].
  now destruct names.
Qed.

(** X21: a configuration takes precedence over [DEBUG].  The namespaces it
    lists replace those of [DEBUG], an empty list meaning every namespace;
    [enabled: false] silences the tracer whatever [DEBUG] says; a
    configuration that does not set [enabled] logs nothing, listed
    namespaces included, while [DEBUG] is unset or ["false"]; and with
    [enabled: true] and no list, the namespaces are those of [DEBUG], all
    of them when it names none. *)
Theorem configuration_overrides_DEBUG
    (c : Tracer.DebugConfig) (envDebug : string)
    (writer : option DebugFileWriter) :
  let t := Tracer.constructor (Some c) envDebug writer in
  (forall l ns,
     Tracer.cfg_namespaces c = Some l ->
     Tracer.shouldLog t ns
     = Tracer.globalEnabled t
       && match l with
          | [] => true
          | _ => existsb (String.eqb ns) l
          end)
  /\ (Tracer.cfg_enabled c = Some false ->
      forall ns, Tracer.shouldLog t ns = false)
  /\ (Tracer.cfg_enabled c = None ->
      envDebug = "" \/ envDebug = "false" ->
      forall ns, Tracer.shouldLog t ns = false)
  /\ (Tracer.cfg_enabled c = Some true ->
      Tracer.cfg_namespaces c = None ->
      forall ns,
        Tracer.shouldLog t ns
        = match snd (Tracer.parseEnvConfig envDebug) with
          | Some (n :: names) => existsb (String.eqb ns) (n :: names)
          | _ => true
          end).
Proof.
  intros t. subst t. repeat split.
  - intros l ns Hl. apply listed_shouldLog.
    unfold Tracer.constructor. simpl. now rewrite Hl.
  - intros He ns. unfold Tracer.shouldLog, Tracer.constructor. simpl.
    now rewrite He.
  - intros He Henv ns. unfold Tracer.shouldLog, Tracer.constructor. simpl.
    rewrite He. now destruct Henv as [-> | ->].
  - intros He Hl ns.
    rewrite (listed_shouldLog _
               match snd (Tracer.parseEnvConfig envDebug) with
               | Some l => l
               | None => []
               end).
    + unfold Tracer.constructor at 1. simpl Tracer.globalEnabled. rewrite He.
      simpl andb.
      destruct (snd (Tracer.parseEnvConfig envDebug)) as [[|n names]|];
        reflexivity.
    + unfold Tracer.constructor. simpl. now rewrite Hl.
Qed.

(** With [DEBUG=api], a configuration listing [db] logs [db] only, and only
    because [DEBUG] switched the tracer on. *)
Example configuration_replaces_DEBUG_namespaces :
  let c := {| Tracer.cfg_enabled := None; Tracer.cfg_namespaces := Some ["db"] |} in
  map (Tracer.shouldLog (Tracer.constructor (Some c) "api" None)) ["api"; "db"]
  = [false; true]
  /\ map (Tracer.shouldLog (Tracer.constructor (Some c) "" None)) ["api"; "db"]
     = [false; false].
Proof. split; reflexivity. Qed.
